(** * vtzero: the geometry decoder and the layer reader

    A shallow embedding of [include/vtzero/geometry.hpp] and
    [include/vtzero/layer.hpp], and the properties of them that the
    specification of the library states.  The definitions come first: the
    geometry decoder (module [Geometry]), the record codec that the layer
    reads its bytes with ([Protozero]) and the layer ([Layer]); the proofs
    follow in [GeometryFacts], [ProtozeroFacts] and [LayerFacts], and
    [Instances] has the theorems at concrete inputs.

    Conventions.
    - C++ integers are [Z] with the wrap-around of their type written out
      ([uint32], [int32], [int64] below).  Signed overflow, which the
      standard leaves undefined, is modelled as two's complement wrap.
    - A C++ function that can throw returns an [outcome]; [vtzero_assert]
      has an outcome of its own, as has a loop that runs out of the fuel
      its caller supplies (the callers supply enough, which is proved).
    - The geometry handler, a template parameter in the source, is a type
      class; handler calls thread the handler state. *)

From Stdlib Require Import ZArith String List Bool Lia.
From Stdlib Require Import Strings.Byte.
From Stdlib Require Import DecimalString.
Import ListNotations.
Open Scope Z_scope.

(** ** Exceptions and outcomes *)

(** Modelled from the spec: the exceptions of the record codec (protozero,
    an external library) are not part of the sources; "malformed record
    codec payload": the input ends inside a record, a record has an unknown
    wire type, or a varint is longer than ten bytes. *)
Inductive pbf_exception : Type :=
  | end_of_buffer_exception
  | unknown_pbf_wire_type_exception
  | varint_too_long_exception.

(** Modelled from the spec: the exception classes ([exception.hpp]) are not
    part of the sources; the error kinds [GeometryError], [FormatError],
    [VersionError] ("carries the observed version") and [OutOfRange], under
    the names the sources throw them by, and the exceptions of the codec. *)
Inductive exn : Type :=
  | geometry_exception (what : string)
  | format_exception (what : string)
  | version_exception (version : Z)
  | out_of_range
  | protozero_exception (e : pbf_exception).

(** How a call ends: it returns, it throws, an assertion fails, or a loop
    of the model has used up its fuel. *)
Inductive outcome (A : Type) : Type :=
  | Ok (a : A)
  | Throw (e : exn)
  | AssertFail
  | OutOfFuel.

Arguments Ok {A} a.
Arguments Throw {A} e.
Arguments AssertFail {A}.
Arguments OutOfFuel {A}.

Definition bind {A B} (m : outcome A) (k : A -> outcome B) : outcome B :=
  match m with
  | Ok a => k a
  | Throw e => Throw e
  | AssertFail => AssertFail
  | OutOfFuel => OutOfFuel
  end.

Notation "x <- m ;; k" := (bind m (fun x => k))
  (at level 61, m at next level, right associativity).
Notation "' pat <- m ;; k" := (bind m (fun x => match x with pat => k end))
  (at level 61, pat pattern, m at next level, right associativity).

(** Modelled from the spec: the macro [vtzero_assert] ([types.hpp]) is not
    part of the sources; precondition violations are "assertion failures
    that surface as a distinct [AssertError] kind".  [vtzero_assert(c)]
    followed by the rest of the function. *)
Definition vtzero_assert {A} (c : bool) (k : outcome A) : outcome A :=
  if c then k else AssertFail.

(** ** A state and error monad

    A computation on an object of type [S] (a handler, a reader, a layer)
    returns the object as it left it, also when it throws, with the
    outcome. *)

Definition M (S A : Type) : Type := S -> S * outcome A.

Definition ret {S A} (a : A) : M S A := fun s => (s, Ok a).

Definition lift {S A} (o : outcome A) : M S A := fun s => (s, o).

Definition throw {S A} (e : exn) : M S A := lift (Throw e).

(** A call that changes the object and cannot fail. *)
Definition call {S} (f : S -> S) : M S unit := fun s => (f s, Ok tt).

(** Reading a member of the object. *)
Definition gets {S A} (f : S -> A) : M S A := fun s => (s, Ok (f s)).

Definition mbind {S A B} (m : M S A) (k : A -> M S B) : M S B :=
  fun s =>
    match m s with
    | (s', Ok a) => k a s'
    | (s', Throw e) => (s', Throw e)
    | (s', AssertFail) => (s', AssertFail)
    | (s', OutOfFuel) => (s', OutOfFuel)
    end.

Notation "x <~ m ;; k" := (mbind m (fun x => k))
  (at level 61, m at next level, right associativity).
Notation "' pat <~ m ;; k" := (mbind m (fun x => match x with pat => k end))
  (at level 61, pat pattern, m at next level, right associativity).
Notation "m ;;; k" := (mbind m (fun _ => k))
  (at level 61, right associativity).

(** The same, [vtzero_assert(c)], in a computation. *)
Definition massert {S A} (c : bool) (k : M S A) : M S A :=
  if c then k else lift AssertFail.

(** ** Machine integers *)

Definition uint32 (z : Z) : Z := z mod 2 ^ 32.
Definition uint64 (z : Z) : Z := z mod 2 ^ 64.
Definition int32 (z : Z) : Z := (z + 2 ^ 31) mod 2 ^ 32 - 2 ^ 31.
Definition int64 (z : Z) : Z := (z + 2 ^ 63) mod 2 ^ 64 - 2 ^ 63.

Definition is_uint32 (z : Z) : Prop := 0 <= z < 2 ^ 32.
Definition is_int32 (z : Z) : Prop := - 2 ^ 31 <= z < 2 ^ 31.
Definition is_int64 (z : Z) : Prop := - 2 ^ 63 <= z < 2 ^ 63.

(** [std::to_string] of an unsigned integer. *)
Definition to_string (z : Z) : string :=
  NilZero.string_of_uint (N.to_uint (Z.to_N z)).

(** Modelled from the spec: protozero's [decode_zigzag32] is not part of the
    sources; "parameter integers are zigzag-encoded deltas", with
    [zz(n) = (n<<1) XOR (n>>31)].  This is the inverse of [zz] on 32-bit
    values: even [v] is [v/2], odd [v] is [-(v+1)/2]. *)
Definition decode_zigzag32 (v : Z) : Z :=
  Z.lxor (Z.shiftr v 1) (- Z.land v 1).

(** Modelled from the spec: [zz(n) = (n<<1) XOR (n>>31)] on 32 bits. *)
Definition encode_zigzag32 (n : Z) : Z :=
  uint32 (Z.lxor (Z.shiftl n 1) (Z.shiftr n 31)).

Module Geometry.

(** ** [geometry.hpp] *)

(** [struct point]: two [int32_t] coordinates, default (0, 0). *)
Record point : Type := mk_point { x : Z; y : Z }.

Definition point_eqb (a b : point) : bool :=
  (x a =? x b) && (y a =? y b).

(** [operator!=] *)
Definition point_neqb (a b : point) : bool := negb (point_eqb a b).

Definition command_integer (id count : Z) : Z :=
  Z.lor (Z.land id 7) (uint32 (Z.shiftl count 3)).

Definition command_move_to (count : Z) : Z := command_integer 1 count.
Definition command_line_to (count : Z) : Z := command_integer 2 count.
Definition command_close_path (count : Z) : Z := command_integer 7 count.

Definition get_command_id (command_integer : Z) : Z :=
  Z.land command_integer 7.

Definition get_command_count (command_integer : Z) : Z :=
  Z.shiftr command_integer 3.

(** [detail::det]: the products and the difference are [int64_t]. *)
Definition det (a b : point) : Z :=
  int64 (int64 (x a * y b) - int64 (x b * y a)).

(** Modelled from the spec: [GeomType] and [geometry] ([types.hpp]) are not
    part of the sources; "[type] (one of UNKNOWN, POINT, LINESTRING,
    POLYGON), [geometry] (opaque uint32 command stream)".  The data of a
    geometry is given as the sequence of unsigned 32-bit integers that its
    iterator yields: [basic_geometry_decoder] is a template over that
    iterator. *)
Inductive GeomType : Type := UNKNOWN | POINT | LINESTRING | POLYGON.

Definition GeomType_eqb (a b : GeomType) : bool :=
  match a, b with
  | UNKNOWN, UNKNOWN | POINT, POINT
  | LINESTRING, LINESTRING | POLYGON, POLYGON => true
  | _, _ => false
  end.

(** Modelled from the spec: the class [geometry], as said above. *)
Record geometry : Type := mk_geometry {
  geometry_data : list Z;
  geometry_type : GeomType
}.

(** [basic_geometry_decoder]: [m_it] is the input not yet read ([m_end] is
    the end of that list). *)
Record decoder : Type := mk_decoder {
  m_it : list Z;
  m_cursor : point;
  m_command_id : Z;
  m_count : Z;
  m_strict : bool
}.

Definition geometry_decoder (data : list Z) (strict : bool) : decoder :=
  mk_decoder data (mk_point 0 0) 0 0 strict.

Definition count (d : decoder) : Z := m_count d.

Definition done (d : decoder) : bool :=
  match m_it d with [] => true | _ => false end.

Definition next_command (expected_command : Z) (d : decoder)
  : outcome (bool * decoder) :=
  vtzero_assert (m_count d =? 0)
  match m_it d with
  | [] => Ok (false, d)
  | c :: rest =>
      let id := get_command_id c in
      d1 <-
        (if id =? command_close_path 0 then
           if negb (get_command_count c =? 1) then
             Throw (geometry_exception "ClosePath command count is not 1")
           else
             Ok (mk_decoder (m_it d) (m_cursor d) id (m_count d) (m_strict d))
         else
           Ok (mk_decoder (m_it d) (m_cursor d) id (get_command_count c)
                 (m_strict d))) ;;
      if negb (m_command_id d1 =? expected_command) then
        Throw (geometry_exception
                 ("expected command " ++ to_string expected_command ++
                  " but got " ++ to_string (m_command_id d1)))
      else
        Ok (true, mk_decoder rest (m_cursor d1) (m_command_id d1)
                    (m_count d1) (m_strict d1))
  end.

Definition next_point (d : decoder) : outcome (point * decoder) :=
  vtzero_assert (0 <? m_count d)
  match m_it d with
  | zx :: zy :: rest =>
      let dx := decode_zigzag32 zx in
      let dy := decode_zigzag32 zy in
      if m_strict d && (m_command_id d =? command_line_to 0)
         && (dx =? 0) && (dy =? 0) then
        Throw (geometry_exception
          "found consecutive equal points (spec 4.3.3.2) (strict mode)")
      else
        let c := mk_point (int32 (x (m_cursor d) + dx))
                          (int32 (y (m_cursor d) + dy)) in
        Ok (c, mk_decoder rest c (m_command_id d) (uint32 (m_count d - 1))
                 (m_strict d))
  | _ => Throw (geometry_exception "too few points in geometry")
  end.

(** The handler of the decode functions ([TGeomHandler]). *)
Class GeomHandler (H : Type) : Type := {
  points_begin : Z -> H -> H;
  points_point : point -> H -> H;
  points_end : H -> H;
  linestring_begin : Z -> H -> H;
  linestring_point : point -> H -> H;
  linestring_end : H -> H;
  ring_begin : Z -> H -> H;
  ring_point : point -> H -> H;
  ring_end : bool -> H -> H
}.

Section Decode.

Context {H : Type} `{GeomHandler H}.

(** [while (decoder.count() > 0) handler.point(decoder.next_point())], for
    the point callback [emit] of the geometry type. *)
Fixpoint points_loop (emit : point -> H -> H) (fuel : nat) (d : decoder)
  : M H decoder :=
  if 0 <? count d then
    match fuel with
    | O => lift OutOfFuel
    | S fuel' =>
        '(p, d') <~ lift (next_point d) ;;
        call (emit p) ;;;
        points_loop emit fuel' d'
    end
  else ret d.

Definition decode_point_geometry (g : geometry) (strict : bool) : M H unit :=
  massert (GeomType_eqb (geometry_type g) POINT)
    (let decoder := geometry_decoder (geometry_data g) strict in
     '(has_command, d1) <~ lift (next_command (command_move_to 0) decoder) ;;
     if negb has_command then
       throw (geometry_exception "expected MoveTo command (spec 4.3.4.2)")
     else if count d1 =? 0 then
       throw (geometry_exception
                "MoveTo command count is zero (spec 4.3.4.2)")
     else
       call (points_begin (count d1)) ;;;
       d2 <~ points_loop points_point (S (length (m_it d1))) d1 ;;
       if negb (done d2) then
         throw (geometry_exception
                  "additional data after end of geometry (spec 4.3.4.2)")
       else
         call points_end).

(** [while (decoder.next_command(command_move_to())) { ... }] of
    [decode_linestring_geometry]. *)
Fixpoint linestring_loop (fuel : nat) (d : decoder) : M H unit :=
  match fuel with
  | O => lift OutOfFuel
  | S fuel' =>
      '(has_move_to, d1) <~ lift (next_command (command_move_to 0) d) ;;
      if negb has_move_to then ret tt
      else if negb (count d1 =? 1) then
        throw (geometry_exception
                 "MoveTo command count is not 1 (spec 4.3.4.3)")
      else
        '(first_point, d2) <~ lift (next_point d1) ;;
        '(has_line_to, d3) <~ lift (next_command (command_line_to 0) d2) ;;
        if negb has_line_to then
          throw (geometry_exception "expected LineTo command (spec 4.3.4.3)")
        else if count d3 =? 0 then
          throw (geometry_exception
                   "LineTo command count is zero (spec 4.3.4.3)")
        else
          call (linestring_begin (uint32 (count d3 + 1))) ;;;
          call (linestring_point first_point) ;;;
          d4 <~ points_loop linestring_point (S (length (m_it d3))) d3 ;;
          call linestring_end ;;;
          linestring_loop fuel' d4
  end.

Definition decode_linestring_geometry (g : geometry) (strict : bool)
  : M H unit :=
  massert (GeomType_eqb (geometry_type g) LINESTRING)
    (linestring_loop (S (length (geometry_data g)))
       (geometry_decoder (geometry_data g) strict)).

(** The inner loop of [decode_polygon_geometry]: it carries the shoelace
    [sum] and [last_point] along with the decoder. *)
Fixpoint ring_loop (fuel : nat) (d : decoder) (sum : Z) (last_point : point)
  : M H (decoder * Z * point) :=
  if 0 <? count d then
    match fuel with
    | O => lift OutOfFuel
    | S fuel' =>
        '(p, d') <~ lift (next_point d) ;;
        let sum' := int64 (sum + det last_point p) in
        call (ring_point p) ;;;
        ring_loop fuel' d' sum' p
    end
  else ret (d, sum, last_point).

(** [while (decoder.next_command(command_move_to())) { ... }] of
    [decode_polygon_geometry]. *)
Fixpoint polygon_loop (strict : bool) (fuel : nat) (d : decoder) : M H unit :=
  match fuel with
  | O => lift OutOfFuel
  | S fuel' =>
      '(has_move_to, d1) <~ lift (next_command (command_move_to 0) d) ;;
      if negb has_move_to then ret tt
      else if negb (count d1 =? 1) then
        throw (geometry_exception
                 "MoveTo command count is not 1 (spec 4.3.4.4)")
      else
        '(start_point, d2) <~ lift (next_point d1) ;;
        let sum := 0 in
        let last_point := start_point in
        '(has_line_to, d3) <~ lift (next_command (command_line_to 0) d2) ;;
        if negb has_line_to then
          throw (geometry_exception "expected LineTo command (spec 4.3.4.4)")
        else if strict && (count d3 <=? 1) then
          throw (geometry_exception
            "LineTo command count is not greater than 1 (spec 4.3.4.4)")
        else
          call (ring_begin (uint32 (count d3 + 2))) ;;;
          call (ring_point start_point) ;;;
          '(d4, sum, last_point) <~
             ring_loop (S (length (m_it d3))) d3 sum last_point ;;
          '(has_close_path, d5) <~
             lift (next_command (command_close_path 0) d4) ;;
          if negb has_close_path then
            throw (geometry_exception "expected ClosePath command (4.3.4.4)")
          else
            let sum := int64 (sum + det last_point start_point) in
            call (ring_point start_point) ;;;
            call (ring_end (0 <? sum)) ;;;
            polygon_loop strict fuel' d5
  end.

Definition decode_polygon_geometry (g : geometry) (strict : bool) : M H unit :=
  massert (GeomType_eqb (geometry_type g) POLYGON)
    (polygon_loop strict (S (length (geometry_data g)))
       (geometry_decoder (geometry_data g) strict)).

End Decode.

(** ** The calls a decode function makes

    The handler calls of a run are described by a list of events; [replay]
    makes the calls on a handler. *)

Inductive event : Type :=
  | ev_points_begin (n : Z)
  | ev_points_point (p : point)
  | ev_points_end
  | ev_linestring_begin (n : Z)
  | ev_linestring_point (p : point)
  | ev_linestring_end
  | ev_ring_begin (n : Z)
  | ev_ring_point (p : point)
  | ev_ring_end (is_outer : bool).

Definition apply_event {H} `{GeomHandler H} (e : event) (h : H) : H :=
  match e with
  | ev_points_begin n => points_begin n h
  | ev_points_point p => points_point p h
  | ev_points_end => points_end h
  | ev_linestring_begin n => linestring_begin n h
  | ev_linestring_point p => linestring_point p h
  | ev_linestring_end => linestring_end h
  | ev_ring_begin n => ring_begin n h
  | ev_ring_point p => ring_point p h
  | ev_ring_end o => ring_end o h
  end.

Definition replay {H} `{GeomHandler H} (evs : list event) (h : H) : H :=
  fold_left (fun h e => apply_event e h) evs h.

(** The handler that records its calls, latest last. *)
#[export] Instance recorder : GeomHandler (list event) := {
  points_begin n h := h ++ [ev_points_begin n];
  points_point p h := h ++ [ev_points_point p];
  points_end h := h ++ [ev_points_end];
  linestring_begin n h := h ++ [ev_linestring_begin n];
  linestring_point p h := h ++ [ev_linestring_point p];
  linestring_end h := h ++ [ev_linestring_end];
  ring_begin n h := h ++ [ev_ring_begin n];
  ring_point p h := h ++ [ev_ring_point p];
  ring_end o h := h ++ [ev_ring_end o]
}.

(** ** Command streams, as the format describes them

    Parameter integers come in pairs; a pair is kept as it is in the
    stream, zigzag-encoded. *)

Definition flatten (ps : list (Z * Z)) : list Z :=
  flat_map (fun p => [fst p; snd p]) ps.

Fixpoint pairs (l : list Z) : list (Z * Z) :=
  match l with
  | a :: b :: r => (a, b) :: pairs r
  | _ => []
  end.

(** The cursor after the parameter pair [p]. *)
Definition move (c : point) (p : Z * Z) : point :=
  mk_point (int32 (x c + decode_zigzag32 (fst p)))
           (int32 (y c + decode_zigzag32 (snd p))).

(** The cursors after each pair of [ps], from the cursor [c]. *)
Fixpoint cursors (c : point) (ps : list (Z * Z)) : list point :=
  match ps with
  | [] => []
  | p :: ps' => move c p :: cursors (move c p) ps'
  end.

(** The sum of all zigzag-decoded deltas of [ps], as a point. *)
Definition delta_sum (ps : list (Z * Z)) : point :=
  mk_point
    (int32 (fold_right Z.add 0 (map (fun p => decode_zigzag32 (fst p)) ps)))
    (int32 (fold_right Z.add 0 (map (fun p => decode_zigzag32 (snd p)) ps))).

(** The running sums: the sum of the first pair, of the first two, ... *)
Definition running_sums (ps : list (Z * Z)) : list point :=
  map (fun n => delta_sum (firstn (S n) ps)) (seq 0 (length ps)).

(** Both deltas of a pair are zero. *)
Definition zero_delta (p : Z * Z) : bool :=
  (decode_zigzag32 (fst p) =? 0) && (decode_zigzag32 (snd p) =? 0).

(** A point stream: one MoveTo command with count [n >= 1] and exactly [n]
    parameter pairs. *)
Definition is_point_stream (s : list Z) (n : Z) (ps : list (Z * Z)) : Prop :=
  exists c, s = c :: flatten ps /\ get_command_id c = 1 /\
            get_command_count c = n /\ 1 <= n /\ Z.of_nat (length ps) = n.

(** A linestring or a polygon ring in a stream: the parameter pair of its
    MoveTo command and the pairs of its LineTo command. *)
Record path : Type := mk_path {
  path_start : Z * Z;
  path_line : list (Z * Z)
}.

Definition line_count (r : path) : Z := Z.of_nat (length (path_line r)).

(** [MoveTo(1) start LineTo(n) line] *)
Definition linestring_commands (r : path) : list Z :=
  command_move_to 1 :: fst (path_start r) :: snd (path_start r) ::
  command_line_to (line_count r) :: flatten (path_line r).

(** [MoveTo(1) start LineTo(n) line ClosePath(1)] *)
Definition ring_commands (r : path) : list Z :=
  linestring_commands r ++ [command_close_path 1].

Definition linestring_stream (rs : list path) : list Z :=
  flat_map linestring_commands rs.

Definition polygon_stream (rs : list path) : list Z :=
  flat_map ring_commands rs.

(** The points of a path decoded from the cursor [c]: its start point and
    the points of its line. *)
Definition path_first (c : point) (r : path) : point :=
  move c (path_start r).

Definition path_points (c : point) (r : path) : list point :=
  cursors (path_first c r) (path_line r).

(** The cursor after the path. *)
Definition path_cursor (c : point) (r : path) : point :=
  last (path_points c r) (path_first c r).

(** The shoelace sum over the consecutive segments of [ps]. *)
Fixpoint shoelace (ps : list point) : Z :=
  match ps with
  | a :: (b :: _) as tl => det a b + shoelace tl
  | _ => 0
  end.

(** The cross product of two points, in the integers:
    [a.x * b.y - b.x * a.y]. *)
Definition cross (a b : point) : Z := x a * y b - x b * y a.

(** The shoelace sum as the format describes it, in the integers: the sum
    of the cross products of the consecutive points of [ps]. *)
Fixpoint shoelace_sum (ps : list point) : Z :=
  match ps with
  | a :: (b :: _) as tl => cross a b + shoelace_sum tl
  | _ => 0
  end.

(** A point whose coordinates are 32-bit signed integers. *)
Definition is_int32_point (p : point) : Prop :=
  is_int32 (x p) /\ is_int32 (y p).

(** The closed ring of a path: start point, line points, start point. *)
Definition closed_ring (c : point) (r : path) : list point :=
  path_first c r :: path_points c r ++ [path_first c r].

(** The 64-bit signed shoelace sum of the closed ring. *)
Definition ring_sum (c : point) (r : path) : Z :=
  int64 (shoelace (closed_ring c r)).

Definition ring_events (c : point) (r : path) : list event :=
  ev_ring_begin (line_count r + 2) ::
  map ev_ring_point (closed_ring c r) ++
  [ev_ring_end (0 <? ring_sum c r)].

Definition a_linestring_events (c : point) (r : path) : list event :=
  ev_linestring_begin (line_count r + 1) ::
  map ev_linestring_point (path_first c r :: path_points c r) ++
  [ev_linestring_end].

(** The events of consecutive paths: the cursor runs on from one path to
    the next. *)
Fixpoint paths_events (one : point -> path -> list event) (c : point)
  (rs : list path) : list event :=
  match rs with
  | [] => []
  | r :: rs' => one c r ++ paths_events one (path_cursor c r) rs'
  end.

(** The cursor after consecutive paths. *)
Fixpoint paths_cursor (c : point) (rs : list path) : point :=
  match rs with
  | [] => c
  | r :: rs' => paths_cursor (path_cursor c r) rs'
  end.

Definition polygon_events : list path -> list event :=
  paths_events ring_events (mk_point 0 0).

Definition linestring_events : list path -> list event :=
  paths_events a_linestring_events (mk_point 0 0).

(** What strict mode asks of a path beyond the format: no LineTo pair with
    both deltas zero, and for a ring a LineTo count above 1. *)
Definition no_zero_delta (r : path) : bool :=
  forallb (fun p => negb (zero_delta p)) (path_line r).

Definition ring_strict_ok (r : path) : bool :=
  (1 <? line_count r) && no_zero_delta r.

(** Strict mode checks the pairs that the decoder [d] reads next: they
    are those of a LineTo command. *)
Definition checks_zero_delta (d : decoder) : bool :=
  m_strict d && (m_command_id d =? command_line_to 0).

(** The count of a command integer has 29 bits. *)
Definition count_fits (r : path) : Prop := line_count r < 2 ^ 29.

(** An outcome of a decode function: it returns or it throws a geometry
    exception. *)
Definition geometry_outcome {A} (o : outcome A) : Prop :=
  match o with
  | Ok _ => True
  | Throw (geometry_exception _) => True
  | _ => False
  end.

(** A linestring that [decode_linestring_geometry] accepts and a ring that
    [decode_polygon_geometry] accepts in the mode [strict], and the streams
    made of them. *)
Definition linestring_ok (strict : bool) (r : path) : Prop :=
  count_fits r /\ 1 <= line_count r /\
  (strict = true -> no_zero_delta r = true).

Definition ring_ok (strict : bool) (r : path) : Prop :=
  count_fits r /\ (strict = true -> ring_strict_ok r = true).

Definition is_linestring_stream (strict : bool) (s : list Z)
  (rs : list path) : Prop :=
  s = linestring_stream rs /\ Forall (linestring_ok strict) rs.

Definition is_polygon_stream (strict : bool) (s : list Z)
  (rs : list path) : Prop :=
  s = polygon_stream rs /\ Forall (ring_ok strict) rs.

(** *** Sample paths *)

(** A ring from (0, 0) by (0, 10), (10, 0) and (0, -10), its deltas
    zigzag-encoded. *)
Definition square : path := mk_path (0, 0) [(0, 20); (20, 0); (0, 19)].

(** A ring from (0, 0) by (10, 0), (0, 10) and (-10, 0): the square gone
    round the other way. *)
Definition outer_square : path := mk_path (0, 0) [(20, 0); (0, 20); (19, 0)].

(** A ring with a LineTo command of count 0. *)
Definition bare_ring : path := mk_path (0, 0) [].

(** A path whose second LineTo pair has both deltas zero. *)
Definition stalling : path := mk_path (6, 12) [(10, 12); (0, 0)].


End Geometry.

(** * The record codec

    protozero, the reader of protobuf-encoded records, is an external
    library and not part of the sources: [layer.hpp] uses its [data_view]
    and its [pbf_message] (a [pbf_reader] with typed tags).  The
    definitions of this module are modelled from the spec, "a cursor over a
    byte slice that yields [(field_number, wire_type)] headers and allows
    reading the matching payload (varint, zigzag, fixed32, fixed64,
    length-delimited sub-slice) or skipping it", with the "standard
    length-prefixed TLV conventions" of protobuf: a record is a varint
    header, [tag << 3 | wire_type], followed by its payload. *)

Module Protozero.

(** Modelled from the spec: [data_view] is not part of the sources; "a
    [(pointer, length)] pair referencing externally owned bytes".
    [null_view] is the default-constructed view, whose pointer is null;
    [view b] points into a buffer, at the bytes [b] (which may be none). *)
Inductive data_view : Type :=
  | null_view
  | view (bytes : list byte).

(** [v.data() == nullptr] *)
Definition data_is_null (v : data_view) : bool :=
  match v with null_view => true | view _ => false end.

Definition data_bytes (v : data_view) : list byte :=
  match v with null_view => [] | view b => b end.

Definition size (v : data_view) : Z := Z.of_nat (length (data_bytes v)).

(** Modelled from the spec: [pbf_wire_type], the wire types of the record
    headers. *)
Definition varint : Z := 0.
Definition fixed64 : Z := 1.
Definition length_delimited : Z := 2.
Definition fixed32 : Z := 5.
Definition unknown : Z := 99.

(** Modelled from the spec: [tag_and_type(tag, wire_type)], the header of
    a record as one number. *)
Definition tag_and_type (tag wire_type : Z) : Z :=
  Z.lor (uint32 (Z.shiftl tag 3)) wire_type.

(** Modelled from the spec: [pbf_reader], the cursor; [m_data] is the input
    not yet read, [m_tag] and [m_wire_type] the header last read. *)
Record pbf_reader : Type := mk_pbf_reader {
  m_data : list byte;
  m_wire_type : Z;
  m_tag : Z
}.

(** Modelled from the spec: [pbf_message<T>{view}], a cursor at the start
    of the bytes of a view. *)
Definition pbf_message (v : data_view) : pbf_reader :=
  mk_pbf_reader (data_bytes v) unknown 0.

(** The value of a byte, 0 to 255. *)
Definition byte_value (b : byte) : Z := Z.of_N (Byte.to_N b).

(** Modelled from the spec: [decode_varint], the varint accessor; seven
    bits a byte, lowest first, until a byte below 128; at most ten bytes. *)
Fixpoint decode_varint_loop (n : nat) (shift val : Z) (p : list byte)
  : outcome (Z * list byte) :=
  match n with
  | O => Throw (protozero_exception varint_too_long_exception)
  | S n' =>
      match p with
      | [] => Throw (protozero_exception end_of_buffer_exception)
      | b :: p' =>
          let val' :=
            Z.lor val (Z.shiftl (Z.land (byte_value b) 127) shift) in
          if byte_value b <? 128 then Ok (uint64 val', p')
          else decode_varint_loop n' (shift + 7) val' p'
      end
  end.

Definition decode_varint (p : list byte) : outcome (Z * list byte) :=
  decode_varint_loop 10 0 0 p.

(** Modelled from the spec: [get_varint<uint64_t>]; the reader does not
    move when it throws. *)
Definition get_varint64 : M pbf_reader Z :=
  fun r =>
    match decode_varint (m_data r) with
    | Ok (v, rest) => (mk_pbf_reader rest (m_wire_type r) (m_tag r), Ok v)
    | Throw e => (r, Throw e)
    | AssertFail => (r, AssertFail)
    | OutOfFuel => (r, OutOfFuel)
    end.

(** Modelled from the spec: [get_varint<uint32_t>]. *)
Definition get_varint32 : M pbf_reader Z :=
  v <~ get_varint64 ;; ret (uint32 v).

(** Modelled from the spec: [skip_bytes(len)], which here also gives the
    bytes skipped. *)
Definition skip_bytes (len : Z) : M pbf_reader (list byte) :=
  fun r =>
    if Z.of_nat (length (m_data r)) <? len then
      (r, Throw (protozero_exception end_of_buffer_exception))
    else
      (mk_pbf_reader (skipn (Z.to_nat len) (m_data r)) (m_wire_type r)
         (m_tag r),
       Ok (firstn (Z.to_nat len) (m_data r))).

(** Modelled from the spec: the field numbers protobuf allows (an
    assertion of [next]). *)
Definition tag_in_range (tag : Z) : bool :=
  ((0 <? tag) && (tag <? 19000)) ||
  ((19999 <? tag) && (tag <=? 2 ^ 29 - 1)).

(** Modelled from the spec: the wire types a header may have. *)
Definition known_wire_type (w : Z) : bool :=
  (w =? varint) || (w =? fixed64) || (w =? length_delimited) ||
  (w =? fixed32).

(** Modelled from the spec: [next()] reads the header of the next record,
    if there is one. *)
Definition next : M pbf_reader bool :=
  fun r =>
    match m_data r with
    | [] => (r, Ok false)
    | _ =>
        (value <~ get_varint32 ;;
         call (fun r => mk_pbf_reader (m_data r) (Z.land value 7)
                          (Z.shiftr value 3)) ;;;
         massert (tag_in_range (Z.shiftr value 3))
           (if known_wire_type (Z.land value 7) then ret true
            else throw (protozero_exception
                          unknown_pbf_wire_type_exception))) r
    end.

(** Modelled from the spec: [get_uint32()] and [get_uint64()], the payload
    of a varint record. *)
Definition get_uint32 : M pbf_reader Z :=
  fun r =>
    massert (negb (m_tag r =? 0))
      (massert (m_wire_type r =? varint) get_varint32) r.

(** Modelled from the spec: [get_uint64()], as said above. *)
Definition get_uint64 : M pbf_reader Z :=
  fun r =>
    massert (negb (m_tag r =? 0))
      (massert (m_wire_type r =? varint) get_varint64) r.

(** Modelled from the spec: [get_view()], the payload of a
    length-delimited record as a view into the buffer, a "length-delimited
    sub-slice". *)
Definition get_view : M pbf_reader data_view :=
  fun r =>
    massert (negb (m_tag r =? 0))
      (massert (m_wire_type r =? length_delimited)
         (len <~ get_varint32 ;;
          b <~ skip_bytes len ;;
          ret (view b))) r.

(** Modelled from the spec: [skip()] moves over the payload of the record;
    a varint payload ends where [decode_varint] ends, and fails where it
    fails. *)
Definition skip : M pbf_reader unit :=
  fun r =>
    massert (negb (m_tag r =? 0))
      (if m_wire_type r =? varint then
         get_varint64 ;;; ret tt
       else if m_wire_type r =? fixed64 then
         skip_bytes 8 ;;; ret tt
       else if m_wire_type r =? length_delimited then
         len <~ get_varint32 ;; skip_bytes len ;;; ret tt
       else if m_wire_type r =? fixed32 then
         skip_bytes 4 ;;; ret tt
       else ret tt) r.

(** Modelled from the spec: [next(tag, type)] moves to the next record
    with this tag and wire type, skipping the others. *)
Fixpoint next_tag_loop (fuel : nat) (next_tag type : Z)
  : M pbf_reader bool :=
  match fuel with
  | O => lift OutOfFuel
  | S fuel' =>
      has_next <~ next ;;
      if negb has_next then ret false
      else
        fun r =>
          if (m_tag r =? next_tag) && (m_wire_type r =? type)
          then (r, Ok true)
          else (skip ;;; next_tag_loop fuel' next_tag type) r
  end.

(** Modelled from the spec: [next(tag, type)] with the fuel of its loop,
    one turn for each byte of the input and one more. *)
Definition next_tag (tag type : Z) : M pbf_reader bool :=
  fun r => next_tag_loop (S (length (m_data r))) tag type r.

(** Modelled from the spec: [reader.tag_and_type()]. *)
Definition reader_tag_and_type (r : pbf_reader) : Z :=
  tag_and_type (m_tag r) (m_wire_type r).

(** *** The records of a buffer

    What a reader yields on a buffer from its start to its end: the
    records, each with its tag and its payload. *)
Inductive payload : Type :=
  | pl_varint (v : Z)
  | pl_fixed64 (b : list byte)
  | pl_bytes (b : list byte)
  | pl_fixed32 (b : list byte).

Record field : Type := mk_field {
  field_tag : Z;
  field_payload : payload
}.

Definition field_wire_type (f : field) : Z :=
  match field_payload f with
  | pl_varint _ => varint
  | pl_fixed64 _ => fixed64
  | pl_bytes _ => length_delimited
  | pl_fixed32 _ => fixed32
  end.

(** The payload of the record whose header has just been read. *)
Definition read_payload : M pbf_reader payload :=
  fun r =>
    massert (negb (m_tag r =? 0))
      (if m_wire_type r =? varint then
         v <~ get_varint64 ;; ret (pl_varint v)
       else if m_wire_type r =? fixed64 then
         b <~ skip_bytes 8 ;; ret (pl_fixed64 b)
       else if m_wire_type r =? length_delimited then
         len <~ get_varint32 ;; b <~ skip_bytes len ;; ret (pl_bytes b)
       else if m_wire_type r =? fixed32 then
         b <~ skip_bytes 4 ;; ret (pl_fixed32 b)
       else lift AssertFail) r.

Fixpoint records_loop (fuel : nat) : M pbf_reader (list field) :=
  match fuel with
  | O => lift OutOfFuel
  | S fuel' =>
      has_next <~ next ;;
      if negb has_next then ret []
      else
        tag <~ gets m_tag ;;
        p <~ read_payload ;;
        fs <~ records_loop fuel' ;;
        ret (mk_field tag p :: fs)
  end.

Definition pbf_records (data : list byte) : outcome (list field) :=
  snd (records_loop (S (length data)) (pbf_message (view data))).

(** The same as a relation on readers: from [r] on, the buffer holds the
    records [fs] and nothing else. *)
Inductive reads : pbf_reader -> list field -> Prop :=
  | reads_end (r : pbf_reader) :
      m_data r = [] -> reads r []
  | reads_field (r r1 r2 : pbf_reader) (p : payload) (fs : list field) :
      next r = (r1, Ok true) ->
      read_payload r1 = (r2, Ok p) ->
      reads r2 fs ->
      reads r (mk_field (m_tag r1) p :: fs).

(** The record [f] has this tag and this wire type. *)
Definition field_is (tag type : Z) (f : field) : bool :=
  (field_tag f =? tag) && (field_wire_type f =? type).

(** The payload of a length-delimited record with this tag. *)
Definition field_bytes (tag : Z) (f : field) : option (list byte) :=
  match field_payload f with
  | pl_bytes b => if field_tag f =? tag then Some b else None
  | _ => None
  end.

(** The payload of a varint record with this tag. *)
Definition field_varint (tag : Z) (f : field) : option Z :=
  match field_payload f with
  | pl_varint v => if field_tag f =? tag then Some v else None
  | _ => None
  end.

End Protozero.

(** * [layer.hpp] *)

Module Layer.

Import Protozero.

(** Modelled from the spec: [detail::pbf_layer] and [detail::pbf_feature]
    ([types.hpp]) are not part of the sources; the field numbers are those
    of the wire format: layer fields [version] (15, varint), [name] (1),
    [features] (2), [keys] (3), [values] (4), [extent] (5, varint); feature
    fields [id] (1, varint), [tags] (2), [type] (3), [geometry] (4). *)
Module pbf_layer.
Definition name : Z := 1.
Definition features : Z := 2.
Definition keys : Z := 3.
Definition values : Z := 4.
Definition extent : Z := 5.
Definition version : Z := 15.
End pbf_layer.

Module pbf_feature.
Definition id : Z := 1.
Definition tags : Z := 2.
Definition type : Z := 3.
Definition geometry : Z := 4.
End pbf_feature.

(** Modelled from the spec: [property_value_view]
    ([property_value_view.hpp]) is not part of the sources; "a typed view
    over a single scalar value record", made from the view of the
    record. *)
Record property_value_view : Type := mk_property_value_view {
  value_data : data_view
}.

(** The class [layer].  The two counters are [std::size_t]: they count
    records of a buffer in memory and are not bounded here.  [passes] is not
    a member of the class: it counts the runs of [initialize_tables], each
    of which is one pass over the data of the layer. *)
Record layer : Type := mk_layer {
  m_data : data_view;
  m_version : Z;
  m_extent : Z;
  m_num_features : Z;
  m_name : data_view;
  m_layer_reader : pbf_reader;
  m_key_table : list data_view;
  m_value_table : list property_value_view;
  m_key_table_size : Z;
  m_value_table_size : Z;
  passes : nat
}.

(** Assignments to the members. *)
Definition set_m_version (v : Z) (l : layer) : layer :=
  mk_layer (m_data l) v (m_extent l) (m_num_features l) (m_name l)
    (m_layer_reader l) (m_key_table l) (m_value_table l)
    (m_key_table_size l) (m_value_table_size l) (passes l).

Definition set_m_extent (v : Z) (l : layer) : layer :=
  mk_layer (m_data l) (m_version l) v (m_num_features l) (m_name l)
    (m_layer_reader l) (m_key_table l) (m_value_table l)
    (m_key_table_size l) (m_value_table_size l) (passes l).

Definition set_m_num_features (v : Z) (l : layer) : layer :=
  mk_layer (m_data l) (m_version l) (m_extent l) v (m_name l)
    (m_layer_reader l) (m_key_table l) (m_value_table l)
    (m_key_table_size l) (m_value_table_size l) (passes l).

Definition set_m_name (v : data_view) (l : layer) : layer :=
  mk_layer (m_data l) (m_version l) (m_extent l) (m_num_features l) v
    (m_layer_reader l) (m_key_table l) (m_value_table l)
    (m_key_table_size l) (m_value_table_size l) (passes l).

Definition set_m_layer_reader (v : pbf_reader) (l : layer) : layer :=
  mk_layer (m_data l) (m_version l) (m_extent l) (m_num_features l)
    (m_name l) v (m_key_table l) (m_value_table l)
    (m_key_table_size l) (m_value_table_size l) (passes l).

Definition set_m_key_table (v : list data_view) (l : layer) : layer :=
  mk_layer (m_data l) (m_version l) (m_extent l) (m_num_features l)
    (m_name l) (m_layer_reader l) v (m_value_table l)
    (m_key_table_size l) (m_value_table_size l) (passes l).

Definition set_m_value_table (v : list property_value_view) (l : layer)
  : layer :=
  mk_layer (m_data l) (m_version l) (m_extent l) (m_num_features l)
    (m_name l) (m_layer_reader l) (m_key_table l) v
    (m_key_table_size l) (m_value_table_size l) (passes l).

Definition set_m_key_table_size (v : Z) (l : layer) : layer :=
  mk_layer (m_data l) (m_version l) (m_extent l) (m_num_features l)
    (m_name l) (m_layer_reader l) (m_key_table l) (m_value_table l)
    v (m_value_table_size l) (passes l).

Definition set_m_value_table_size (v : Z) (l : layer) : layer :=
  mk_layer (m_data l) (m_version l) (m_extent l) (m_num_features l)
    (m_name l) (m_layer_reader l) (m_key_table l) (m_value_table l)
    (m_key_table_size l) v (passes l).

Definition count_pass (l : layer) : layer :=
  mk_layer (m_data l) (m_version l) (m_extent l) (m_num_features l)
    (m_name l) (m_layer_reader l) (m_key_table l) (m_value_table l)
    (m_key_table_size l) (m_value_table_size l) (S (passes l)).

(** The members of a layer as their initialisers leave them, on [data]. *)
Definition layer_members (data : data_view) : layer :=
  mk_layer data 1 4096 0 null_view (pbf_message data) [] [] 0 0 O.

(** [layer() = default]: the invalid layer. *)
Definition invalid_layer : layer := layer_members null_view.

(** An operation of a reader that is a local variable, with the reader
    after it; the layer is not touched. *)
Definition with_reader {A} (m : M pbf_reader A) (reader : pbf_reader)
  : M layer (A * pbf_reader) :=
  fun l =>
    match m reader with
    | (reader', Ok a) => (l, Ok (a, reader'))
    | (_, Throw e) => (l, Throw e)
    | (_, AssertFail) => (l, AssertFail)
    | (_, OutOfFuel) => (l, OutOfFuel)
    end.

(** An operation of the member [m_layer_reader]. *)
Definition with_layer_reader {A} (m : M pbf_reader A) : M layer A :=
  fun l =>
    let (reader', o) := m (m_layer_reader l) in
    (set_m_layer_reader reader' l, o).

(** The loop of [initialize_tables]. *)
Fixpoint initialize_tables_loop (fuel : nat) (reader : pbf_reader)
  : M layer unit :=
  match fuel with
  | O => lift OutOfFuel
  | S fuel' =>
      '(has_next, reader) <~ with_reader next reader ;;
      if negb has_next then ret tt
      else if reader_tag_and_type reader =?
              tag_and_type pbf_layer.keys length_delimited then
        '(v, reader) <~ with_reader get_view reader ;;
        call (fun l => set_m_key_table (m_key_table l ++ [v]) l) ;;;
        initialize_tables_loop fuel' reader
      else if reader_tag_and_type reader =?
              tag_and_type pbf_layer.values length_delimited then
        '(v, reader) <~ with_reader get_view reader ;;
        call (fun l => set_m_value_table
                         (m_value_table l ++ [mk_property_value_view v])
                         l) ;;;
        initialize_tables_loop fuel' reader
      else
        '(_, reader) <~ with_reader skip reader ;;
        initialize_tables_loop fuel' reader
  end.

(** [initialize_tables]; [reserve] changes no contents. *)
Definition initialize_tables : M layer unit :=
  call count_pass ;;;
  call (set_m_key_table_size 0) ;;;
  call (set_m_value_table_size 0) ;;;
  data <~ gets m_data ;;
  initialize_tables_loop (S (length (data_bytes data))) (pbf_message data).

(** The loop of the constructor [layer(data)], on the layer under
    construction. *)
Fixpoint layer_loop (fuel : nat) (reader : pbf_reader) : M layer unit :=
  match fuel with
  | O => lift OutOfFuel
  | S fuel' =>
      '(has_next, reader) <~ with_reader next reader ;;
      if negb has_next then ret tt
      else if reader_tag_and_type reader =?
              tag_and_type pbf_layer.version varint then
        '(v, reader) <~ with_reader get_uint32 reader ;;
        call (set_m_version v) ;;;
        layer_loop fuel' reader
      else if reader_tag_and_type reader =?
              tag_and_type pbf_layer.name length_delimited then
        '(v, reader) <~ with_reader get_view reader ;;
        call (set_m_name v) ;;;
        layer_loop fuel' reader
      else if reader_tag_and_type reader =?
              tag_and_type pbf_layer.features length_delimited then
        '(_, reader) <~ with_reader skip reader ;;
        call (fun l => set_m_num_features (m_num_features l + 1) l) ;;;
        layer_loop fuel' reader
      else if reader_tag_and_type reader =?
              tag_and_type pbf_layer.keys length_delimited then
        '(_, reader) <~ with_reader skip reader ;;
        call (fun l => set_m_key_table_size (m_key_table_size l + 1) l) ;;;
        layer_loop fuel' reader
      else if reader_tag_and_type reader =?
              tag_and_type pbf_layer.values length_delimited then
        '(_, reader) <~ with_reader skip reader ;;
        call (fun l => set_m_value_table_size
                         (m_value_table_size l + 1) l) ;;;
        layer_loop fuel' reader
      else if reader_tag_and_type reader =?
              tag_and_type pbf_layer.extent varint then
        '(v, reader) <~ with_reader get_uint32 reader ;;
        call (set_m_extent v) ;;;
        layer_loop fuel' reader
      else
        throw (format_exception
                 ("unknown field in layer (tag=" ++
                  to_string (uint32 (m_tag reader)) ++ ", type=" ++
                  to_string (uint32 (m_wire_type reader)) ++ ")"))
  end.

Definition layer_body (data : data_view) : M layer unit :=
  layer_loop (S (length (data_bytes data))) (pbf_message data) ;;;
  version <~ gets m_version ;;
  if (version <? 1) || (2 <? version) then
    throw (version_exception version)
  else
    name <~ gets m_name ;;
    if data_is_null name then
      throw (format_exception "missing name field in layer (spec 4.1)")
    else ret tt.

(** [explicit layer(const data_view data)]: the layer, or the exception of
    the constructor. *)
Definition make_layer (data : data_view) : outcome layer :=
  match layer_body data (layer_members data) with
  | (l, Ok _) => Ok l
  | (_, Throw e) => Throw e
  | (_, AssertFail) => AssertFail
  | (_, OutOfFuel) => OutOfFuel
  end.

Definition valid (l : layer) : bool := negb (data_is_null (m_data l)).

Definition data : M layer data_view := gets m_data.

Definition name : M layer data_view :=
  fun l => massert (valid l) (gets m_name) l.

Definition version : M layer Z :=
  fun l => massert (valid l) (gets m_version) l.

Definition extent : M layer Z :=
  fun l => massert (valid l) (gets m_extent) l.

Definition key_table : M layer (list data_view) :=
  fun l =>
    massert (valid l)
      ((fun l => if 0 <? m_key_table_size l then initialize_tables l
                 else ret tt l) ;;;
       gets m_key_table) l.

Definition value_table : M layer (list property_value_view) :=
  fun l =>
    massert (valid l)
      ((fun l => if 0 <? m_value_table_size l then initialize_tables l
                 else ret tt l) ;;;
       gets m_value_table) l.

(** [std::vector::at] *)
Definition at_index {A S} (v : list A) (i : Z) : M S A :=
  match nth_error v (Z.to_nat i) with
  | Some a => ret a
  | None => throw out_of_range
  end.

Definition key (index : Z) : M layer data_view :=
  fun l => massert (valid l) (t <~ key_table ;; at_index t index) l.

Definition value (index : Z) : M layer property_value_view :=
  fun l => massert (valid l) (t <~ value_table ;; at_index t index) l.

Definition empty (l : layer) : bool := m_num_features l =? 0.

Definition size (l : layer) : Z := m_num_features l.

(** Modelled from the spec: the class [feature] ([feature.hpp]) is not
    part of the sources.  "Constructed from a (layer_ref, feature_bytes)
    pair.  Lazy: parses only on access."  The layer is referred to by its
    data ([None] is the null pointer); the default feature is the invalid
    one. *)
Record feature : Type := mk_feature {
  feature_layer : option data_view;
  feature_data : data_view
}.

Definition invalid_feature : feature := mk_feature None null_view.

Definition feature_valid (f : feature) : bool :=
  negb (data_is_null (feature_data f)).

(** [feature{this, data}] *)
Definition make_feature (data : data_view) : M layer feature :=
  this <~ gets m_data ;; ret (mk_feature (Some this) data).

Definition next_feature : M layer feature :=
  fun l =>
    massert (valid l)
      (has_next <~ with_layer_reader
                     (next_tag pbf_layer.features length_delimited) ;;
       if has_next then
         v <~ with_layer_reader get_view ;; make_feature v
       else ret invalid_feature) l.

Definition reset_feature : M layer unit :=
  fun l =>
    massert (valid l)
      (call (fun l => set_m_layer_reader (pbf_message (m_data l)) l)) l.

(** The loop of [get_feature_by_id]; [layer_reader] and [feature_reader]
    are local variables. *)
Fixpoint get_feature_by_id_loop (fuel : nat) (id : Z)
  (layer_reader : pbf_reader) : M layer feature :=
  match fuel with
  | O => lift OutOfFuel
  | S fuel' =>
      '(has_next, layer_reader) <~
         with_reader (next_tag pbf_layer.features length_delimited)
           layer_reader ;;
      if negb has_next then ret invalid_feature
      else
        '(feature_data, layer_reader) <~ with_reader get_view layer_reader ;;
        let feature_reader := pbf_message feature_data in
        '(has_id, feature_reader) <~
           with_reader (next_tag pbf_feature.id varint) feature_reader ;;
        if has_id then
          '(v, feature_reader) <~ with_reader get_uint64 feature_reader ;;
          if v =? id then make_feature feature_data
          else get_feature_by_id_loop fuel' id layer_reader
        else get_feature_by_id_loop fuel' id layer_reader
  end.

Definition get_feature_by_id (id : Z) : M layer feature :=
  fun l =>
    massert (valid l)
      (data <~ gets m_data ;;
       get_feature_by_id_loop (S (length (data_bytes data))) id
         (pbf_message data)) l.

(** [properties_iterator::operator*]: the key and the value at the two
    index values the iterator stands at, [*m_it] and [*std::next(m_it)];
    the key is looked up first.  Modelled from the spec: [property_view]
    is not part of the sources; it is given as the pair of the key, a byte
    string, and the "typed view over a single scalar value record". *)
Definition properties_iterator_deref (key_index value_index : Z)
  : M layer (data_view * property_value_view) :=
  k <~ key key_index ;; v <~ value value_index ;; ret (k, v).

(** Modelled from the spec: [feature::id()] is not part of the sources;
    "[id() -> uint64] (0 if absent)".  The value is that of the feature's
    id record; of the last one, should there be several. *)
Definition feature_id (f : feature) : outcome Z :=
  fs <- pbf_records (data_bytes (feature_data f)) ;;
  Ok (fold_left
        (fun acc f =>
           match field_varint pbf_feature.id f with
           | Some v => v
           | None => acc
           end) fs 0).

(** ** The records of a layer and of a feature

    What the layer functions are compared with: the contents of a layer
    read off the list of its records. *)

(** The records the constructor accepts. *)
Definition known_layer_field (f : field) : bool :=
  field_is pbf_layer.version varint f ||
  field_is pbf_layer.name length_delimited f ||
  field_is pbf_layer.features length_delimited f ||
  field_is pbf_layer.keys length_delimited f ||
  field_is pbf_layer.values length_delimited f ||
  field_is pbf_layer.extent varint f.

(** The message of the format exception for a record the constructor does
    not know: its tag and its wire type, as unsigned integers. *)
Definition unknown_field_message (f : field) : string :=
  "unknown field in layer (tag=" ++ to_string (uint32 (field_tag f)) ++
  ", type=" ++ to_string (uint32 (field_wire_type f)) ++ ")".

(** The version the records declare: that of the last version record, as
    an [uint32_t]; 1 when there is none. *)
Definition declared_version (fs : list field) : Z :=
  fold_left
    (fun acc f =>
       match field_varint pbf_layer.version f with
       | Some v => uint32 v
       | None => acc
       end) fs 1.

Definition declared_extent (fs : list field) : Z :=
  fold_left
    (fun acc f =>
       match field_varint pbf_layer.extent f with
       | Some v => uint32 v
       | None => acc
       end) fs 4096.

(** There is a name record. *)
Definition has_name (fs : list field) : bool :=
  existsb (field_is pbf_layer.name length_delimited) fs.

(** The name the records give: that of the last name record. *)
Definition declared_name (fs : list field) : data_view :=
  fold_left
    (fun acc f =>
       match field_bytes pbf_layer.name f with
       | Some b => view b
       | None => acc
       end) fs null_view.

(** The payloads of the records with this tag, in order of appearance. *)
Definition payloads (tag : Z) (fs : list field) : list (list byte) :=
  flat_map
    (fun f => match field_bytes tag f with Some b => [b] | None => [] end)
    fs.

Definition keys_of (fs : list field) : list data_view :=
  map view (payloads pbf_layer.keys fs).

Definition values_of (fs : list field) : list property_value_view :=
  map (fun b => mk_property_value_view (view b))
    (payloads pbf_layer.values fs).

Definition features_of (fs : list field) : list (list byte) :=
  payloads pbf_layer.features fs.

(** The id record of a feature, if it has one: the first. *)
Definition explicit_id (fs : list field) : option Z :=
  match filter (field_is pbf_feature.id varint) fs with
  | f :: _ => field_varint pbf_feature.id f
  | [] => None
  end.

(** The index of the first feature whose id record has the value [id],
    among features given by their records. *)
Fixpoint lookup_id (id : Z) (frs : list (list field)) : option nat :=
  match frs with
  | [] => None
  | ffs :: frs' =>
      match explicit_id ffs with
      | Some v =>
          if v =? id then Some O else option_map S (lookup_id id frs')
      | None => option_map S (lookup_id id frs')
      end
  end.

(** The feature of the layer [l] at an index found among the features
    [feats] (given by their bytes), or the invalid feature. *)
Definition found_feature (l : layer) (feats : list (list byte))
  (found : option nat) : feature :=
  match found with
  | Some j => mk_feature (Some (m_data l)) (view (nth j feats []))
  | None => invalid_feature
  end.

(** The features are well encoded: [frs] are their records. *)
Definition features_records (feats : list (list byte))
  (frs : list (list field)) : Prop :=
  Forall2 (fun b ffs => pbf_records b = Ok ffs) feats frs.

(** What the constructor does with one record it accepts, and with a list
    of them. *)
Definition layer_field (l : layer) (f : field) : layer :=
  match field_payload f with
  | pl_varint v =>
      if field_tag f =? pbf_layer.version then set_m_version (uint32 v) l
      else if field_tag f =? pbf_layer.extent then set_m_extent (uint32 v) l
      else l
  | pl_bytes b =>
      if field_tag f =? pbf_layer.name then set_m_name (view b) l
      else if field_tag f =? pbf_layer.features then
        set_m_num_features (m_num_features l + 1) l
      else if field_tag f =? pbf_layer.keys then
        set_m_key_table_size (m_key_table_size l + 1) l
      else if field_tag f =? pbf_layer.values then
        set_m_value_table_size (m_value_table_size l + 1) l
      else l
  | _ => l
  end.

Definition layer_fields (fs : list field) (l : layer) : layer :=
  fold_left layer_field fs l.

(** The layer the constructor builds from records it accepts, before its
    two checks. *)
Definition built (data : list byte) (fs : list field) : layer :=
  layer_fields fs (layer_members (view data)).

(** The layer [l] with its tables filled from the records [fs], after its
    first pass. *)
Definition materialized (fs : list field) (l : layer) : layer :=
  mk_layer (m_data l) (m_version l) (m_extent l) (m_num_features l)
    (m_name l) (m_layer_reader l) (keys_of fs) (values_of fs) 0 0 1%nat.

(** A computation that leaves the layer as it was, whatever its outcome. *)
Definition read_only {A} (m : M layer A) : Prop :=
  forall l, fst (m l) = l.

(** *** Sample layers, as bytes *)

(** A name record with no bytes. *)
Definition empty_name_layer : list byte := [x0a; x00].

(** Version 3 and the name "a". *)
Definition version_3_layer : list byte := [x78; x03; x0a; x01; x61].

(** The name "a" and the key "k"; no value. *)
Definition key_only_layer : list byte := [x0a; x01; x61; x1a; x01; x6b].

(** A feature without an id record: type 1 and a geometry. *)
Definition feature_without_id : list byte :=
  [x18; x01; x22; x03; x09; x32; x22].

(** The name "a" and that feature. *)
Definition layer_without_ids : list byte :=
  [x0a; x01; x61; x12; x07] ++ feature_without_id.

(** Version 3 and a varint record with the tag 6; no name. *)
Definition unknown_field_layer : list byte := [x78; x03; x30; x01].

(** A feature that is its id record, with the id 7. *)
Definition feature_with_id_7 : list byte := [x08; x07].

(** The name "a", these two features, the extent 512, the key "k" and a
    value, the string "v"; and the records of these bytes. *)
Definition sample_layer : list byte :=
  [x0a; x01; x61; x12; x02] ++ feature_with_id_7 ++ [x12; x07] ++
  feature_without_id ++
  [x28; x80; x04; x1a; x01; x6b; x22; x03; x0a; x01; x76].

Definition sample_layer_fields : list field :=
  [mk_field pbf_layer.name (pl_bytes [x61]);
   mk_field pbf_layer.features (pl_bytes feature_with_id_7);
   mk_field pbf_layer.features (pl_bytes feature_without_id);
   mk_field pbf_layer.extent (pl_varint 512);
   mk_field pbf_layer.keys (pl_bytes [x6b]);
   mk_field pbf_layer.values (pl_bytes [x0a; x01; x76])].

(** The calls of the two table accessors. *)
Inductive accessor : Type := call_key_table | call_value_table.

(** The layer after a call of an accessor, and after a sequence of calls. *)
Definition after_accessor (l : layer) (a : accessor) : layer :=
  match a with
  | call_key_table => fst (key_table l)
  | call_value_table => fst (value_table l)
  end.

Definition after_accessors (calls : list accessor) (l : layer) : layer :=
  fold_left after_accessor calls l.

(** The outcomes of [n] successive calls of [next_feature]. *)
Fixpoint next_features (n : nat) (l : layer) : list (outcome feature) :=
  match n with
  | O => []
  | S n' =>
      let (l', o) := next_feature l in o :: next_features n' l'
  end.

(** The layer after [n] successive calls of [next_feature]. *)
Fixpoint after_next_features (n : nat) (l : layer) : layer :=
  match n with
  | O => l
  | S n' => after_next_features n' (fst (next_feature l))
  end.

End Layer.

(** * Properties of the geometry decoder *)

Module GeometryFacts.

Import Geometry.

(** ** Machine arithmetic *)

Lemma int32_add_idem (a b : Z) : int32 (int32 a + b) = int32 (a + b).
Proof.
  unfold int32.
  replace ((a + 2 ^ 31) mod 2 ^ 32 - 2 ^ 31 + b + 2 ^ 31)
    with ((a + 2 ^ 31) mod 2 ^ 32 + b) by ring.
  rewrite Zplus_mod_idemp_l. do 2 f_equal. ring.
Qed.

Lemma int64_add_idem (a b : Z) : int64 (int64 a + b) = int64 (a + b).
Proof.
  unfold int64.
  replace ((a + 2 ^ 63) mod 2 ^ 64 - 2 ^ 63 + b + 2 ^ 63)
    with ((a + 2 ^ 63) mod 2 ^ 64 + b) by ring.
  rewrite Zplus_mod_idemp_l. do 2 f_equal. ring.
Qed.

Lemma int64_idem (z : Z) : int64 (int64 z) = int64 z.
Proof.
  pose proof (int64_add_idem z 0) as E. now rewrite !Z.add_0_r in E.
Qed.

Lemma int32_range (z : Z) : is_int32 (int32 z).
Proof.
  unfold is_int32, int32.
  pose proof (Z.mod_pos_bound (z + 2 ^ 31) (2 ^ 32) ltac:(lia)). lia.
Qed.

Lemma int32_small (z : Z) : is_int32 z -> int32 z = z.
Proof.
  unfold is_int32, int32. intros Hz.
  rewrite Z.mod_small by lia. ring.
Qed.

Lemma int64_small (z : Z) : is_int64 z -> int64 z = z.
Proof.
  unfold is_int64, int64. intros Hz.
  rewrite Z.mod_small by lia. ring.
Qed.

Lemma uint32_small (z : Z) : is_uint32 z -> uint32 z = z.
Proof. unfold is_uint32, uint32. intros Hz. now rewrite Z.mod_small. Qed.

(** [detail::det] does not overflow on 32-bit coordinates. *)
Lemma det_exact (a b : point) :
  is_int32 (x a) -> is_int32 (y a) -> is_int32 (x b) -> is_int32 (y b) ->
  det a b = x a * y b - x b * y a.
Proof.
  unfold is_int32, det. intros Hxa Hya Hxb Hyb.
  assert (- 2 ^ 62 < x a * y b <= 2 ^ 62) by nia.
  assert (- 2 ^ 62 < x b * y a <= 2 ^ 62) by nia.
  rewrite (int64_small (x a * y b)) by (unfold is_int64; lia).
  rewrite (int64_small (x b * y a)) by (unfold is_int64; lia).
  apply int64_small. unfold is_int64. lia.
Qed.

(** ** Zigzag *)

Lemma decode_zigzag32_even (n : Z) : decode_zigzag32 (2 * n) = n.
Proof.
  unfold decode_zigzag32.
  rewrite Z.shiftr_div_pow2 by lia. change (2 ^ 1) with 2.
  rewrite (Z.mul_comm 2 n), Z.div_mul by lia.
  change 1 with (Z.ones 1). rewrite Z.land_ones by lia.
  change (2 ^ 1) with 2. rewrite Z.mod_mul by lia.
  apply Z.lxor_0_r.
Qed.

Lemma decode_zigzag32_odd (n : Z) : decode_zigzag32 (2 * n + 1) = - n - 1.
Proof.
  unfold decode_zigzag32.
  rewrite Z.shiftr_div_pow2 by lia. change (2 ^ 1) with 2.
  replace ((2 * n + 1) / 2) with n
    by (apply Z.div_unique with (r := 1); lia).
  change 1 with (Z.ones 1) at 2. rewrite Z.land_ones by lia.
  change (2 ^ 1) with 2.
  replace ((2 * n + 1) mod 2) with 1
    by (apply Z.mod_unique with (q := n); lia).
  change (- (1)) with (-1). rewrite Z.lxor_m1_r. unfold Z.lnot.
  rewrite <- Z.sub_1_r. lia.
Qed.

(** A parameter integer decodes to a 32-bit signed delta. *)
Lemma decode_zigzag32_range (v : Z) :
  is_uint32 v -> is_int32 (decode_zigzag32 v).
Proof.
  unfold is_uint32, is_int32. intros Hv.
  destruct (Z.even v) eqn:He.
  - apply Z.even_spec in He. destruct He as [n ->].
    rewrite decode_zigzag32_even. lia.
  - assert (Ho : Z.odd v = true) by (rewrite <- Z.negb_even, He; reflexivity).
    apply Z.odd_spec in Ho. destruct Ho as [n ->].
    rewrite decode_zigzag32_odd. lia.
Qed.

(** [decode_zigzag32] undoes the [zz] of the format on 32-bit deltas. *)
Lemma decode_encode_zigzag32 (n : Z) :
  is_int32 n -> decode_zigzag32 (encode_zigzag32 n) = n.
Proof.
  unfold is_int32, encode_zigzag32, uint32. intros Hn.
  rewrite Z.shiftl_mul_pow2, Z.shiftr_div_pow2 by lia.
  change (2 ^ 1) with 2.
  destruct (Z.neg_nonneg_cases n) as [Hneg|Hpos].
  - replace (n / 2 ^ 31) with (-1)
      by (apply Z.div_unique with (r := n + 2 ^ 31); lia).
    rewrite Z.lxor_m1_r. unfold Z.lnot. rewrite <- Z.sub_1_r.
    rewrite Z.mod_small by lia.
    replace (- (n * 2) - 1) with (2 * (- n - 1) + 1) by lia.
    rewrite decode_zigzag32_odd. lia.
  - rewrite (Z.div_small n) by lia. rewrite Z.lxor_0_r.
    rewrite Z.mod_small by lia.
    rewrite (Z.mul_comm n 2). apply decode_zigzag32_even.
Qed.

(** ** Command integers *)

Lemma command_id_roundtrip (id n : Z) :
  0 <= id < 8 -> get_command_id (command_integer id n) = id.
Proof.
  intros Hid. unfold get_command_id, command_integer, uint32.
  change 7 with (Z.ones 3). change (2 ^ 32) with (2 ^ 3 * 2 ^ 29).
  rewrite Z.land_lor_distr_l, <- Z.land_assoc, Z.land_diag.
  rewrite !Z.land_ones by lia.
  rewrite Z.shiftl_mul_pow2 by lia.
  rewrite (Z.mul_comm n), Zmult_mod_distr_l.
  rewrite (Z.mul_comm (2 ^ 3)), Z.mod_mul by lia.
  rewrite Z.lor_0_r. apply Z.mod_small. lia.
Qed.

Lemma command_count_roundtrip (id n : Z) :
  0 <= n < 2 ^ 29 -> get_command_count (command_integer id n) = n.
Proof.
  intros Hn. unfold get_command_count, command_integer, uint32.
  rewrite Z.shiftr_lor.
  change 7 with (Z.ones 3). rewrite Z.land_ones by lia.
  rewrite (Z.shiftr_div_pow2 (id mod 2 ^ 3)) by lia.
  rewrite (Z.div_small (id mod 2 ^ 3)) by (apply Z.mod_pos_bound; lia).
  rewrite Z.lor_0_l.
  rewrite Z.shiftl_mul_pow2 by lia.
  rewrite Z.mod_small by lia.
  rewrite Z.shiftr_div_pow2 by lia.
  apply Z.div_mul. lia.
Qed.

(** ** Reading a command *)

Lemma command_ids :
  command_move_to 0 = 1 /\ command_line_to 0 = 2 /\ command_close_path 0 = 7.
Proof. repeat split. Qed.

Lemma next_command_end (e : Z) (d : decoder) :
  m_count d = 0 -> m_it d = [] -> next_command e d = Ok (false, d).
Proof.
  intros Hc Hit. unfold next_command, vtzero_assert. now rewrite Hc, Hit.
Qed.

Lemma next_command_match (e : Z) (d : decoder) (c : Z) (rest : list Z) :
  m_count d = 0 -> m_it d = c :: rest ->
  get_command_id c = e -> e <> 7 ->
  next_command e d =
  Ok (true, mk_decoder rest (m_cursor d) e (get_command_count c)
              (m_strict d)).
Proof.
  intros Hc Hit Hid He. unfold next_command, vtzero_assert.
  rewrite Hc, Hit, Hid. change (command_close_path 0) with 7.
  apply Z.eqb_neq in He. rewrite He. cbn [bind m_command_id].
  rewrite !Z.eqb_refl. reflexivity.
Qed.

Lemma next_command_close_path (d : decoder) (c : Z) (rest : list Z) :
  m_count d = 0 -> m_it d = c :: rest ->
  get_command_id c = 7 -> get_command_count c = 1 ->
  next_command 7 d =
  Ok (true, mk_decoder rest (m_cursor d) 7 0 (m_strict d)).
Proof.
  intros Hc Hit Hid Hn. unfold next_command, vtzero_assert.
  rewrite Hc, Hit, Hid, Hn. reflexivity.
Qed.

Lemma next_command_mismatch (e : Z) (d : decoder) (c : Z) (rest : list Z) :
  m_count d = 0 -> m_it d = c :: rest ->
  get_command_id c <> e ->
  exists msg, next_command e d = Throw (geometry_exception msg).
Proof.
  intros Hc Hit Hid. unfold next_command, vtzero_assert.
  rewrite Hc, Hit. apply Z.eqb_neq in Hid. cbn [Z.eqb].
  destruct (get_command_id c =? command_close_path 0).
  - destruct (negb _); cbn [bind m_command_id]; [eauto|].
    rewrite Hid. cbn [negb]. eauto.
  - cbn [bind m_command_id]. rewrite Hid. cbn [negb]. eauto.
Qed.

Lemma next_command_bad_close_path (e : Z) (d : decoder) (c : Z)
  (rest : list Z) :
  m_count d = 0 -> m_it d = c :: rest ->
  get_command_id c = 7 -> get_command_count c <> 1 ->
  exists msg, next_command e d = Throw (geometry_exception msg).
Proof.
  intros Hc Hit Hid Hn. unfold next_command, vtzero_assert.
  rewrite Hc, Hit, Hid. apply Z.eqb_neq in Hn. rewrite Hn.
  cbn. eauto.
Qed.

Lemma command_count_bounds (c : Z) :
  is_uint32 c -> 0 <= get_command_count c < 2 ^ 29.
Proof.
  unfold is_uint32, get_command_count. intros Hc.
  rewrite Z.shiftr_div_pow2 by lia.
  split; [apply Z.div_pos; lia|].
  apply Z.div_lt_upper_bound; lia.
Qed.

(** ** The loops over parameter pairs *)

Section Loops.

Context {H : Type} `{GeomHandler H}.

Lemma replay_app (evs1 evs2 : list event) (h : H) :
  replay (evs1 ++ evs2) h = replay evs2 (replay evs1 h).
Proof. apply fold_left_app. Qed.

Lemma last_cons_default {A} (a : A) (l : list A) (d d' : A) :
  last (a :: l) d = last (a :: l) d'.
Proof.
  revert a. induction l as [|b l IH]; intros a; [reflexivity|].
  change (last (b :: l) d = last (b :: l) d'). apply IH.
Qed.

Lemma last_cons_head {A} (a : A) (l : list A) (d : A) :
  last (a :: l) d = last l a.
Proof.
  destruct l as [|b l]; [reflexivity|].
  change (last (b :: l) d = last (b :: l) a). apply last_cons_default.
Qed.

Lemma last_cursors (c : point) (p : Z * Z) (ps : list (Z * Z)) :
  last (cursors c (p :: ps)) c = last (cursors (move c p) ps) (move c p).
Proof.
  destruct ps as [|q ps]; [reflexivity|].
  change (last (cursors (move c p) (q :: ps)) c =
          last (cursors (move c p) (q :: ps)) (move c p)).
  apply last_cons_default.
Qed.

Lemma next_point_step (d : decoder) (p : Z * Z) (rest : list Z) :
  m_it d = fst p :: snd p :: rest ->
  0 < m_count d ->
  checks_zero_delta d && zero_delta p = false ->
  next_point d =
  Ok (move (m_cursor d) p,
      mk_decoder rest (move (m_cursor d) p) (m_command_id d)
        (uint32 (m_count d - 1)) (m_strict d)).
Proof.
  intros Hit Hc Hz. unfold next_point, vtzero_assert.
  apply Z.ltb_lt in Hc. rewrite Hc, Hit.
  unfold checks_zero_delta, zero_delta in Hz.
  rewrite <- !andb_assoc in *. rewrite Hz. reflexivity.
Qed.

Lemma next_point_zero (d : decoder) (p : Z * Z) (rest : list Z) :
  m_it d = fst p :: snd p :: rest ->
  0 < m_count d ->
  checks_zero_delta d && zero_delta p = true ->
  exists msg, next_point d = Throw (geometry_exception msg).
Proof.
  intros Hit Hc Hz. unfold next_point, vtzero_assert.
  apply Z.ltb_lt in Hc. rewrite Hc, Hit.
  unfold checks_zero_delta, zero_delta in Hz.
  rewrite <- !andb_assoc in *. rewrite Hz. eauto.
Qed.

Lemma points_loop_ok (emit : point -> H -> H) (ev : point -> event)
  (Hemit : forall p h, emit p h = apply_event (ev p) h) :
  forall (ps : list (Z * Z)) (fuel : nat) (d : decoder) (tail : list Z)
         (h : H),
    m_it d = flatten ps ++ tail ->
    m_count d = Z.of_nat (length ps) ->
    m_count d < 2 ^ 32 ->
    (length ps <= fuel)%nat ->
    checks_zero_delta d = false \/
      forallb (fun p => negb (zero_delta p)) ps = true ->
    points_loop emit fuel d h =
    (replay (map ev (cursors (m_cursor d) ps)) h,
     Ok (mk_decoder tail (last (cursors (m_cursor d) ps) (m_cursor d))
           (m_command_id d) 0 (m_strict d))).
Proof.
  induction ps as [|p ps IH]; intros fuel d tail h Hit Hc Hlt Hfuel Hz.
  - simpl in *. destruct d as [it c id n s]; simpl in *; subst.
    destruct fuel; reflexivity.
  - destruct fuel as [|fuel]; [simpl in Hfuel; lia|].
    assert (Hpos : 0 < m_count d) by (rewrite Hc; simpl; lia).
    assert (Hstep : checks_zero_delta d && zero_delta p = false).
    { destruct Hz as [Hz|Hz]; [now rewrite Hz|].
      simpl in Hz. apply andb_true_iff in Hz. destruct Hz as [Hz _].
      apply negb_true_iff in Hz. rewrite Hz. apply andb_false_r. }
    simpl points_loop. unfold count.
    apply Z.ltb_lt in Hpos as Hpos'. rewrite Hpos'.
    unfold mbind, lift, call.
    rewrite (next_point_step d p (flatten ps ++ tail)) by assumption.
    assert (Hn : uint32 (m_count d - 1) = Z.of_nat (length ps)).
    { rewrite uint32_small; unfold is_uint32; rewrite Hc in *;
        simpl length in *; lia. }
    rewrite (last_cursors (m_cursor d) p ps), Hn.
    rewrite IH with (tail := tail);
      cbn [m_it m_count m_cursor m_command_id m_strict].
    + unfold replay. cbn [cursors map fold_left]. now rewrite Hemit.
    + reflexivity.
    + reflexivity.
    + rewrite Hc in Hlt. cbn [length] in Hlt. lia.
    + simpl in Hfuel. lia.
    + destruct Hz as [Hz|Hz]; [left; exact Hz|right].
      simpl in Hz. apply andb_true_iff in Hz. tauto.
Qed.

Lemma points_loop_short (emit : point -> H -> H) :
  forall (fuel : nat) (d : decoder) (h : H),
    m_count d < 2 ^ 32 ->
    Z.of_nat (length (m_it d)) < 2 * m_count d ->
    (length (m_it d) < 2 * fuel)%nat ->
    exists h' msg,
      points_loop emit fuel d h = (h', Throw (geometry_exception msg)).
Proof.
  induction fuel as [|fuel IH]; intros d h Hlt Hlen Hfuel; [lia|].
  assert (Hpos : (0 <? m_count d) = true) by (apply Z.ltb_lt; lia).
  simpl points_loop. unfold count. rewrite Hpos.
  unfold mbind, lift, call, next_point, vtzero_assert. rewrite Hpos.
  destruct (m_it d) as [|zx [|zy rest]] eqn:Hit; [eauto | eauto |].
  destruct (_ && _); [eauto|].
  cbn [length] in Hlen, Hfuel.
  apply IH; cbn [m_it m_count].
  - rewrite uint32_small; unfold is_uint32; lia.
  - rewrite uint32_small; unfold is_uint32; lia.
  - lia.
Qed.

Lemma points_loop_zero (emit : point -> H -> H) :
  forall (ps : list (Z * Z)) (fuel : nat) (d : decoder) (tail : list Z)
         (h : H),
    m_it d = flatten ps ++ tail ->
    m_count d = Z.of_nat (length ps) ->
    m_count d < 2 ^ 32 ->
    (length ps <= fuel)%nat ->
    checks_zero_delta d = true ->
    forallb (fun p => negb (zero_delta p)) ps = false ->
    exists h' msg,
      points_loop emit fuel d h = (h', Throw (geometry_exception msg)).
Proof.
  induction ps as [|p ps IH]; intros fuel d tail h Hit Hc Hlt Hfuel Hs Hz;
    [discriminate|].
  destruct fuel as [|fuel]; [simpl in Hfuel; lia|].
  assert (Hpos : 0 < m_count d) by (rewrite Hc; simpl; lia).
  apply Z.ltb_lt in Hpos as Hpos'.
  simpl points_loop. unfold count. rewrite Hpos'.
  unfold mbind, lift, call.
  destruct (zero_delta p) eqn:Hp.
  - destruct (next_point_zero d p (flatten ps ++ tail)) as [msg Hthrow];
      [assumption | assumption | now rewrite Hs, Hp |].
    rewrite Hthrow. eauto.
  - rewrite (next_point_step d p (flatten ps ++ tail));
      [| assumption | assumption | now rewrite Hp, andb_false_r].
    cbn [length] in Hc, Hfuel.
    apply IH with (tail := tail); cbn [m_it m_count]; try reflexivity.
    + rewrite uint32_small; unfold is_uint32; lia.
    + rewrite uint32_small; unfold is_uint32; lia.
    + lia.
    + exact Hs.
    + simpl in Hz. rewrite Hp in Hz. exact Hz.
Qed.

Lemma shoelace_snoc :
  forall (l : list point) (a b : point),
    shoelace (a :: l ++ [b]) = shoelace (a :: l) + det (last l a) b.
Proof.
  induction l as [|c l IH]; intros a b.
  - simpl. lia.
  - change (det a c + shoelace (c :: l ++ [b]) =
            det a c + shoelace (c :: l) + det (last (c :: l) a) b).
    rewrite IH, (last_cons_default c l a c).
    destruct l; simpl; lia.
Qed.

Lemma ring_loop_ok :
  forall (ps : list (Z * Z)) (fuel : nat) (d : decoder) (tail : list Z)
         (sum : Z) (last_point : point) (h : H),
    m_it d = flatten ps ++ tail ->
    m_count d = Z.of_nat (length ps) ->
    m_count d < 2 ^ 32 ->
    (length ps <= fuel)%nat ->
    int64 sum = sum ->
    checks_zero_delta d = false \/
      forallb (fun p => negb (zero_delta p)) ps = true ->
    ring_loop fuel d sum last_point h =
    (replay (map ev_ring_point (cursors (m_cursor d) ps)) h,
     Ok (mk_decoder tail (last (cursors (m_cursor d) ps) (m_cursor d))
           (m_command_id d) 0 (m_strict d),
         int64 (sum + shoelace (last_point :: cursors (m_cursor d) ps)),
         last (cursors (m_cursor d) ps) last_point)).
Proof.
  induction ps as [|p ps IH];
    intros fuel d tail sum last_point h Hit Hc Hlt Hfuel Hsum Hz.
  - simpl in *. destruct d as [it c id n s]; simpl in *; subst.
    rewrite Z.add_0_r, Hsum. destruct fuel; reflexivity.
  - destruct fuel as [|fuel]; [simpl in Hfuel; lia|].
    assert (Hpos : 0 < m_count d) by (rewrite Hc; simpl; lia).
    assert (Hstep : checks_zero_delta d && zero_delta p = false).
    { destruct Hz as [Hz|Hz]; [now rewrite Hz|].
      simpl in Hz. apply andb_true_iff in Hz. destruct Hz as [Hz _].
      apply negb_true_iff in Hz. rewrite Hz. apply andb_false_r. }
    simpl ring_loop. unfold count.
    apply Z.ltb_lt in Hpos as Hpos'. rewrite Hpos'.
    unfold mbind, lift, call.
    rewrite (next_point_step d p (flatten ps ++ tail)) by assumption.
    assert (Hn : uint32 (m_count d - 1) = Z.of_nat (length ps)).
    { rewrite uint32_small; unfold is_uint32; rewrite Hc in *;
        simpl length in *; lia. }
    rewrite (last_cursors (m_cursor d) p ps), Hn.
    rewrite IH with (tail := tail);
      cbn [m_it m_count m_cursor m_command_id m_strict].
    + unfold replay. cbn [cursors map fold_left apply_event].
      rewrite int64_add_idem.
      change (shoelace (last_point :: move (m_cursor d) p ::
                        cursors (move (m_cursor d) p) ps))
        with (det last_point (move (m_cursor d) p) +
              shoelace (move (m_cursor d) p ::
                        cursors (move (m_cursor d) p) ps)).
      rewrite Z.add_assoc, last_cons_head. reflexivity.
    + reflexivity.
    + reflexivity.
    + rewrite Hc in Hlt. cbn [length] in Hlt. lia.
    + simpl in Hfuel. lia.
    + apply int64_idem.
    + destruct Hz as [Hz|Hz]; [left; exact Hz|right].
      simpl in Hz. apply andb_true_iff in Hz. tauto.
Qed.

Lemma ring_loop_zero :
  forall (ps : list (Z * Z)) (fuel : nat) (d : decoder) (tail : list Z)
         (sum : Z) (last_point : point) (h : H),
    m_it d = flatten ps ++ tail ->
    m_count d = Z.of_nat (length ps) ->
    m_count d < 2 ^ 32 ->
    (length ps <= fuel)%nat ->
    checks_zero_delta d = true ->
    forallb (fun p => negb (zero_delta p)) ps = false ->
    exists h' msg,
      ring_loop fuel d sum last_point h =
      (h', Throw (geometry_exception msg)).
Proof.
  induction ps as [|p ps IH];
    intros fuel d tail sum last_point h Hit Hc Hlt Hfuel Hs Hz;
    [discriminate|].
  destruct fuel as [|fuel]; [simpl in Hfuel; lia|].
  assert (Hpos : 0 < m_count d) by (rewrite Hc; simpl; lia).
  apply Z.ltb_lt in Hpos as Hpos'.
  simpl ring_loop. unfold count. rewrite Hpos'.
  unfold mbind, lift, call.
  destruct (zero_delta p) eqn:Hp.
  - destruct (next_point_zero d p (flatten ps ++ tail)) as [msg Hthrow];
      [assumption | assumption | now rewrite Hs, Hp |].
    rewrite Hthrow. eauto.
  - rewrite (next_point_step d p (flatten ps ++ tail));
      [| assumption | assumption | now rewrite Hp, andb_false_r].
    cbn [length] in Hc, Hfuel.
    apply IH with (tail := tail); cbn [m_it m_count]; try reflexivity.
    + rewrite uint32_small; unfold is_uint32; lia.
    + rewrite uint32_small; unfold is_uint32; lia.
    + lia.
    + exact Hs.
    + simpl in Hz. rewrite Hp in Hz. exact Hz.
Qed.

End Loops.

(** ** Streams and running sums *)

Lemma split_pairs :
  forall (n : nat) (l : list Z),
    (2 * n <= length l)%nat ->
    exists ps tail, l = flatten ps ++ tail /\ length ps = n.
Proof.
  induction n as [|n IH]; intros l Hl.
  - exists [], l. split; reflexivity.
  - destruct l as [|a [|b l]]; cbn [length] in Hl; try lia.
    destruct (IH l) as (ps & tail & -> & <-); [lia|].
    exists ((a, b) :: ps), tail. split; reflexivity.
Qed.

Lemma length_flatten (ps : list (Z * Z)) :
  length (flatten ps) = (2 * length ps)%nat.
Proof. induction ps as [|p ps IH]; simpl in *; lia. Qed.

Lemma sum_snoc (g : Z * Z -> Z) (pre : list (Z * Z)) (p : Z * Z) :
  fold_right Z.add 0 (map g (pre ++ [p])) =
  fold_right Z.add 0 (map g pre) + g p.
Proof. induction pre as [|q pre IH]; simpl; lia. Qed.

Lemma move_delta_sum (pre : list (Z * Z)) (p : Z * Z) :
  move (delta_sum pre) p = delta_sum (pre ++ [p]).
Proof.
  unfold move, delta_sum. cbn [x y].
  now rewrite !int32_add_idem, !sum_snoc.
Qed.

Lemma cursors_delta_sum :
  forall (ps pre : list (Z * Z)),
    cursors (delta_sum pre) ps =
    map (fun n => delta_sum (pre ++ firstn (S n) ps)) (seq 0 (length ps)).
Proof.
  induction ps as [|p ps IH]; intros pre; [reflexivity|].
  cbn [cursors length seq map]. rewrite move_delta_sum. f_equal.
  rewrite IH, <- seq_shift, map_map. apply map_ext. intros n.
  now rewrite <- app_assoc.
Qed.

(** Where the sums of the deltas fit in 32 bits, [delta_sum] is the sum. *)
Lemma delta_sum_exact (ps : list (Z * Z)) :
  let sx := fold_right Z.add 0 (map (fun p => decode_zigzag32 (fst p)) ps) in
  let sy := fold_right Z.add 0 (map (fun p => decode_zigzag32 (snd p)) ps) in
  is_int32 sx -> is_int32 sy -> delta_sum ps = mk_point sx sy.
Proof.
  intros sx sy Hx Hy. unfold delta_sum. fold sx sy.
  now rewrite !int32_small.
Qed.

(** The cursors from (0, 0) are the running sums of the deltas. *)
Lemma cursors_running_sums (ps : list (Z * Z)) :
  cursors (mk_point 0 0) ps = running_sums ps.
Proof. exact (cursors_delta_sum ps []). Qed.

(** ** Point geometries *)

Section Points.

Context {H : Type} `{GeomHandler H}.

Lemma decode_point_geometry_ok (c : Z) (ps : list (Z * Z)) (strict : bool)
  (h : H) :
  get_command_id c = 1 ->
  1 <= get_command_count c < 2 ^ 32 ->
  Z.of_nat (length ps) = get_command_count c ->
  decode_point_geometry (mk_geometry (c :: flatten ps) POINT) strict h =
  (replay (ev_points_begin (get_command_count c) ::
           map ev_points_point (running_sums ps) ++ [ev_points_end]) h,
   Ok tt).
Proof.
  intros Hid Hn Hlen.
  unfold decode_point_geometry. unfold massert. cbn [geometry_type geometry_data GeomType_eqb].
  unfold mbind at 1, lift at 1.
  rewrite (next_command_match 1 _ c (flatten ps)) by (easy || lia).
  cbn [negb count m_count].
  replace (get_command_count c =? 0) with false by (symmetry; apply Z.eqb_neq; lia).
  unfold mbind at 1, call at 1. unfold mbind at 1.
  rewrite (points_loop_ok points_point ev_points_point) with (ps := ps) (tail := []);
    cbn [m_it m_count m_cursor m_command_id m_strict geometry_decoder].
  - cbn [done m_it negb]. unfold call.
    rewrite <- cursors_running_sums.
    change (ev_points_begin (get_command_count c) ::
            map ev_points_point (cursors (mk_point 0 0) ps) ++ [ev_points_end])
      with ([ev_points_begin (get_command_count c)] ++
            map ev_points_point (cursors (mk_point 0 0) ps) ++ [ev_points_end]).
    now rewrite !replay_app.
  - reflexivity.
  - now rewrite app_nil_r.
  - lia.
  - lia.
  - cbn [length]. rewrite length_flatten. lia.
  - left. unfold checks_zero_delta. cbn [m_strict m_command_id].
    change (1 =? command_line_to 0) with false. apply andb_false_r.
Qed.

Lemma decode_point_geometry_error (s : list Z) (strict : bool) (h : H) :
  Forall is_uint32 s ->
  ~ (exists n ps, is_point_stream s n ps) ->
  exists h' msg,
    decode_point_geometry (mk_geometry s POINT) strict h =
    (h', Throw (geometry_exception msg)).
Proof.
  intros Hs Hshape.
  unfold decode_point_geometry.
  unfold massert. cbn [geometry_type geometry_data GeomType_eqb].
  destruct s as [|c params].
  { unfold mbind, lift. rewrite next_command_end by reflexivity.
    cbn [negb]. unfold throw, lift. eauto. }
  destruct (Z.eq_dec (get_command_id c) 1) as [Hid|Hid].
  2:{ destruct (next_command_mismatch 1 (geometry_decoder (c :: params) strict)
                  c params) as [msg Hthrow]; try easy.
      unfold mbind, lift. change (command_move_to 0) with 1.
      rewrite Hthrow. eauto. }
  apply Forall_inv in Hs.
  pose proof (command_count_bounds c Hs) as Hn.
  unfold mbind at 1, lift at 1.
  rewrite (next_command_match 1 _ c params) by (easy || lia).
  cbn [negb count m_count].
  destruct (get_command_count c =? 0) eqn:Hzero;
    [unfold throw, lift; eauto|].
  apply Z.eqb_neq in Hzero.
  unfold mbind at 1, call at 1. unfold mbind at 1.
  destruct (le_lt_dec (2 * Z.to_nat (get_command_count c)) (length params))
    as [Hlen|Hlen].
  - destruct (split_pairs _ _ Hlen) as (ps & tail & -> & Hps).
    rewrite (points_loop_ok points_point ev_points_point)
      with (ps := ps) (tail := tail);
      cbn [m_it m_count m_cursor m_command_id m_strict geometry_decoder].
    + destruct tail as [|t tail];
        [|cbn [done m_it negb]; unfold throw, lift; eauto].
      exfalso. apply Hshape. exists (get_command_count c), ps, c.
      rewrite app_nil_r. repeat split; lia.
    + reflexivity.
    + reflexivity.
    + lia.
    + lia.
    + cbn [length]. rewrite length_app, length_flatten. lia.
    + left. unfold checks_zero_delta. cbn [m_strict m_command_id].
      change (1 =? command_line_to 0) with false. apply andb_false_r.
  - destruct (points_loop_short points_point (S (length params))
                (mk_decoder params (mk_point 0 0) 1 (get_command_count c)
                   strict)
                (points_begin (get_command_count c) h))
      as (h' & msg & Hthrow); cbn [m_it m_count length]; try lia.
    cbn [geometry_decoder m_cursor m_strict]. cbn [length] in Hthrow.
    rewrite Hthrow. eauto.
Qed.

(** C7. [decode_point_geometry] succeeds exactly on a stream that is one
    MoveTo command with a count [n >= 1] followed by exactly [n] parameter
    pairs: it then calls [points_begin n], [points_point] once per pair with
    the running sum of the zigzag-decoded deltas (the cursor, from (0, 0),
    in the 32-bit arithmetic of the coordinates), and [points_end]; on every
    other stream (no MoveTo, count zero, too few parameters, trailing data)
    it throws a geometry exception. *)
Theorem decode_point_geometry_spec (s : list Z) (strict : bool) (h : H) :
  Forall is_uint32 s ->
  (forall n ps,
     is_point_stream s n ps ->
     decode_point_geometry (mk_geometry s POINT) strict h =
     (replay (ev_points_begin n ::
              map ev_points_point (running_sums ps) ++ [ev_points_end]) h,
      Ok tt)) /\
  (~ (exists n ps, is_point_stream s n ps) ->
   exists h' msg,
     decode_point_geometry (mk_geometry s POINT) strict h =
     (h', Throw (geometry_exception msg))).
Proof.
  intros Hs. split.
  - intros n ps (c & -> & Hid & Hn & Hpos & Hlen). subst n.
    apply Forall_inv in Hs. pose proof (command_count_bounds c Hs).
    apply decode_point_geometry_ok; try assumption. lia.
  - now apply decode_point_geometry_error.
Qed.

End Points.

(** ** Linestrings and polygon rings *)

Section Paths.

Context {H : Type} `{GeomHandler H}.

Lemma mbind_lift_Ok {A B} (a : A) (k : A -> M H B) (h : H) :
  mbind (lift (Ok a)) k h = k a h.
Proof. reflexivity. Qed.

Lemma mbind_call {B} (f : H -> H) (k : unit -> M H B) (h : H) :
  mbind (call f) k h = k tt (f h).
Proof. reflexivity. Qed.

Lemma line_count_bounds (r : path) :
  count_fits r -> 0 <= line_count r < 2 ^ 29.
Proof. unfold count_fits, line_count. lia. Qed.

(** The decoder after the MoveTo command of a path and its point, at the
    LineTo command. *)
Lemma path_move_to (r : path) (d : decoder) (rest : list Z) :
  m_it d =
    command_move_to 1 :: fst (path_start r) :: snd (path_start r) :: rest ->
  m_count d = 0 ->
  next_command (command_move_to 0) d =
    Ok (true, mk_decoder (fst (path_start r) :: snd (path_start r) :: rest)
                (m_cursor d) 1 1 (m_strict d)) /\
  next_point (mk_decoder (fst (path_start r) :: snd (path_start r) :: rest)
                (m_cursor d) 1 1 (m_strict d)) =
    Ok (path_first (m_cursor d) r,
        mk_decoder rest (path_first (m_cursor d) r) 1 0 (m_strict d)).
Proof.
  intros Hit Hc. split.
  - change (command_move_to 0) with 1.
    now rewrite (next_command_match 1 d (command_move_to 1) _ Hc Hit).
  - rewrite (next_point_step _ (path_start r) rest); try reflexivity.
    unfold checks_zero_delta. cbn [m_strict m_command_id].
    change (1 =? command_line_to 0) with false.
    now rewrite andb_false_r.
Qed.

Lemma path_line_to (r : path) (d : decoder) (rest : list Z) :
  count_fits r ->
  m_it d = command_line_to (line_count r) :: rest ->
  m_count d = 0 ->
  next_command (command_line_to 0) d =
    Ok (true, mk_decoder rest (m_cursor d) 2 (line_count r) (m_strict d)).
Proof.
  intros Hfit Hit Hc. apply line_count_bounds in Hfit.
  change (command_line_to 0) with 2.
  rewrite (next_command_match 2 d (command_line_to (line_count r)) rest);
    try assumption; try lia.
  - unfold command_line_to. now rewrite command_count_roundtrip.
  - unfold command_line_to. apply command_id_roundtrip. lia.
Qed.

Lemma polygon_loop_end (strict : bool) (fuel : nat) (d : decoder) (h : H) :
  m_it d = [] -> m_count d = 0 ->
  polygon_loop strict (S fuel) d h = (h, Ok tt).
Proof.
  intros Hit Hc. cbn [polygon_loop].
  now rewrite next_command_end.
Qed.

(** One ring that passes the checks of the mode: the loop makes the calls
    of the ring and goes on behind it. *)
Lemma polygon_loop_ring (strict : bool) (r : path) (fuel : nat)
  (d : decoder) (tail : list Z) (h : H) :
  m_it d = ring_commands r ++ tail ->
  m_count d = 0 ->
  m_strict d = strict ->
  count_fits r ->
  strict = false \/ ring_strict_ok r = true ->
  polygon_loop strict (S fuel) d h =
  polygon_loop strict fuel
    (mk_decoder tail (path_cursor (m_cursor d) r) 7 0 strict)
    (replay (ring_events (m_cursor d) r) h).
Proof.
  intros Hit Hc Hs Hfit Hok.
  unfold ring_commands, linestring_commands in Hit.
  cbn [app] in Hit. rewrite <- app_assoc in Hit.
  destruct (path_move_to r d _ Hit Hc) as [Hmove Hfirst].
  cbn [polygon_loop].
  rewrite Hmove, mbind_lift_Ok. cbn [negb count m_count Z.eqb Pos.eqb].
  rewrite Hfirst, mbind_lift_Ok.
  rewrite (path_line_to r _ (flatten (path_line r) ++
                             [command_close_path 1] ++ tail))
    by (assumption || reflexivity).
  rewrite mbind_lift_Ok. cbn [negb count m_count].
  pose proof (line_count_bounds r Hfit) as Hn.
  assert (Hcheck : strict && (line_count r <=? 1) = false).
  { destruct Hok as [->|Hok]; [reflexivity|].
    unfold ring_strict_ok in Hok. apply andb_true_iff in Hok.
    destruct Hok as [Hok _]. apply Z.ltb_lt in Hok.
    replace (line_count r <=? 1) with false
      by (symmetry; apply Z.leb_gt; lia).
    apply andb_false_r. }
  rewrite Hcheck, !mbind_call.
  unfold mbind at 1.
  rewrite ring_loop_ok with (ps := path_line r)
                            (tail := [command_close_path 1] ++ tail);
    cbn [m_it m_count m_cursor m_command_id m_strict].
  - rewrite (next_command_close_path _ (command_close_path 1) tail)
      by reflexivity.
    rewrite mbind_lift_Ok. cbn [negb]. rewrite !mbind_call.
    cbn [m_cursor m_strict]. rewrite Hs.
    f_equal.
    unfold ring_events, ring_sum, closed_ring, path_points.
    rewrite int64_add_idem, Z.add_0_l, <- shoelace_snoc.
    rewrite uint32_small by (unfold is_uint32; lia).
    unfold replay. cbn [map fold_left apply_event].
    rewrite fold_left_app. cbn [fold_left apply_event].
    rewrite map_app, fold_left_app. reflexivity.
  - reflexivity.
  - reflexivity.
  - lia.
  - rewrite length_app, length_flatten. lia.
  - reflexivity.
  - destruct Hok as [->|Hok].
    + left. unfold checks_zero_delta. cbn [m_strict]. now rewrite Hs.
    + right. unfold ring_strict_ok in Hok. apply andb_true_iff in Hok.
      apply Hok.
Qed.

Lemma polygon_loop_rings (strict : bool) :
  forall (rs : list path) (fuel : nat) (d : decoder) (tail : list Z) (h : H),
    m_it d = polygon_stream rs ++ tail ->
    m_count d = 0 ->
    m_strict d = strict ->
    Forall count_fits rs ->
    strict = false \/ forallb ring_strict_ok rs = true ->
    exists d',
      m_it d' = tail /\ m_count d' = 0 /\ m_strict d' = strict /\
      m_cursor d' = paths_cursor (m_cursor d) rs /\
      polygon_loop strict (length rs + fuel) d h =
      polygon_loop strict fuel d'
        (replay (paths_events ring_events (m_cursor d) rs) h).
Proof.
  induction rs as [|r rs IH]; intros fuel d tail h Hit Hc Hs Hfit Hok.
  - exists d. repeat split; assumption.
  - cbn [polygon_stream flat_map] in Hit. rewrite <- app_assoc in Hit.
    apply Forall_cons_iff in Hfit. destruct Hfit as [Hr Hfit].
    assert (Hok' : (strict = false \/ ring_strict_ok r = true) /\
                   (strict = false \/ forallb ring_strict_ok rs = true)).
    { destruct Hok as [Hok|Hok]; [tauto|].
      cbn [forallb] in Hok. apply andb_true_iff in Hok. tauto. }
    destruct Hok' as [Hokr Hokrs].
    cbn [length Nat.add].
    rewrite (polygon_loop_ring strict r _ d _ h Hit Hc Hs Hr Hokr).
    destruct (IH fuel (mk_decoder (flat_map ring_commands rs ++ tail)
                         (path_cursor (m_cursor d) r) 7 0 strict)
                tail (replay (ring_events (m_cursor d) r) h))
      as (d' & Hit' & Hc' & Hs' & Hcur' & Hloop);
      try reflexivity; try assumption.
    exists d'. repeat split; try assumption.
    rewrite Hloop. cbn [m_cursor paths_events]. now rewrite replay_app.
Qed.

Lemma length_paths_stream (f : path -> list Z) (rs : list path) :
  (forall r, 1 <= length (f r))%nat ->
  (length rs <= length (flat_map f rs))%nat.
Proof.
  intros Hf. induction rs as [|r rs IH]; [apply le_n|].
  cbn [flat_map length]. rewrite length_app. specialize (Hf r). lia.
Qed.

Lemma decode_polygon_geometry_ok (strict : bool) (rs : list path) (h : H) :
  Forall count_fits rs ->
  strict = false \/ forallb ring_strict_ok rs = true ->
  decode_polygon_geometry (mk_geometry (polygon_stream rs) POLYGON) strict h =
  (replay (polygon_events rs) h, Ok tt).
Proof.
  intros Hfit Hok. unfold decode_polygon_geometry.
  unfold massert. cbn [geometry_type geometry_data GeomType_eqb].
  pose proof (length_paths_stream ring_commands rs) as Hlen.
  assert (Hfuel : exists k, S (length (polygon_stream rs)) =
                            (length rs + S k)%nat).
  { exists (length (polygon_stream rs) - length rs)%nat.
    unfold polygon_stream.
    assert (length rs <= length (flat_map ring_commands rs))%nat; [|lia].
    apply Hlen. intros r. unfold ring_commands, linestring_commands.
    cbn [length app]. lia. }
  destruct Hfuel as [k ->].
  destruct (polygon_loop_rings strict rs (S k)
              (geometry_decoder (polygon_stream rs) strict) [] h)
    as (d' & Hit' & Hc' & Hs' & Hcur' & Hloop);
    try reflexivity; try assumption.
  { cbn [geometry_decoder m_it]. now rewrite app_nil_r. }
  rewrite Hloop. now apply polygon_loop_end.
Qed.

(** A ring whose LineTo count is 0 or 1 in strict mode, whatever follows
    the LineTo command. *)
Lemma polygon_loop_short_ring (fuel : nat) (d : decoder) (zx zy c : Z)
  (rest : list Z) (h : H) :
  m_it d = command_move_to 1 :: zx :: zy :: c :: rest ->
  m_count d = 0 ->
  get_command_id c = 2 ->
  get_command_count c <= 1 ->
  exists h' msg,
    polygon_loop true (S fuel) d h = (h', Throw (geometry_exception msg)).
Proof.
  intros Hit Hc Hid Hn.
  destruct (path_move_to (mk_path (zx, zy) []) d _ Hit Hc) as [Hmove Hfirst].
  cbn [path_start fst snd] in Hmove, Hfirst.
  cbn [polygon_loop].
  rewrite Hmove, mbind_lift_Ok. cbn [negb count m_count Z.eqb Pos.eqb].
  rewrite Hfirst, mbind_lift_Ok.
  change (command_line_to 0) with 2.
  rewrite (next_command_match 2 _ c rest) by (easy || lia).
  rewrite mbind_lift_Ok. cbn [negb count m_count andb].
  apply Z.leb_le in Hn. rewrite Hn. unfold throw, lift. eauto.
Qed.

(** In strict mode a ring that fails a strict check stops the decoder,
    whatever follows the parameters of its LineTo command. *)
Lemma polygon_loop_bad_ring (r : path) (fuel : nat) (d : decoder)
  (tail : list Z) (h : H) :
  m_it d = linestring_commands r ++ tail ->
  m_count d = 0 ->
  m_strict d = true ->
  count_fits r ->
  ring_strict_ok r = false ->
  exists h' msg,
    polygon_loop true (S fuel) d h = (h', Throw (geometry_exception msg)).
Proof.
  intros Hit Hc Hs Hfit Hbad.
  pose proof (line_count_bounds r Hfit) as Hn.
  unfold linestring_commands in Hit. cbn [app] in Hit.
  destruct (Z.leb_spec (line_count r) 1) as [Hle|Hgt].
  { apply (polygon_loop_short_ring fuel d _ _ _ _ h Hit Hc).
    - unfold command_line_to. apply command_id_roundtrip. lia.
    - unfold command_line_to. rewrite command_count_roundtrip; lia. }
  assert (Hzero : no_zero_delta r = false).
  { unfold ring_strict_ok in Hbad. apply andb_false_iff in Hbad.
    destruct Hbad as [Hbad|Hbad]; [|exact Hbad].
    apply Z.ltb_ge in Hbad. lia. }
  destruct (path_move_to r d _ Hit Hc) as [Hmove Hfirst].
  cbn [polygon_loop].
  rewrite Hmove, mbind_lift_Ok. cbn [negb count m_count Z.eqb Pos.eqb].
  rewrite Hfirst, mbind_lift_Ok.
  rewrite (path_line_to r _ (flatten (path_line r) ++ tail))
    by (assumption || reflexivity).
  rewrite mbind_lift_Ok. cbn [negb count m_count andb].
  replace (line_count r <=? 1) with false by (symmetry; apply Z.leb_gt; lia).
  rewrite !mbind_call. unfold mbind at 1.
  destruct (ring_loop_zero (path_line r)
              (S (length (flatten (path_line r) ++ tail)))
              (mk_decoder (flatten (path_line r) ++ tail)
                 (path_first (m_cursor d) r) 2 (line_count r) (m_strict d))
              tail 0
              (path_first (m_cursor d) r)
              (ring_point (path_first (m_cursor d) r)
                 (ring_begin (uint32 (line_count r + 2)) h)))
    as (h' & msg & Hthrow); cbn [m_it m_count]; try reflexivity; try lia.
  - rewrite length_app, length_flatten. lia.
  - unfold checks_zero_delta. cbn [m_strict m_command_id]. now rewrite Hs.
  - exact Hzero.
  - cbn [m_cursor m_strict]. rewrite Hthrow. eauto.
Qed.

Lemma polygon_loop_some_bad :
  forall (rs : list path) (fuel : nat) (d : decoder) (tail : list Z) (h : H),
    m_it d = polygon_stream rs ++ tail ->
    m_count d = 0 ->
    m_strict d = true ->
    Forall count_fits rs ->
    forallb ring_strict_ok rs = false ->
    (length rs <= fuel)%nat ->
    exists h' msg,
      polygon_loop true fuel d h = (h', Throw (geometry_exception msg)).
Proof.
  induction rs as [|r rs IH]; intros fuel d tail h Hit Hc Hs Hfit Hbad Hfuel;
    [discriminate|].
  cbn [polygon_stream flat_map] in Hit. rewrite <- app_assoc in Hit.
  apply Forall_cons_iff in Hfit. destruct Hfit as [Hr Hfit].
  destruct fuel as [|fuel]; [cbn [length] in Hfuel; lia|].
  cbn [forallb] in Hbad.
  destruct (ring_strict_ok r) eqn:Hokr.
  - rewrite (polygon_loop_ring true r _ d _ h Hit Hc Hs Hr (or_intror Hokr)).
    apply IH with (tail := tail); try reflexivity; try assumption.
    cbn [length] in Hfuel. lia.
  - unfold ring_commands in Hit. rewrite <- app_assoc in Hit.
    now apply (polygon_loop_bad_ring r fuel d _ h Hit).
Qed.

(** A ClosePath command with a count other than 1 at the end of a ring. *)
Lemma polygon_loop_bad_close_path (strict : bool) (r : path) (c : Z)
  (fuel : nat) (d : decoder) (tail : list Z) (h : H) :
  m_it d = linestring_commands r ++ c :: tail ->
  m_count d = 0 ->
  m_strict d = strict ->
  count_fits r ->
  strict = false \/ ring_strict_ok r = true ->
  get_command_id c = 7 ->
  get_command_count c <> 1 ->
  exists h' msg,
    polygon_loop strict (S fuel) d h = (h', Throw (geometry_exception msg)).
Proof.
  intros Hit Hc Hs Hfit Hok Hid Hcount.
  unfold linestring_commands in Hit. cbn [app] in Hit.
  destruct (path_move_to r d _ Hit Hc) as [Hmove Hfirst].
  cbn [polygon_loop].
  rewrite Hmove, mbind_lift_Ok. cbn [negb count m_count Z.eqb Pos.eqb].
  rewrite Hfirst, mbind_lift_Ok.
  rewrite (path_line_to r _ (flatten (path_line r) ++ c :: tail))
    by (assumption || reflexivity).
  rewrite mbind_lift_Ok. cbn [negb count m_count].
  pose proof (line_count_bounds r Hfit) as Hn.
  assert (Hcheck : strict && (line_count r <=? 1) = false).
  { destruct Hok as [->|Hok]; [reflexivity|].
    unfold ring_strict_ok in Hok. apply andb_true_iff in Hok.
    destruct Hok as [Hok _]. apply Z.ltb_lt in Hok.
    replace (line_count r <=? 1) with false
      by (symmetry; apply Z.leb_gt; lia).
    apply andb_false_r. }
  rewrite Hcheck, !mbind_call.
  unfold mbind at 1.
  rewrite ring_loop_ok with (ps := path_line r) (tail := c :: tail);
    cbn [m_it m_count m_cursor m_command_id m_strict].
  - destruct (next_command_bad_close_path (command_close_path 0)
                (mk_decoder (c :: tail)
                   (last (cursors (path_first (m_cursor d) r) (path_line r))
                      (path_first (m_cursor d) r)) 2 0 (m_strict d))
                c tail) as [msg Hthrow]; try reflexivity; try assumption.
    unfold mbind, lift. rewrite Hthrow. eauto.
  - reflexivity.
  - reflexivity.
  - lia.
  - rewrite length_app, length_flatten. lia.
  - reflexivity.
  - destruct Hok as [->|Hok].
    + left. unfold checks_zero_delta. cbn [m_strict]. now rewrite Hs.
    + right. unfold ring_strict_ok in Hok. apply andb_true_iff in Hok.
      apply Hok.
Qed.

Lemma linestring_loop_end (fuel : nat) (d : decoder) (h : H) :
  m_it d = [] -> m_count d = 0 ->
  linestring_loop (S fuel) d h = (h, Ok tt).
Proof.
  intros Hit Hc. cbn [linestring_loop].
  now rewrite next_command_end.
Qed.

Lemma linestring_loop_path (r : path) (fuel : nat) (d : decoder)
  (tail : list Z) (h : H) :
  m_it d = linestring_commands r ++ tail ->
  m_count d = 0 ->
  count_fits r ->
  1 <= line_count r ->
  m_strict d = false \/ no_zero_delta r = true ->
  linestring_loop (S fuel) d h =
  linestring_loop fuel
    (mk_decoder tail (path_cursor (m_cursor d) r) 2 0 (m_strict d))
    (replay (a_linestring_events (m_cursor d) r) h).
Proof.
  intros Hit Hc Hfit Hpos Hok.
  unfold linestring_commands in Hit. cbn [app] in Hit.
  destruct (path_move_to r d _ Hit Hc) as [Hmove Hfirst].
  cbn [linestring_loop].
  rewrite Hmove, mbind_lift_Ok. cbn [negb count m_count Z.eqb Pos.eqb].
  rewrite Hfirst, mbind_lift_Ok.
  rewrite (path_line_to r _ (flatten (path_line r) ++ tail))
    by (assumption || reflexivity).
  rewrite mbind_lift_Ok. cbn [negb count m_count].
  pose proof (line_count_bounds r Hfit) as Hn.
  replace (line_count r =? 0) with false by (symmetry; apply Z.eqb_neq; lia).
  rewrite !mbind_call.
  unfold mbind at 1.
  rewrite (points_loop_ok linestring_point ev_linestring_point)
    with (ps := path_line r) (tail := tail);
    cbn [m_it m_count m_cursor m_command_id m_strict].
  - rewrite mbind_call. f_equal.
    unfold a_linestring_events, path_points.
    rewrite uint32_small by (unfold is_uint32; lia).
    unfold replay. cbn [map fold_left apply_event].
    now rewrite fold_left_app.
  - reflexivity.
  - reflexivity.
  - reflexivity.
  - lia.
  - rewrite length_app, length_flatten. lia.
  - destruct Hok as [Hs|Hok]; [left|right; exact Hok].
    unfold checks_zero_delta. cbn [m_strict]. now rewrite Hs.
Qed.

Lemma linestring_loop_paths :
  forall (rs : list path) (fuel : nat) (d : decoder) (tail : list Z) (h : H),
    m_it d = linestring_stream rs ++ tail ->
    m_count d = 0 ->
    Forall count_fits rs ->
    Forall (fun r => 1 <= line_count r) rs ->
    m_strict d = false \/ forallb no_zero_delta rs = true ->
    exists d',
      m_it d' = tail /\ m_count d' = 0 /\ m_strict d' = m_strict d /\
      linestring_loop (length rs + fuel) d h =
      linestring_loop fuel d'
        (replay (paths_events a_linestring_events (m_cursor d) rs) h).
Proof.
  induction rs as [|r rs IH]; intros fuel d tail h Hit Hc Hfit Hpos Hok.
  - exists d. repeat split; assumption.
  - cbn [linestring_stream flat_map] in Hit. rewrite <- app_assoc in Hit.
    apply Forall_cons_iff in Hfit. destruct Hfit as [Hr Hfit].
    apply Forall_cons_iff in Hpos. destruct Hpos as [Hposr Hpos].
    assert (Hok' : (m_strict d = false \/ no_zero_delta r = true) /\
                   (m_strict d = false \/ forallb no_zero_delta rs = true)).
    { destruct Hok as [Hok|Hok]; [tauto|].
      cbn [forallb] in Hok. apply andb_true_iff in Hok. tauto. }
    destruct Hok' as [Hokr Hokrs].
    cbn [length Nat.add].
    rewrite (linestring_loop_path r _ d _ h Hit Hc Hr Hposr Hokr).
    destruct (IH fuel (mk_decoder (flat_map linestring_commands rs ++ tail)
                         (path_cursor (m_cursor d) r) 2 0 (m_strict d))
                tail (replay (a_linestring_events (m_cursor d) r) h))
      as (d' & Hit' & Hc' & Hs' & Hloop);
      try reflexivity; try assumption.
    exists d'. repeat split; try assumption.
    rewrite Hloop. cbn [m_cursor paths_events]. now rewrite replay_app.
Qed.

Lemma decode_linestring_geometry_ok (strict : bool) (rs : list path)
  (h : H) :
  Forall count_fits rs ->
  Forall (fun r => 1 <= line_count r) rs ->
  strict = false \/ forallb no_zero_delta rs = true ->
  decode_linestring_geometry (mk_geometry (linestring_stream rs) LINESTRING)
    strict h =
  (replay (linestring_events rs) h, Ok tt).
Proof.
  intros Hfit Hpos Hok. unfold decode_linestring_geometry.
  unfold massert. cbn [geometry_type geometry_data GeomType_eqb].
  pose proof (length_paths_stream linestring_commands rs) as Hlen.
  assert (Hfuel : exists k, S (length (linestring_stream rs)) =
                            (length rs + S k)%nat).
  { exists (length (linestring_stream rs) - length rs)%nat.
    unfold linestring_stream.
    assert (length rs <= length (flat_map linestring_commands rs))%nat;
      [|lia].
    apply Hlen. intros r. unfold linestring_commands.
    cbn [length]. lia. }
  destruct Hfuel as [k ->].
  destruct (linestring_loop_paths rs (S k)
              (geometry_decoder (linestring_stream rs) strict) [] h)
    as (d' & Hit' & Hc' & Hs' & Hloop);
    try reflexivity; try assumption.
  { cbn [geometry_decoder m_it]. now rewrite app_nil_r. }
  rewrite Hloop. now apply linestring_loop_end.
Qed.

Lemma linestring_loop_zero_path (r : path) (fuel : nat) (d : decoder)
  (tail : list Z) (h : H) :
  m_it d = linestring_commands r ++ tail ->
  m_count d = 0 ->
  m_strict d = true ->
  count_fits r ->
  no_zero_delta r = false ->
  exists h' msg,
    linestring_loop (S fuel) d h = (h', Throw (geometry_exception msg)).
Proof.
  intros Hit Hc Hs Hfit Hzero.
  pose proof (line_count_bounds r Hfit) as Hn.
  unfold linestring_commands in Hit. cbn [app] in Hit.
  destruct (path_move_to r d _ Hit Hc) as [Hmove Hfirst].
  cbn [linestring_loop].
  rewrite Hmove, mbind_lift_Ok. cbn [negb count m_count Z.eqb Pos.eqb].
  rewrite Hfirst, mbind_lift_Ok.
  rewrite (path_line_to r _ (flatten (path_line r) ++ tail))
    by (assumption || reflexivity).
  rewrite mbind_lift_Ok. cbn [negb count m_count].
  destruct (line_count r =? 0); [unfold throw, lift; eauto|].
  rewrite !mbind_call. unfold mbind at 1.
  destruct (points_loop_zero linestring_point (path_line r)
              (S (length (flatten (path_line r) ++ tail)))
              (mk_decoder (flatten (path_line r) ++ tail)
                 (path_first (m_cursor d) r) 2 (line_count r) (m_strict d))
              tail
              (linestring_point (path_first (m_cursor d) r)
                 (linestring_begin (uint32 (line_count r + 1)) h)))
    as (h' & msg & Hthrow); cbn [m_it m_count]; try reflexivity; try lia.
  - rewrite length_app, length_flatten. lia.
  - unfold checks_zero_delta. cbn [m_strict m_command_id]. now rewrite Hs.
  - exact Hzero.
  - cbn [m_cursor m_strict]. rewrite Hthrow. eauto.
Qed.

Lemma linestring_loop_some_zero :
  forall (rs : list path) (fuel : nat) (d : decoder) (tail : list Z) (h : H),
    m_it d = linestring_stream rs ++ tail ->
    m_count d = 0 ->
    m_strict d = true ->
    Forall count_fits rs ->
    Forall (fun r => 1 <= line_count r) rs ->
    forallb no_zero_delta rs = false ->
    (length rs <= fuel)%nat ->
    exists h' msg,
      linestring_loop fuel d h = (h', Throw (geometry_exception msg)).
Proof.
  induction rs as [|r rs IH];
    intros fuel d tail h Hit Hc Hs Hfit Hpos Hbad Hfuel; [discriminate|].
  cbn [linestring_stream flat_map] in Hit. rewrite <- app_assoc in Hit.
  apply Forall_cons_iff in Hfit. destruct Hfit as [Hr Hfit].
  apply Forall_cons_iff in Hpos. destruct Hpos as [Hposr Hpos].
  destruct fuel as [|fuel]; [cbn [length] in Hfuel; lia|].
  cbn [forallb] in Hbad.
  destruct (no_zero_delta r) eqn:Hokr.
  - rewrite (linestring_loop_path r _ d _ h Hit Hc Hr Hposr (or_intror Hokr)).
    apply IH with (tail := tail); try reflexivity; try assumption.
    cbn [length] in Hfuel. lia.
  - now apply (linestring_loop_zero_path r fuel d _ h Hit).
Qed.

Lemma paths_events_app (one : point -> path -> list event) :
  forall (pre rs : list path) (c : point),
    paths_events one c (pre ++ rs) =
    paths_events one c pre ++ paths_events one (paths_cursor c pre) rs.
Proof.
  induction pre as [|r pre IH]; intros rs c; [reflexivity|].
  cbn [app paths_events paths_cursor]. now rewrite IH, app_assoc.
Qed.

Lemma flat_map_app_paths (f : path -> list Z) (pre rs : list path) :
  flat_map f (pre ++ rs) = flat_map f pre ++ flat_map f rs.
Proof. apply flat_map_app. Qed.

Lemma zero_delta_in (rs : list path) (r : path) (p : Z * Z) :
  In r rs -> In p (path_line r) ->
  decode_zigzag32 (fst p) = 0 -> decode_zigzag32 (snd p) = 0 ->
  forallb no_zero_delta rs = false /\ forallb ring_strict_ok rs = false.
Proof.
  intros Hr Hp Hx Hy.
  assert (Hz : no_zero_delta r = false).
  { unfold no_zero_delta.
    destruct (forallb _ (path_line r)) eqn:Hall; [|reflexivity].
    rewrite forallb_forall in Hall. specialize (Hall p Hp).
    unfold zero_delta in Hall. rewrite Hx, Hy in Hall. discriminate. }
  split.
  - destruct (forallb no_zero_delta rs) eqn:Hall; [|reflexivity].
    rewrite forallb_forall in Hall. specialize (Hall r Hr). congruence.
  - destruct (forallb ring_strict_ok rs) eqn:Hall; [|reflexivity].
    rewrite forallb_forall in Hall. specialize (Hall r Hr).
    unfold ring_strict_ok in Hall. rewrite Hz, andb_false_r in Hall.
    discriminate.
Qed.

(** The points the decoder yields have 32-bit coordinates, and on them the
    shoelace sum of [det] is the sum of the cross products. *)
Lemma move_int32 (c : point) (p : Z * Z) : is_int32_point (move c p).
Proof. unfold move. split; apply int32_range. Qed.

Lemma cursors_int32 (ps : list (Z * Z)) :
  forall c : point, Forall is_int32_point (cursors c ps).
Proof.
  induction ps as [|p ps IH]; intros c; cbn [cursors]; constructor.
  - apply move_int32.
  - apply IH.
Qed.

Lemma closed_ring_int32 (c : point) (r : path) :
  Forall is_int32_point (closed_ring c r).
Proof.
  unfold closed_ring, path_points, path_first.
  constructor; [apply move_int32|].
  apply Forall_app. split; [apply cursors_int32|].
  constructor; [apply move_int32 | constructor].
Qed.

Lemma shoelace_cross (ps : list point) :
  Forall is_int32_point ps -> shoelace ps = shoelace_sum ps.
Proof.
  induction 1 as [|a ps [Hxa Hya] Hps IH]; [reflexivity|].
  destruct ps as [|b ps]; [reflexivity|].
  change (det a b + shoelace (b :: ps) =
          cross a b + shoelace_sum (b :: ps)).
  rewrite IH. apply Forall_inv in Hps. destruct Hps as [Hxb Hyb].
  unfold cross. now rewrite det_exact.
Qed.

(** C1. For a well-formed polygon stream and every ring [r] in it, between
    the rings [pre] before it and the rings [post] after it,
    [decode_polygon_geometry] calls [ring_begin], [ring_point] on the start
    point, on the points of the LineTo command and on the start point again,
    and [ring_end (0 < sum)], where [sum] is the 64-bit signed shoelace
    sum: the sum of the cross products [p.x * q.y - q.x * p.y] over the
    consecutive points [p], [q] of that closed ring, the segment back to
    the start point included.  The ring is reported as outer exactly when
    the sum is positive. *)
Theorem decode_polygon_geometry_shoelace (strict : bool)
  (pre : list path) (r : path) (post : list path) (h : H) :
  Forall count_fits (pre ++ r :: post) ->
  strict = false \/ forallb ring_strict_ok (pre ++ r :: post) = true ->
  let c := paths_cursor (mk_point 0 0) pre in
  let start := path_first c r in
  let ring := start :: path_points c r ++ [start] in
  let sum := int64 (shoelace_sum ring) in
  decode_polygon_geometry
    (mk_geometry (polygon_stream (pre ++ r :: post)) POLYGON) strict h =
  (replay (polygon_events pre ++
           (ev_ring_begin (line_count r + 2) ::
            map ev_ring_point ring ++ [ev_ring_end (0 <? sum)]) ++
           paths_events ring_events (path_cursor c r) post) h,
   Ok tt).
Proof.
  intros Hfit Hok c start ring sum.
  rewrite decode_polygon_geometry_ok by assumption.
  unfold polygon_events. rewrite paths_events_app. cbn [paths_events].
  fold c. unfold ring_events at 2, ring_sum.
  rewrite (shoelace_cross (closed_ring c r)) by apply closed_ring_int32.
  reflexivity.
Qed.

(** C2, as the code has it.  In strict mode a ring whose LineTo count is
    not above 1 makes [decode_polygon_geometry] throw a geometry exception;
    in non-strict mode the LineTo count of a ring has no lower bound: the
    same stream, also with a LineTo count of 0, is decoded. *)
Theorem polygon_line_to_count_by_mode
  (pre : list path) (r : path) (post : list path) (h : H) :
  Forall count_fits (pre ++ r :: post) ->
  line_count r <= 1 ->
  (exists h' msg,
     decode_polygon_geometry
       (mk_geometry (polygon_stream (pre ++ r :: post)) POLYGON) true h =
     (h', Throw (geometry_exception msg))) /\
  decode_polygon_geometry
    (mk_geometry (polygon_stream (pre ++ r :: post)) POLYGON) false h =
  (replay (polygon_events (pre ++ r :: post)) h, Ok tt).
Proof.
  intros Hfit Hle. split.
  - unfold decode_polygon_geometry.
    unfold massert. cbn [geometry_type geometry_data GeomType_eqb].
    apply polygon_loop_some_bad with (rs := pre ++ r :: post) (tail := []);
      try reflexivity; try assumption.
    + cbn [geometry_decoder m_it]. now rewrite app_nil_r.
    + rewrite forallb_app. cbn [forallb]. unfold ring_strict_ok at 2.
      replace (1 <? line_count r) with false
        by (symmetry; apply Z.ltb_ge; lia).
      cbn [andb]. apply andb_false_r.
    + apply le_S. apply length_paths_stream.
      intros r0. unfold ring_commands, linestring_commands.
      cbn [length app]. lia.
  - apply decode_polygon_geometry_ok; [assumption | now left].
Qed.

(** C3. A stream in which a LineTo parameter pair has both zigzag-decoded
    deltas zero, and which keeps all other rules of the format: strict mode
    throws a geometry exception, non-strict mode decodes the same stream;
    this for polygons, and for linestrings (whose LineTo counts are at
    least 1). *)
Theorem strict_mode_rejects_zero_delta
  (rs : list path) (r : path) (p : Z * Z) (h : H) :
  Forall count_fits rs ->
  In r rs -> In p (path_line r) ->
  decode_zigzag32 (fst p) = 0 -> decode_zigzag32 (snd p) = 0 ->
  ((exists h' msg,
      decode_polygon_geometry (mk_geometry (polygon_stream rs) POLYGON)
        true h = (h', Throw (geometry_exception msg))) /\
   decode_polygon_geometry (mk_geometry (polygon_stream rs) POLYGON)
     false h = (replay (polygon_events rs) h, Ok tt)) /\
  (Forall (fun r => 1 <= line_count r) rs ->
   (exists h' msg,
      decode_linestring_geometry
        (mk_geometry (linestring_stream rs) LINESTRING) true h =
      (h', Throw (geometry_exception msg))) /\
   decode_linestring_geometry
     (mk_geometry (linestring_stream rs) LINESTRING) false h =
   (replay (linestring_events rs) h, Ok tt)).
Proof.
  intros Hfit Hr Hp Hx Hy.
  destruct (zero_delta_in rs r p Hr Hp Hx Hy) as [Hline Hring].
  split; [split|intros Hpos; split].
  - unfold decode_polygon_geometry.
    unfold massert. cbn [geometry_type geometry_data GeomType_eqb].
    apply polygon_loop_some_bad with (rs := rs) (tail := []);
      try reflexivity; try assumption.
    + cbn [geometry_decoder m_it]. now rewrite app_nil_r.
    + apply le_S. apply length_paths_stream.
      intros r0. unfold ring_commands, linestring_commands.
      cbn [length app]. lia.
  - apply decode_polygon_geometry_ok; [assumption | now left].
  - unfold decode_linestring_geometry.
    unfold massert. cbn [geometry_type geometry_data GeomType_eqb].
    apply linestring_loop_some_zero with (rs := rs) (tail := []);
      try reflexivity; try assumption.
    + cbn [geometry_decoder m_it]. now rewrite app_nil_r.
    + apply le_S. apply length_paths_stream.
      intros r0. unfold linestring_commands. cbn [length]. lia.
  - apply decode_linestring_geometry_ok; [assumption | assumption | now left].
Qed.

(** C4. A ClosePath command integer [c] whose count is not 1, in strict
    and in non-strict mode: [next_command] throws a geometry exception
    whenever the decoder reads [c] as a command, whatever command is
    expected; so [decode_polygon_geometry] throws when [c] closes a ring,
    and [decode_point_geometry] and [decode_linestring_geometry] throw when
    [c] stands where they read a command. *)
Theorem close_path_count_must_be_1 (strict : bool) (c : Z) (h : H) :
  get_command_id c = 7 ->
  get_command_count c <> 1 ->
  (forall e d rest,
     m_strict d = strict -> m_count d = 0 -> m_it d = c :: rest ->
     exists msg, next_command e d = Throw (geometry_exception msg)) /\
  (forall pre r tail,
     Forall count_fits (r :: pre) ->
     strict = false \/ forallb ring_strict_ok (r :: pre) = true ->
     exists h' msg,
       decode_polygon_geometry
         (mk_geometry
            (polygon_stream pre ++ linestring_commands r ++ c :: tail)
            POLYGON) strict h =
       (h', Throw (geometry_exception msg))) /\
  (forall tail,
     exists h' msg,
       decode_point_geometry (mk_geometry (c :: tail) POINT) strict h =
       (h', Throw (geometry_exception msg))) /\
  (forall pre tail,
     Forall count_fits pre ->
     Forall (fun r => 1 <= line_count r) pre ->
     strict = false \/ forallb no_zero_delta pre = true ->
     exists h' msg,
       decode_linestring_geometry
         (mk_geometry (linestring_stream pre ++ c :: tail) LINESTRING)
         strict h =
       (h', Throw (geometry_exception msg))).
Proof.
  intros Hid Hcount. repeat split.
  - intros e d rest _ Hc Hit.
    now apply (next_command_bad_close_path e d c rest).
  - intros pre r tail Hfit Hok.
    apply Forall_cons_iff in Hfit. destruct Hfit as [Hr Hfit].
    assert (Hok' : (strict = false \/ ring_strict_ok r = true) /\
                   (strict = false \/ forallb ring_strict_ok pre = true)).
    { destruct Hok as [Hok|Hok]; [tauto|].
      cbn [forallb] in Hok. apply andb_true_iff in Hok. tauto. }
    destruct Hok' as [Hokr Hokpre].
    unfold decode_polygon_geometry.
    unfold massert. cbn [geometry_type geometry_data GeomType_eqb].
    set (s := polygon_stream pre ++ linestring_commands r ++ c :: tail).
    assert (Hfuel : exists k, S (length s) = (length pre + S k)%nat).
    { exists (length s - length pre)%nat. subst s.
      rewrite length_app.
      pose proof (length_paths_stream ring_commands pre) as Hlen.
      unfold polygon_stream.
      assert (length pre <= length (flat_map ring_commands pre))%nat; [|lia].
      apply Hlen. intros r0. unfold ring_commands, linestring_commands.
      cbn [length app]. lia. }
    destruct Hfuel as [k ->].
    destruct (polygon_loop_rings strict pre (S k)
                (geometry_decoder s strict)
                (linestring_commands r ++ c :: tail) h)
      as (d' & Hit' & Hc' & Hs' & Hcur' & Hloop);
      try reflexivity; try assumption.
    rewrite Hloop.
    now apply (polygon_loop_bad_close_path strict r c k d' tail).
  - intros tail. unfold decode_point_geometry.
    unfold massert. cbn [geometry_type geometry_data GeomType_eqb].
    destruct (next_command_bad_close_path (command_move_to 0)
                (geometry_decoder (c :: tail) strict) c tail)
      as [msg Hthrow]; try reflexivity; try assumption.
    unfold mbind, lift. rewrite Hthrow. eauto.
  - intros pre tail Hfit Hpos Hok.
    unfold decode_linestring_geometry.
    unfold massert. cbn [geometry_type geometry_data GeomType_eqb].
    set (s := linestring_stream pre ++ c :: tail).
    assert (Hfuel : exists k, S (length s) = (length pre + S k)%nat).
    { exists (length s - length pre)%nat. subst s.
      rewrite length_app.
      pose proof (length_paths_stream linestring_commands pre) as Hlen.
      unfold linestring_stream.
      assert (length pre <= length (flat_map linestring_commands pre))%nat;
        [|lia].
      apply Hlen. intros r0. unfold linestring_commands.
      cbn [length]. lia. }
    destruct Hfuel as [k ->].
    destruct (linestring_loop_paths pre (S k)
                (geometry_decoder s strict) (c :: tail) h)
      as (d' & Hit' & Hc' & Hs' & Hloop);
      try reflexivity; try assumption.
    rewrite Hloop. cbn [linestring_loop].
    destruct (next_command_bad_close_path (command_move_to 0) d' c tail)
      as [msg Hthrow]; try assumption.
    unfold mbind, lift. rewrite Hthrow. eauto.
Qed.

End Paths.

(** ** The decode functions on any stream

    On a stream of unsigned 32-bit integers the decode functions return or
    throw a geometry exception: no assertion of the decoder fails, and the
    loops have the fuel they need. *)

Section Totality.

Context {H : Type} `{GeomHandler H}.

Lemma next_command_cases (e : Z) (d : decoder) :
  m_count d = 0 ->
  Forall is_uint32 (m_it d) ->
  match next_command e d with
  | Ok (false, d') => m_it d = []
  | Ok (true, d') =>
      (length (m_it d') < length (m_it d))%nat /\
      Forall is_uint32 (m_it d') /\
      0 <= m_count d' < 2 ^ 29
  | Throw (geometry_exception _) => True
  | _ => False
  end.
Proof.
  intros Hc Hs. unfold next_command, vtzero_assert. rewrite Hc.
  cbn [Z.eqb]. destruct (m_it d) as [|c rest] eqn:Hit; [reflexivity|].
  apply Forall_cons_iff in Hs. destruct Hs as [Hcu Hs].
  pose proof (command_count_bounds c Hcu) as Hn.
  destruct (get_command_id c =? command_close_path 0).
  - destruct (negb (get_command_count c =? 1)); cbn [bind]; [exact I|].
    cbn [m_command_id m_count m_cursor m_strict].
    destruct (negb (get_command_id c =? e)); [exact I|].
    cbn [m_it m_count length]. repeat split; try assumption; lia.
  - cbn [bind m_command_id m_count m_cursor m_strict].
    destruct (negb (get_command_id c =? e)); [exact I|].
    cbn [m_it m_count length]. repeat split; try assumption; lia.
Qed.

(** A ClosePath command leaves the count at 0. *)
Lemma next_command_close_path_count (d d' : decoder) :
  m_count d = 0 ->
  next_command (command_close_path 0) d = Ok (true, d') ->
  m_count d' = 0.
Proof.
  intros Hc. unfold next_command, vtzero_assert. rewrite Hc. cbn [Z.eqb].
  destruct (m_it d) as [|c rest]; [discriminate|].
  destruct (Z.eqb_spec (get_command_id c) (command_close_path 0)) as [Hid|Hid].
  - destruct (negb (get_command_count c =? 1)); cbn [bind]; [discriminate|].
    cbn [m_command_id m_count].
    destruct (negb (get_command_id c =? command_close_path 0));
      [discriminate|].
    intros Heq. injection Heq as <-. reflexivity.
  - cbn [bind m_command_id]. apply Z.eqb_neq in Hid. rewrite Hid.
    cbn [negb]. discriminate.
Qed.

Lemma next_point_cases (d : decoder) :
  0 < m_count d < 2 ^ 32 ->
  Forall is_uint32 (m_it d) ->
  match next_point d with
  | Ok (_, d') =>
      (length (m_it d') + 2 = length (m_it d))%nat /\
      Forall is_uint32 (m_it d') /\
      m_count d' = m_count d - 1
  | Throw (geometry_exception _) => True
  | _ => False
  end.
Proof.
  intros Hc Hs. unfold next_point, vtzero_assert.
  replace (0 <? m_count d) with true by (symmetry; apply Z.ltb_lt; lia).
  destruct (m_it d) as [|zx [|zy rest]] eqn:Hit; try exact I.
  destruct (_ && _); [exact I|].
  apply Forall_cons_iff in Hs. destruct Hs as [_ Hs].
  apply Forall_cons_iff in Hs. destruct Hs as [_ Hs].
  cbn [m_it m_count length]. repeat split; try assumption; try lia.
  apply uint32_small. unfold is_uint32. lia.
Qed.

Lemma points_loop_total (emit : point -> H -> H) :
  forall (fuel : nat) (d : decoder) (h : H),
    0 <= m_count d < 2 ^ 32 ->
    Forall is_uint32 (m_it d) ->
    (length (m_it d) < fuel)%nat ->
    match snd (points_loop emit fuel d h) with
    | Ok d' =>
        m_count d' = 0 /\ Forall is_uint32 (m_it d') /\
        (length (m_it d') <= length (m_it d))%nat
    | Throw (geometry_exception _) => True
    | _ => False
    end.
Proof.
  induction fuel as [|fuel IH]; intros d h Hc Hs Hfuel; [lia|].
  cbn [points_loop]. unfold count.
  destruct (Z.ltb_spec 0 (m_count d)) as [Hpos|Hzero].
  - unfold mbind at 1, lift at 1.
    pose proof (next_point_cases d ltac:(lia) Hs) as Hnext.
    destruct (next_point d) as [[p d']|[]| |]; try exact Hnext.
    destruct Hnext as (Hlen & Hs' & Hc').
    unfold mbind, call.
    specialize (IH d' (emit p h) ltac:(lia) Hs' ltac:(lia)).
    destruct (points_loop emit fuel d' (emit p h)) as [h' [d''|[]| |]];
      cbn [snd] in *; try exact IH.
    destruct IH as (I1 & I2 & I3). repeat split; try assumption. lia.
  - cbn [ret snd]. repeat split; try assumption; lia.
Qed.

Lemma ring_loop_total :
  forall (fuel : nat) (d : decoder) (sum : Z) (last_point : point) (h : H),
    0 <= m_count d < 2 ^ 32 ->
    Forall is_uint32 (m_it d) ->
    (length (m_it d) < fuel)%nat ->
    match snd (ring_loop fuel d sum last_point h) with
    | Ok (d', _, _) =>
        m_count d' = 0 /\ Forall is_uint32 (m_it d') /\
        (length (m_it d') <= length (m_it d))%nat
    | Throw (geometry_exception _) => True
    | _ => False
    end.
Proof.
  induction fuel as [|fuel IH]; intros d sum last_point h Hc Hs Hfuel; [lia|].
  cbn [ring_loop]. unfold count.
  destruct (Z.ltb_spec 0 (m_count d)) as [Hpos|Hzero].
  - unfold mbind at 1, lift at 1.
    pose proof (next_point_cases d ltac:(lia) Hs) as Hnext.
    destruct (next_point d) as [[p d']|[]| |]; try exact Hnext.
    destruct Hnext as (Hlen & Hs' & Hc').
    unfold mbind, call.
    specialize (IH d' (int64 (sum + det last_point p)) p (ring_point p h)
                  ltac:(lia) Hs' ltac:(lia)).
    destruct (ring_loop fuel d' _ p (ring_point p h))
      as [h' [[[d'' sum'] last']|[]| |]]; cbn [snd] in *; try exact IH.
    destruct IH as (I1 & I2 & I3). repeat split; try assumption. lia.
  - cbn [ret snd]. repeat split; try assumption; lia.
Qed.

Lemma decode_point_geometry_total (s : list Z) (strict : bool) (h : H) :
  Forall is_uint32 s ->
  geometry_outcome
    (snd (decode_point_geometry (mk_geometry s POINT) strict h)).
Proof.
  intros Hs. unfold decode_point_geometry, massert.
  cbn [geometry_type geometry_data GeomType_eqb].
  unfold mbind at 1, lift at 1.
  pose proof (next_command_cases (command_move_to 0)
                (geometry_decoder s strict) eq_refl Hs) as Hnext.
  destruct (next_command _ _) as [[[|] d1]|[]| |]; try exact Hnext;
    cbn [negb]; [|exact I].
  destruct Hnext as (Hlen & Hs1 & Hc1). unfold count.
  destruct (m_count d1 =? 0); [exact I|].
  unfold mbind at 1, call at 1. unfold mbind at 1.
  pose proof (points_loop_total points_point (S (length (m_it d1))) d1
                (points_begin (m_count d1) h) ltac:(lia) Hs1 ltac:(lia))
    as Hloop.
  destruct (points_loop _ _ _ _) as [h' [d2|[]| |]]; cbn [snd] in *;
    try exact Hloop.
  destruct (negb (done d2)); exact I.
Qed.

Lemma linestring_loop_total :
  forall (fuel : nat) (d : decoder) (h : H),
    m_count d = 0 ->
    Forall is_uint32 (m_it d) ->
    (length (m_it d) < fuel)%nat ->
    geometry_outcome (snd (linestring_loop fuel d h)).
Proof.
  induction fuel as [|fuel IH]; intros d h Hc Hs Hfuel; [lia|].
  cbn [linestring_loop]. unfold mbind at 1, lift at 1.
  pose proof (next_command_cases (command_move_to 0) d Hc Hs) as Hnext.
  destruct (next_command _ d) as [[[|] d1]|[]| |]; try exact Hnext;
    cbn [negb]; [|exact I].
  destruct Hnext as (Hlen1 & Hs1 & Hc1). unfold count.
  destruct (Z.eqb_spec (m_count d1) 1) as [Hone|Hne]; cbn [negb]; [|exact I].
  unfold mbind at 1, lift at 1.
  pose proof (next_point_cases d1 ltac:(lia) Hs1) as Hpoint.
  destruct (next_point d1) as [[first_point d2]|[]| |]; try exact Hpoint.
  destruct Hpoint as (Hlen2 & Hs2 & Hc2).
  unfold mbind at 1, lift at 1.
  pose proof (next_command_cases (command_line_to 0) d2 ltac:(lia) Hs2)
    as Hline.
  destruct (next_command _ d2) as [[[|] d3]|[]| |]; try exact Hline;
    cbn [negb]; [|exact I].
  destruct Hline as (Hlen3 & Hs3 & Hc3).
  destruct (m_count d3 =? 0); [exact I|].
  unfold mbind at 1, call at 1. unfold mbind at 1, call at 1.
  unfold mbind at 1.
  pose proof (points_loop_total linestring_point (S (length (m_it d3))) d3
                (linestring_point first_point
                   (linestring_begin (uint32 (m_count d3 + 1)) h))
                ltac:(lia) Hs3 ltac:(lia)) as Hloop.
  destruct (points_loop _ _ _ _) as [h' [d4|[]| |]]; cbn [snd] in *;
    try exact Hloop.
  destruct Hloop as (Hc4 & Hs4 & Hlen4).
  unfold mbind at 1, call at 1.
  apply IH; try assumption. lia.
Qed.

Lemma polygon_loop_total (strict : bool) :
  forall (fuel : nat) (d : decoder) (h : H),
    m_count d = 0 ->
    Forall is_uint32 (m_it d) ->
    (length (m_it d) < fuel)%nat ->
    geometry_outcome (snd (polygon_loop strict fuel d h)).
Proof.
  induction fuel as [|fuel IH]; intros d h Hc Hs Hfuel; [lia|].
  cbn [polygon_loop]. unfold mbind at 1, lift at 1.
  pose proof (next_command_cases (command_move_to 0) d Hc Hs) as Hnext.
  destruct (next_command _ d) as [[[|] d1]|[]| |]; try exact Hnext;
    cbn [negb]; [|exact I].
  destruct Hnext as (Hlen1 & Hs1 & Hc1). unfold count.
  destruct (Z.eqb_spec (m_count d1) 1) as [Hone|Hne]; cbn [negb]; [|exact I].
  unfold mbind at 1, lift at 1.
  pose proof (next_point_cases d1 ltac:(lia) Hs1) as Hpoint.
  destruct (next_point d1) as [[start_point d2]|[]| |]; try exact Hpoint.
  destruct Hpoint as (Hlen2 & Hs2 & Hc2).
  unfold mbind at 1, lift at 1.
  pose proof (next_command_cases (command_line_to 0) d2 ltac:(lia) Hs2)
    as Hline.
  destruct (next_command _ d2) as [[[|] d3]|[]| |]; try exact Hline;
    cbn [negb]; [|exact I].
  destruct Hline as (Hlen3 & Hs3 & Hc3).
  destruct (strict && (m_count d3 <=? 1)); [exact I|].
  unfold mbind at 1, call at 1. unfold mbind at 1, call at 1.
  unfold mbind at 1.
  pose proof (ring_loop_total (S (length (m_it d3))) d3 0 start_point
                (ring_point start_point
                   (ring_begin (uint32 (m_count d3 + 2)) h))
                ltac:(lia) Hs3 ltac:(lia)) as Hloop.
  destruct (ring_loop _ _ _ _ _) as [h' [[[d4 sum] last_point]|[]| |]];
    cbn [snd] in *; try exact Hloop.
  destruct Hloop as (Hc4 & Hs4 & Hlen4).
  unfold mbind at 1, lift at 1.
  pose proof (next_command_cases (command_close_path 0) d4 Hc4 Hs4) as Hclose.
  pose proof (next_command_close_path_count d4) as Hcount.
  destruct (next_command _ d4) as [[[|] d5]|[]| |]; try exact Hclose;
    cbn [negb]; [|exact I].
  destruct Hclose as (Hlen5 & Hs5 & _).
  specialize (Hcount d5 Hc4 eq_refl).
  unfold mbind at 1, call at 1. unfold mbind at 1, call at 1.
  apply IH; try assumption; try lia.
Qed.

Lemma decode_linestring_geometry_total (s : list Z) (strict : bool) (h : H) :
  Forall is_uint32 s ->
  geometry_outcome
    (snd (decode_linestring_geometry (mk_geometry s LINESTRING) strict h)).
Proof.
  intros Hs. unfold decode_linestring_geometry, massert.
  cbn [geometry_type geometry_data GeomType_eqb].
  apply linestring_loop_total; [reflexivity | exact Hs |].
  cbn [geometry_decoder m_it]. lia.
Qed.

Lemma decode_polygon_geometry_total (s : list Z) (strict : bool) (h : H) :
  Forall is_uint32 s ->
  geometry_outcome
    (snd (decode_polygon_geometry (mk_geometry s POLYGON) strict h)).
Proof.
  intros Hs. unfold decode_polygon_geometry, massert.
  cbn [geometry_type geometry_data GeomType_eqb].
  apply polygon_loop_total; [reflexivity | exact Hs |].
  cbn [geometry_decoder m_it]. lia.
Qed.

End Totality.

(** * More of the geometry decoder *)

(** A computation that returns has returned from each of its steps. *)
Lemma mbind_snd_Ok {S A B} (m : M S A) (k : A -> M S B) (s : S) (b : B) :
  snd (mbind m k s) = Ok b ->
  exists a s', m s = (s', Ok a) /\ snd (k a s') = Ok b.
Proof.
  unfold mbind. destruct (m s) as [s' [a|e| |]]; cbn [snd];
    try discriminate. eauto.
Qed.

(** ** Command integers, both ways *)

Lemma command_id_mod (id n : Z) :
  get_command_id (command_integer id n) = id mod 8.
Proof.
  unfold get_command_id, command_integer, uint32.
  change 7 with (Z.ones 3). change (2 ^ 32) with (2 ^ 3 * 2 ^ 29).
  rewrite Z.land_lor_distr_l, <- Z.land_assoc, Z.land_diag.
  rewrite !Z.land_ones by lia.
  rewrite Z.shiftl_mul_pow2 by lia.
  rewrite (Z.mul_comm n), Zmult_mod_distr_l.
  rewrite (Z.mul_comm (2 ^ 3)), Z.mod_mul by lia.
  rewrite Z.lor_0_r. reflexivity.
Qed.

Lemma command_count_mod (id n : Z) :
  get_command_count (command_integer id n) = n mod 2 ^ 29.
Proof.
  unfold get_command_count, command_integer, uint32.
  rewrite Z.shiftr_lor.
  change 7 with (Z.ones 3). rewrite Z.land_ones by lia.
  rewrite (Z.shiftr_div_pow2 (id mod 2 ^ 3)) by lia.
  rewrite (Z.div_small (id mod 2 ^ 3)) by (apply Z.mod_pos_bound; lia).
  rewrite Z.lor_0_l.
  rewrite Z.shiftl_mul_pow2 by lia.
  change (2 ^ 32) with (2 ^ 3 * 2 ^ 29).
  rewrite (Z.mul_comm n), Zmult_mod_distr_l.
  rewrite Z.shiftr_div_pow2 by lia.
  rewrite Z.mul_comm. apply Z.div_mul. lia.
Qed.

Lemma command_integer_inverse (c : Z) :
  is_uint32 c ->
  command_integer (get_command_id c) (get_command_count c) = c.
Proof.
  unfold is_uint32. intros Hc.
  unfold command_integer, get_command_id, get_command_count.
  rewrite <- Z.land_assoc, Z.land_diag.
  assert (Hsh : uint32 (Z.shiftl (Z.shiftr c 3) 3) = Z.shiftl (Z.shiftr c 3) 3).
  { apply uint32_small. unfold is_uint32.
    rewrite Z.shiftl_mul_pow2, Z.shiftr_div_pow2 by lia.
    pose proof (Z.mul_div_le c (2 ^ 3) ltac:(lia)).
    assert (0 <= c / 2 ^ 3) by (apply Z.div_pos; lia). lia. }
  rewrite Hsh. apply Z.bits_inj'. intros i Hi.
  rewrite Z.lor_spec, Z.land_spec.
  change 7 with (Z.ones 3). rewrite Z.testbit_ones_nonneg by lia.
  destruct (Z.ltb_spec i 3) as [Hlt|Hge].
  - rewrite Z.shiftl_spec_low by lia.
    now rewrite andb_true_r, orb_false_r.
  - rewrite Z.shiftl_spec_high by lia. rewrite Z.shiftr_spec by lia.
    replace (i - 3 + 3) with i by ring.
    now rewrite andb_false_r, orb_false_l.
Qed.

Lemma is_uint32_command_integer (id n : Z) :
  is_uint32 (command_integer id n).
Proof.
  unfold command_integer, is_uint32, uint32.
  change 7 with (Z.ones 3). rewrite Z.land_ones by lia.
  pose proof (Z.mod_pos_bound id (2 ^ 3) ltac:(lia)) as Hid.
  pose proof (Z.mod_pos_bound (Z.shiftl n 3) (2 ^ 32) ltac:(lia)) as Hn.
  split.
  - apply Z.lor_nonneg. split; lia.
  - apply Z.log2_lt_cancel. 
    destruct (Z.eq_dec (Z.lor (id mod 2 ^ 3) (Z.shiftl n 3 mod 2 ^ 32)) 0) as [E|E].
    { rewrite E. cbn. lia. }
    rewrite Z.log2_lor by lia.
    change (Z.log2 (2 ^ 32)) with 32.
    apply Z.max_lub_lt.
    + destruct (Z.eq_dec (id mod 2 ^ 3) 0) as [E0|E0]; [rewrite E0; cbn; lia|].
      apply Z.log2_lt_pow2; lia.
    + destruct (Z.eq_dec (Z.shiftl n 3 mod 2 ^ 32) 0) as [E0|E0]; [rewrite E0; cbn; lia|].
      apply Z.log2_lt_pow2; lia.
Qed.

(** X1. [command_integer] and the two readers of a command integer are
    inverse to each other: a command integer made from an id and a count
    gives back the id (its low 3 bits) and the count (its low 29 bits: the
    shift by 3 drops the rest), and is an unsigned 32-bit integer; and
    every unsigned 32-bit integer is the command integer of its id and its
    count. *)
Theorem command_integer_roundtrip (id n c : Z) :
  is_uint32 c ->
  get_command_id (command_integer id n) = id mod 8 /\
  get_command_count (command_integer id n) = n mod 2 ^ 29 /\
  is_uint32 (command_integer id n) /\
  command_integer (get_command_id c) (get_command_count c) = c.
Proof.
  intros Hc. repeat split; try apply is_uint32_command_integer.
  - apply command_id_mod.
  - apply command_count_mod.
  - now apply command_integer_inverse.
Qed.

(** ** [det] *)

Lemma det_antisym (a b : point) : int64 (det a b + det b a) = 0.
Proof.
  unfold det.
  rewrite int64_add_idem, Z.add_comm, int64_add_idem.
  replace (_ + _) with 0 by ring. reflexivity.
Qed.

Lemma det_diag (a : point) : det a a = 0.
Proof. unfold det. now rewrite Z.sub_diag. Qed.

(** X2. On points with 32-bit coordinates [det] does not overflow its
    64-bit arithmetic: it is the cross product [a.x * b.y - b.x * a.y]
    itself, so it changes sign when its arguments are swapped. *)
Theorem det_without_overflow (a b : point) :
  is_int32 (x a) -> is_int32 (y a) -> is_int32 (x b) -> is_int32 (y b) ->
  det a b = x a * y b - x b * y a /\
  det b a = - det a b /\
  - 2 ^ 63 < det a b < 2 ^ 63.
Proof.
  intros Hxa Hya Hxb Hyb.
  rewrite (det_exact a b), (det_exact b a) by assumption.
  unfold is_int32 in *.
  assert (- 2 ^ 62 < x a * y b <= 2 ^ 62) by nia.
  assert (- 2 ^ 62 < x b * y a <= 2 ^ 62) by nia.
  repeat split; lia.
Qed.

(** ** What a successful run has read *)

Lemma next_command_Ok_inv (e : Z) (d d' : decoder) (b : bool) :
  m_count d = 0 ->
  next_command e d = Ok (b, d') ->
  match m_it d with
  | [] => b = false /\ d' = d
  | c :: rest =>
      b = true /\ get_command_id c = e /\
      (e = 7 -> get_command_count c = 1) /\
      d' = mk_decoder rest (m_cursor d) e
             (if e =? 7 then 0 else get_command_count c) (m_strict d)
  end.
Proof.
  intros Hc. unfold next_command, vtzero_assert. rewrite Hc. cbn [Z.eqb].
  destruct (m_it d) as [|c rest].
  { intros Heq. injection Heq as <- <-. split; reflexivity. }
  change (command_close_path 0) with 7.
  destruct (Z.eqb_spec (get_command_id c) 7) as [Hid|Hid].
  - destruct (Z.eqb_spec (get_command_count c) 1) as [Hn|Hn];
      cbn [negb bind]; [|discriminate].
    cbn [m_command_id m_count m_cursor m_strict].
    destruct (Z.eqb_spec (get_command_id c) e) as [He|He];
      cbn [negb]; [|discriminate].
    intros Heq. injection Heq as <- <-.
    assert (E : (e =? 7) = true) by (apply Z.eqb_eq; congruence).
    rewrite E, He. repeat split; congruence.
  - cbn [bind m_command_id m_count m_cursor m_strict].
    destruct (Z.eqb_spec (get_command_id c) e) as [He|He];
      cbn [negb]; [|discriminate].
    intros Heq. injection Heq as <- <-.
    assert (E : (e =? 7) = false) by (apply Z.eqb_neq; congruence).
    rewrite E, He. repeat split; congruence.
Qed.

Lemma next_point_Ok_inv (d d' : decoder) (p : point) :
  next_point d = Ok (p, d') ->
  exists zx zy rest,
    m_it d = zx :: zy :: rest /\ 0 < m_count d /\
    checks_zero_delta d && zero_delta (zx, zy) = false /\
    p = move (m_cursor d) (zx, zy) /\
    d' = mk_decoder rest p (m_command_id d) (uint32 (m_count d - 1))
           (m_strict d).
Proof.
  unfold next_point, vtzero_assert.
  destruct (Z.ltb_spec 0 (m_count d)) as [Hc|Hc]; [|discriminate].
  destruct (m_it d) as [|zx [|zy rest]]; try discriminate.
  destruct (_ && _) eqn:Hz; [discriminate|].
  intros Heq. injection Heq as <- <-.
  exists zx, zy, rest. repeat split; try assumption.
  unfold checks_zero_delta, zero_delta. cbn [fst snd].
  now rewrite <- !andb_assoc in *.
Qed.

Section Accepts.

Context {H : Type} `{GeomHandler H}.

Lemma points_loop_Ok_inv (emit : point -> H -> H) :
  forall (fuel : nat) (d d' : decoder) (h : H),
    0 <= m_count d < 2 ^ 32 ->
    snd (points_loop emit fuel d h) = Ok d' ->
    exists ps,
      m_it d = flatten ps ++ m_it d' /\
      Z.of_nat (length ps) = m_count d /\
      m_count d' = 0 /\ m_strict d' = m_strict d /\
      (checks_zero_delta d = true ->
       forallb (fun p => negb (zero_delta p)) ps = true).
Proof.
  induction fuel as [|fuel IH]; intros d d' h Hc Hloop;
    cbn [points_loop] in Hloop; unfold count in Hloop;
    destruct (Z.ltb_spec 0 (m_count d)) as [Hpos|Hpos];
    try discriminate;
    try (injection Hloop as <-; exists []; cbn [flatten flat_map app length];
         repeat split; try reflexivity; lia).
  apply mbind_snd_Ok in Hloop.
  destruct Hloop as ([p d1] & h1 & Hnext & Hloop).
  unfold lift in Hnext. injection Hnext as <- Hnext.
  apply mbind_snd_Ok in Hloop. destruct Hloop as ([] & h2 & _ & Hloop).
  apply next_point_Ok_inv in Hnext.
  destruct Hnext as (zx & zy & rest & Hit & _ & Hz & Hp & Hd1).
  assert (Hc1 : m_count d1 = m_count d - 1).
  { subst d1. cbn [m_count]. apply uint32_small. unfold is_uint32. lia. }
  apply IH in Hloop; [|lia].
  destruct Hloop as (ps & Hit1 & Hlen & Hc' & Hs' & Hzs).
  exists ((zx, zy) :: ps).
  rewrite Hd1 in Hit1, Hs', Hzs. cbn [m_it m_strict] in Hit1, Hs'.
  unfold checks_zero_delta in Hzs at 1. cbn [m_strict m_command_id] in Hzs.
  fold (checks_zero_delta d) in Hzs.
  repeat split; try assumption.
  - rewrite Hit, Hit1. reflexivity.
  - cbn [length]. lia.
  - intros Hchk. cbn [forallb]. rewrite Hchk in Hz. cbn [andb] in Hz.
    rewrite Hz. cbn [negb andb]. now apply Hzs.
Qed.

Lemma ring_loop_Ok_inv :
  forall (fuel : nat) (d d' : decoder) (sum sum' : Z) (lp lp' : point)
         (h : H),
    0 <= m_count d < 2 ^ 32 ->
    snd (ring_loop fuel d sum lp h) = Ok (d', sum', lp') ->
    exists ps,
      m_it d = flatten ps ++ m_it d' /\
      Z.of_nat (length ps) = m_count d /\
      m_count d' = 0 /\ m_strict d' = m_strict d /\
      (checks_zero_delta d = true ->
       forallb (fun p => negb (zero_delta p)) ps = true).
Proof.
  induction fuel as [|fuel IH]; intros d d' sum sum' lp lp' h Hc Hloop;
    cbn [ring_loop] in Hloop; unfold count in Hloop;
    destruct (Z.ltb_spec 0 (m_count d)) as [Hpos|Hpos];
    try discriminate;
    try (injection Hloop as <- _ _; exists [];
         cbn [flatten flat_map app length];
         repeat split; try reflexivity; lia).
  apply mbind_snd_Ok in Hloop.
  destruct Hloop as ([p d1] & h1 & Hnext & Hloop).
  unfold lift in Hnext. injection Hnext as <- Hnext.
  apply mbind_snd_Ok in Hloop. destruct Hloop as ([] & h2 & _ & Hloop).
  apply next_point_Ok_inv in Hnext.
  destruct Hnext as (zx & zy & rest & Hit & _ & Hz & Hp & Hd1).
  assert (Hc1 : m_count d1 = m_count d - 1).
  { subst d1. cbn [m_count]. apply uint32_small. unfold is_uint32. lia. }
  apply IH in Hloop; [|lia].
  destruct Hloop as (ps & Hit1 & Hlen & Hc' & Hs' & Hzs).
  exists ((zx, zy) :: ps).
  rewrite Hd1 in Hit1, Hs', Hzs. cbn [m_it m_strict] in Hit1, Hs'.
  unfold checks_zero_delta in Hzs at 1. cbn [m_strict m_command_id] in Hzs.
  fold (checks_zero_delta d) in Hzs.
  repeat split; try assumption.
  - rewrite Hit, Hit1. reflexivity.
  - cbn [length]. lia.
  - intros Hchk. cbn [forallb]. rewrite Hchk in Hz. cbn [andb] in Hz.
    rewrite Hz. cbn [negb andb]. now apply Hzs.
Qed.


(** A command integer with this id and count is the one [command_integer]
    makes. *)
Lemma command_is (c id n : Z) :
  is_uint32 c -> get_command_id c = id -> get_command_count c = n ->
  c = command_integer id n.
Proof.
  intros Hc Hid Hn. rewrite <- Hid, <- Hn. symmetry.
  now apply command_integer_inverse.
Qed.

Lemma linestring_loop_Ok_inv (strict : bool) :
  forall (fuel : nat) (d : decoder) (h : H),
    m_count d = 0 -> m_strict d = strict ->
    Forall is_uint32 (m_it d) ->
    snd (linestring_loop fuel d h) = Ok tt ->
    exists rs, is_linestring_stream strict (m_it d) rs.
Proof.
  induction fuel as [|fuel IH]; intros d h Hc Hst Hs Hloop; [cbn in Hloop; discriminate|].
  cbn [linestring_loop] in Hloop.
  apply mbind_snd_Ok in Hloop.
  destruct Hloop as ([b d1] & h1 & Hnext & Hloop).
  unfold lift in Hnext. injection Hnext as <- Hnext.
  apply next_command_Ok_inv in Hnext; [|assumption].
  destruct (m_it d) as [|c rest] eqn:Hit.
  { exists []. split; [reflexivity | constructor]. }
  destruct Hnext as (-> & Hid & _ & Hd1). cbn [negb] in Hloop.
  change (command_move_to 0) with 1 in *.
  change (1 =? 7) with false in Hd1. cbv iota in Hd1.
  apply Forall_cons_iff in Hs. destruct Hs as [Hcu Hs].
  unfold count in Hloop. rewrite Hd1 in Hloop. cbn [m_count] in Hloop.
  destruct (Z.eqb_spec (get_command_count c) 1) as [Hn|Hn];
    cbn [negb] in Hloop; [|cbn in Hloop; discriminate].
  rewrite Hn in Hd1, Hloop. rewrite <- Hd1 in Hloop.
  apply mbind_snd_Ok in Hloop.
  destruct Hloop as ([p d2] & h2 & Hpoint & Hloop).
  unfold lift in Hpoint. injection Hpoint as <- Hpoint.
  apply next_point_Ok_inv in Hpoint.
  destruct Hpoint as (zx & zy & rest2 & Hit1 & _ & _ & Hp & Hd2).
  rewrite Hd1 in Hit1, Hd2. cbn [m_it m_count m_command_id m_strict m_cursor]
    in Hit1, Hd2. change (uint32 (1 - 1)) with 0 in Hd2.
  subst rest.
  apply Forall_cons_iff in Hs. destruct Hs as [_ Hs].
  apply Forall_cons_iff in Hs. destruct Hs as [_ Hs].
  apply mbind_snd_Ok in Hloop.
  destruct Hloop as ([b d3] & h3 & Hline & Hloop).
  unfold lift in Hline. injection Hline as <- Hline.
  apply next_command_Ok_inv in Hline; [|now rewrite Hd2].
  subst d2. cbn [m_it m_cursor m_strict] in Hline.
  destruct rest2 as [|c2 rest3].
  { destruct Hline as [-> _]. cbn in Hloop. discriminate. }
  destruct Hline as (-> & Hid2 & _ & Hd3). cbn [negb] in Hloop.
  change (command_line_to 0) with 2 in *.
  change (2 =? 7) with false in Hd3. cbv iota in Hd3.
  apply Forall_cons_iff in Hs. destruct Hs as [Hc2u Hs].
  pose proof (command_count_bounds c2 Hc2u) as Hn2.
  unfold count in Hloop.
  assert (Hc3 : m_count d3 = get_command_count c2) by now rewrite Hd3.
  rewrite Hc3 in Hloop.
  destruct (Z.eqb_spec (get_command_count c2) 0) as [Hz|Hz];
    [cbn in Hloop; discriminate|].
  apply mbind_snd_Ok in Hloop. destruct Hloop as ([] & h4 & _ & Hloop).
  apply mbind_snd_Ok in Hloop. destruct Hloop as ([] & h5 & _ & Hloop).
  apply mbind_snd_Ok in Hloop. destruct Hloop as (d4 & h6 & Hpts & Hloop).
  apply mbind_snd_Ok in Hloop. destruct Hloop as ([] & h7 & _ & Hloop).
  assert (Hpts' : snd (points_loop linestring_point
                         (S (length (m_it d3))) d3 h5) = Ok d4)
    by now rewrite Hpts.
  apply points_loop_Ok_inv in Hpts'; [|lia].
  destruct Hpts' as (ps & Hit3 & Hlen & Hc4 & Hs4 & Hzs).
  assert (Hit3' : rest3 = flatten ps ++ m_it d4).
  { rewrite <- Hit3, Hd3. reflexivity. }
  assert (Hst3 : m_strict d3 = strict) by (rewrite Hd3; exact Hst).
  apply IH in Hloop; try assumption.
  2:{ congruence. }
  2:{ rewrite Hit3' in Hs. now apply Forall_app in Hs. }
  destruct Hloop as (rs & Hrs & Hok).
  exists (mk_path (zx, zy) ps :: rs). split.
  - unfold linestring_stream. cbn [flat_map]. fold (linestring_stream rs).
    rewrite <- Hrs. unfold linestring_commands, line_count.
    cbn [path_start path_line fst snd app]. rewrite Hlen, Hc3, Hit3'.
    rewrite (command_is c 1 1) by assumption.
    change (command_integer 1 1) with (command_move_to 1).
    do 4 f_equal. now apply command_is.
  - constructor; [|assumption].
    unfold linestring_ok, count_fits, line_count, no_zero_delta.
    cbn [path_line]. rewrite Hlen, Hc3. repeat split; try lia.
    intros Hstrict. apply Hzs. unfold checks_zero_delta.
    rewrite Hst3, Hstrict, Hd3. reflexivity.
Qed.

Lemma polygon_loop_Ok_inv (strict : bool) :
  forall (fuel : nat) (d : decoder) (h : H),
    m_count d = 0 -> m_strict d = strict ->
    Forall is_uint32 (m_it d) ->
    snd (polygon_loop strict fuel d h) = Ok tt ->
    exists rs, is_polygon_stream strict (m_it d) rs.
Proof.
  induction fuel as [|fuel IH]; intros d h Hc Hst Hs Hloop; [cbn in Hloop; discriminate|].
  cbn [polygon_loop] in Hloop.
  apply mbind_snd_Ok in Hloop.
  destruct Hloop as ([b d1] & h1 & Hnext & Hloop).
  unfold lift in Hnext. injection Hnext as <- Hnext.
  apply next_command_Ok_inv in Hnext; [|assumption].
  destruct (m_it d) as [|c rest] eqn:Hit.
  { exists []. split; [reflexivity | constructor]. }
  destruct Hnext as (-> & Hid & _ & Hd1). cbn [negb] in Hloop.
  change (command_move_to 0) with 1 in *.
  change (1 =? 7) with false in Hd1. cbv iota in Hd1.
  apply Forall_cons_iff in Hs. destruct Hs as [Hcu Hs].
  unfold count in Hloop. rewrite Hd1 in Hloop. cbn [m_count] in Hloop.
  destruct (Z.eqb_spec (get_command_count c) 1) as [Hn|Hn];
    cbn [negb] in Hloop; [|cbn in Hloop; discriminate].
  rewrite Hn in Hd1, Hloop. rewrite <- Hd1 in Hloop.
  apply mbind_snd_Ok in Hloop.
  destruct Hloop as ([p d2] & h2 & Hpoint & Hloop).
  unfold lift in Hpoint. injection Hpoint as <- Hpoint.
  apply next_point_Ok_inv in Hpoint.
  destruct Hpoint as (zx & zy & rest2 & Hit1 & _ & _ & Hp & Hd2).
  rewrite Hd1 in Hit1, Hd2. cbn [m_it m_count m_command_id m_strict m_cursor]
    in Hit1, Hd2. change (uint32 (1 - 1)) with 0 in Hd2.
  subst rest.
  apply Forall_cons_iff in Hs. destruct Hs as [_ Hs].
  apply Forall_cons_iff in Hs. destruct Hs as [_ Hs].
  cbv zeta in Hloop.
  apply mbind_snd_Ok in Hloop.
  destruct Hloop as ([b d3] & h3 & Hline & Hloop).
  unfold lift in Hline. injection Hline as <- Hline.
  apply next_command_Ok_inv in Hline; [|now rewrite Hd2].
  subst d2. cbn [m_it m_cursor m_strict] in Hline.
  destruct rest2 as [|c2 rest3].
  { destruct Hline as [-> _]. cbn in Hloop. discriminate. }
  destruct Hline as (-> & Hid2 & _ & Hd3). cbn [negb] in Hloop.
  change (command_line_to 0) with 2 in *.
  change (2 =? 7) with false in Hd3. cbv iota in Hd3.
  apply Forall_cons_iff in Hs. destruct Hs as [Hc2u Hs].
  pose proof (command_count_bounds c2 Hc2u) as Hn2.
  unfold count in Hloop.
  assert (Hc3 : m_count d3 = get_command_count c2) by now rewrite Hd3.
  rewrite Hc3 in Hloop.
  destruct (strict && (get_command_count c2 <=? 1)) eqn:Hcnt;
    [cbn in Hloop; discriminate|].
  apply mbind_snd_Ok in Hloop. destruct Hloop as ([] & h4 & _ & Hloop).
  apply mbind_snd_Ok in Hloop. destruct Hloop as ([] & h5 & _ & Hloop).
  apply mbind_snd_Ok in Hloop.
  destruct Hloop as ([[d4 sum] lp] & h6 & Hpts & Hloop).
  assert (Hpts' : snd (ring_loop (S (length (m_it d3))) d3 0 p h5) =
                  Ok (d4, sum, lp))
    by now rewrite Hpts.
  apply ring_loop_Ok_inv in Hpts'; [|lia].
  destruct Hpts' as (ps & Hit3 & Hlen & Hc4 & Hs4 & Hzs).
  assert (Hit3' : rest3 = flatten ps ++ m_it d4).
  { rewrite <- Hit3, Hd3. reflexivity. }
  assert (Hst3 : m_strict d3 = strict) by (rewrite Hd3; exact Hst).
  rewrite Hit3' in Hs. apply Forall_app in Hs. destruct Hs as [_ Hs].
  apply mbind_snd_Ok in Hloop.
  destruct Hloop as ([b d5] & h7 & Hclose & Hloop).
  unfold lift in Hclose. injection Hclose as <- Hclose.
  apply next_command_Ok_inv in Hclose; [|assumption].
  destruct (m_it d4) as [|c3 rest5] eqn:Hit4.
  { destruct Hclose as [-> _]. cbn in Hloop. discriminate. }
  destruct Hclose as (-> & Hid3 & Hn3 & Hd5). cbn [negb] in Hloop.
  change (command_close_path 0) with 7 in *.
  change (7 =? 7) with true in Hd5. cbv iota in Hd5.
  specialize (Hn3 eq_refl).
  apply Forall_cons_iff in Hs. destruct Hs as [Hc3u Hs].
  cbv zeta in Hloop.
  apply mbind_snd_Ok in Hloop. destruct Hloop as ([] & h8 & _ & Hloop).
  apply mbind_snd_Ok in Hloop. destruct Hloop as ([] & h9 & _ & Hloop).
  apply IH in Hloop.
  2:{ now rewrite Hd5. }
  2:{ rewrite Hd5. cbn [m_strict]. congruence. }
  2:{ now rewrite Hd5. }
  destruct Hloop as (rs & Hrs & Hok).
  rewrite Hd5 in Hrs. cbn [m_it] in Hrs.
  exists (mk_path (zx, zy) ps :: rs). split.
  - unfold polygon_stream. cbn [flat_map]. fold (polygon_stream rs).
    rewrite <- Hrs. unfold ring_commands, linestring_commands, line_count.
    cbn [path_start path_line fst snd app]. rewrite Hlen, Hc3, Hit3'.
    rewrite (command_is c 1 1) by assumption.
    rewrite (command_is c3 7 1) by assumption.
    change (command_integer 1 1) with (command_move_to 1).
    change (command_integer 7 1) with (command_close_path 1).
    rewrite <- app_assoc. cbn [app].
    do 4 f_equal. now apply command_is.
  - constructor; [|assumption].
    unfold ring_ok, ring_strict_ok, count_fits, line_count, no_zero_delta.
    cbn [path_line]. rewrite Hlen, Hc3. split; [lia|].
    intros Hstrict. rewrite Hstrict in Hcnt. cbn [andb] in Hcnt.
    apply Z.leb_gt in Hcnt. apply andb_true_iff. split.
    + apply Z.ltb_lt. lia.
    + apply Hzs. unfold checks_zero_delta.
      rewrite Hst3, Hstrict, Hd3. reflexivity.
Qed.

Lemma linestring_ok_all (strict : bool) (rs : list path) :
  Forall (linestring_ok strict) rs ->
  Forall count_fits rs /\ Forall (fun r => 1 <= line_count r) rs /\
  (strict = false \/ forallb no_zero_delta rs = true).
Proof.
  induction 1 as [|r rs (Hfit & Hpos & Hz) _ (IH1 & IH2 & IH3)].
  - split; [constructor|split; [constructor|now right]].
  - split; [now constructor|split; [now constructor|]].
    destruct strict; [right|now left]. cbn [forallb].
    rewrite (Hz eq_refl). destruct IH3 as [IH3|IH3]; [discriminate|].
    now rewrite IH3.
Qed.

Lemma ring_ok_all (strict : bool) (rs : list path) :
  Forall (ring_ok strict) rs ->
  Forall count_fits rs /\
  (strict = false \/ forallb ring_strict_ok rs = true).
Proof.
  induction 1 as [|r rs (Hfit & Hz) _ (IH1 & IH3)].
  - split; [constructor|now right].
  - split; [now constructor|].
    destruct strict; [right|now left]. cbn [forallb].
    rewrite (Hz eq_refl). destruct IH3 as [IH3|IH3]; [discriminate|].
    now rewrite IH3.
Qed.


Lemma decode_point_geometry_Ok_inv (s : list Z) (strict : bool) (h : H) :
  Forall is_uint32 s ->
  snd (decode_point_geometry (mk_geometry s POINT) strict h) = Ok tt ->
  exists n ps, is_point_stream s n ps.
Proof.
  intros Hs Hdec. unfold decode_point_geometry, massert in Hdec.
  cbn [geometry_type geometry_data GeomType_eqb] in Hdec.
  apply mbind_snd_Ok in Hdec.
  destruct Hdec as ([b d1] & h1 & Hnext & Hdec).
  unfold lift in Hnext. injection Hnext as <- Hnext.
  apply next_command_Ok_inv in Hnext; [|reflexivity].
  cbn [geometry_decoder m_it m_cursor m_strict] in Hnext.
  destruct s as [|c rest].
  { destruct Hnext as [-> _]. cbn in Hdec. discriminate. }
  destruct Hnext as (-> & Hid & _ & Hd1). cbn [negb] in Hdec.
  change (command_move_to 0) with 1 in *.
  change (1 =? 7) with false in Hd1. cbv iota in Hd1.
  apply Forall_cons_iff in Hs. destruct Hs as [Hcu Hs].
  pose proof (command_count_bounds c Hcu) as Hn.
  unfold count in Hdec.
  assert (Hc1 : m_count d1 = get_command_count c) by now rewrite Hd1.
  rewrite Hc1 in Hdec.
  destruct (Z.eqb_spec (get_command_count c) 0) as [Hz|Hz];
    [cbn in Hdec; discriminate|].
  apply mbind_snd_Ok in Hdec. destruct Hdec as ([] & h2 & _ & Hdec).
  apply mbind_snd_Ok in Hdec. destruct Hdec as (d2 & h3 & Hpts & Hdec).
  assert (Hpts' : snd (points_loop points_point (S (length (m_it d1))) d1
                         h2) = Ok d2)
    by now rewrite Hpts.
  apply points_loop_Ok_inv in Hpts'; [|lia].
  destruct Hpts' as (ps & Hit & Hlen & _).
  unfold done in Hdec. destruct (m_it d2) as [|t tail];
    [|cbn in Hdec; discriminate].
  rewrite app_nil_r in Hit. rewrite Hd1 in Hit. cbn [m_it] in Hit.
  exists (get_command_count c), ps, c. subst rest.
  repeat split; try assumption; lia.
Qed.

(** X3. [decode_linestring_geometry] succeeds exactly on a sequence of
    linestrings, each a MoveTo command of count 1 with its pair and a
    LineTo command of count [n >= 1] with its [n] pairs (in strict mode,
    none of them with both deltas zero); it then calls, for each linestring,
    [linestring_begin (n + 1)], [linestring_point] on the [n + 1] points,
    the cursor running on from one linestring to the next, and
    [linestring_end]; on every other stream it throws a geometry
    exception. *)
Theorem decode_linestring_geometry_spec (s : list Z) (strict : bool)
  (h : H) :
  Forall is_uint32 s ->
  (forall rs,
     is_linestring_stream strict s rs ->
     decode_linestring_geometry (mk_geometry s LINESTRING) strict h =
     (replay (linestring_events rs) h, Ok tt)) /\
  ((forall rs, ~ is_linestring_stream strict s rs) ->
   exists h' msg,
     decode_linestring_geometry (mk_geometry s LINESTRING) strict h =
     (h', Throw (geometry_exception msg))).
Proof.
  intros Hs. split.
  - intros rs [-> Hok]. apply linestring_ok_all in Hok.
    destruct Hok as (Hfit & Hpos & Hz).
    now apply decode_linestring_geometry_ok.
  - intros Hno.
    pose proof (decode_linestring_geometry_total s strict h Hs) as Htot.
    destruct (decode_linestring_geometry _ strict h) as [h' o] eqn:Hdec.
    cbn [snd] in Htot. destruct o as [[]|[msg| | | |]| |]; try easy.
    + exfalso.
      assert (Hok : snd (decode_linestring_geometry
                           (mk_geometry s LINESTRING) strict h) = Ok tt)
        by now rewrite Hdec.
      unfold decode_linestring_geometry, massert in Hok.
      cbn [geometry_type geometry_data GeomType_eqb] in Hok.
      apply (linestring_loop_Ok_inv strict) in Hok;
        try reflexivity; try assumption.
      destruct Hok as [rs Hrs]. exact (Hno rs Hrs).
    + eauto.
Qed.

(** X4. [decode_polygon_geometry] succeeds exactly on a sequence of rings,
    each a MoveTo command of count 1 with its pair, a LineTo command with
    as many pairs as its count and a ClosePath command of count 1 (in
    strict mode with a LineTo count above 1 and no pair with both deltas
    zero); on every other stream it throws a geometry exception. *)
Theorem decode_polygon_geometry_accepts (s : list Z) (strict : bool)
  (h : H) :
  Forall is_uint32 s ->
  let result := snd (decode_polygon_geometry (mk_geometry s POLYGON)
                       strict h) in
  (result = Ok tt <-> exists rs, is_polygon_stream strict s rs) /\
  (result <> Ok tt -> exists msg, result = Throw (geometry_exception msg)).
Proof.
  intros Hs result. split; [split|].
  - intros Hok. subst result.
    unfold decode_polygon_geometry, massert in Hok.
    cbn [geometry_type geometry_data GeomType_eqb] in Hok.
    apply (polygon_loop_Ok_inv strict) in Hok;
      try reflexivity; assumption.
  - intros (rs & -> & Hok). apply ring_ok_all in Hok.
    destruct Hok as (Hfit & Hz). subst result.
    now rewrite decode_polygon_geometry_ok.
  - intros Hbad.
    pose proof (decode_polygon_geometry_total s strict h Hs) as Htot.
    fold result in Htot.
    destruct result as [[]|[msg| | | |]| |]; try easy. eauto.
Qed.

Lemma ring_sum_degenerate (c : point) (r : path) :
  line_count r <= 1 -> ring_sum c r = 0.
Proof.
  unfold line_count, ring_sum, closed_ring, path_points. intros Hle.
  destruct (path_line r) as [|p [|q ps]]; cbn [length] in Hle; try lia.
  - cbn [cursors app shoelace]. now rewrite det_diag.
  - cbn [cursors app shoelace]. rewrite Z.add_0_r. apply det_antisym.
Qed.

(** X5. A ring whose LineTo count is 0 or 1, which non-strict mode decodes,
    has no area: its shoelace sum is 0, and the decoder reports it as not
    an outer ring, [ring_end false]. *)
Theorem degenerate_ring_is_not_outer
  (pre : list path) (r : path) (post : list path) (h : H) :
  Forall count_fits (pre ++ r :: post) ->
  line_count r <= 1 ->
  let c := paths_cursor (mk_point 0 0) pre in
  decode_polygon_geometry
    (mk_geometry (polygon_stream (pre ++ r :: post)) POLYGON) false h =
  (replay (polygon_events pre ++
           (ev_ring_begin (line_count r + 2) ::
            map ev_ring_point (closed_ring c r) ++ [ev_ring_end false]) ++
           paths_events ring_events (path_cursor c r) post) h,
   Ok tt).
Proof.
  intros Hfit Hle c.
  rewrite decode_polygon_geometry_ok by (assumption || now left).
  unfold polygon_events. rewrite paths_events_app. cbn [paths_events].
  unfold ring_events at 2. fold c.
  now rewrite (ring_sum_degenerate c r Hle).
Qed.

(** X6. Strict mode only adds rejections: a stream that strict mode decodes is
    decoded by non-strict mode with the same calls of the handler. *)
Theorem strict_decoding_refines (s : list Z) (h : H) :
  Forall is_uint32 s ->
  (snd (decode_point_geometry (mk_geometry s POINT) true h) = Ok tt ->
   decode_point_geometry (mk_geometry s POINT) false h =
   decode_point_geometry (mk_geometry s POINT) true h) /\
  (snd (decode_linestring_geometry (mk_geometry s LINESTRING) true h) =
   Ok tt ->
   decode_linestring_geometry (mk_geometry s LINESTRING) false h =
   decode_linestring_geometry (mk_geometry s LINESTRING) true h) /\
  (snd (decode_polygon_geometry (mk_geometry s POLYGON) true h) = Ok tt ->
   decode_polygon_geometry (mk_geometry s POLYGON) false h =
   decode_polygon_geometry (mk_geometry s POLYGON) true h).
Proof.
  intros Hs. repeat split; intros Hok.
  - apply decode_point_geometry_Ok_inv in Hok; [|assumption].
    destruct Hok as (n & ps & c & -> & Hid & Hn & Hpos & Hlen).
    apply Forall_inv in Hs. pose proof (command_count_bounds c Hs).
    rewrite !decode_point_geometry_ok; try assumption; try lia.
    reflexivity.
  - unfold decode_linestring_geometry, massert in Hok.
    cbn [geometry_type geometry_data GeomType_eqb] in Hok.
    apply (linestring_loop_Ok_inv true) in Hok;
      try reflexivity; try assumption.
    destruct Hok as (rs & Heq & Hok). cbn [geometry_decoder m_it] in Heq.
    subst s. apply linestring_ok_all in Hok.
    destruct Hok as (Hfit & Hpos & Hz).
    rewrite !decode_linestring_geometry_ok; try assumption;
      [reflexivity | now left].
  - unfold decode_polygon_geometry, massert in Hok.
    cbn [geometry_type geometry_data GeomType_eqb] in Hok.
    apply (polygon_loop_Ok_inv true) in Hok;
      try reflexivity; try assumption.
    destruct Hok as (rs & Heq & Hok). cbn [geometry_decoder m_it] in Heq.
    subst s. apply ring_ok_all in Hok.
    destruct Hok as (Hfit & Hz).
    rewrite !decode_polygon_geometry_ok; try assumption;
      [reflexivity | now left].
Qed.

End Accepts.

(** [operator!=] is the negation of [operator==], which is equality of
    points. *)
Lemma point_neqb_spec (a b : point) : point_neqb a b = true <-> a <> b.
Proof.
  unfold point_neqb, point_eqb. destruct a as [xa ya], b as [xb yb].
  cbn [x y]. rewrite negb_true_iff, andb_false_iff, !Z.eqb_neq.
  split.
  - intros [Hx|Hy] Heq; injection Heq; intros; congruence.
  - intros Hne. destruct (Z.eq_dec xa xb) as [->|Hx]; [|now left].
    right. intros ->. now apply Hne.
Qed.

End GeometryFacts.

(** * Properties of the record codec *)

Module ProtozeroFacts.

Import Protozero.

Lemma decode_varint_loop_shorter :
  forall (n : nat) (shift val : Z) (p rest : list byte) (v : Z),
    decode_varint_loop n shift val p = Ok (v, rest) ->
    (length rest < length p)%nat.
Proof.
  induction n as [|n IH]; intros shift val p rest v Hd; [discriminate|].
  cbn [decode_varint_loop] in Hd. destruct p as [|b p]; [discriminate|].
  destruct (byte_value b <? 128).
  - injection Hd as _ <-. cbn [length]. lia.
  - apply IH in Hd. cbn [length]. lia.
Qed.

Lemma get_varint64_inv (r r' : pbf_reader) (v : Z) :
  get_varint64 r = (r', Ok v) ->
  m_wire_type r' = m_wire_type r /\ m_tag r' = m_tag r /\
  (length (m_data r') < length (m_data r))%nat.
Proof.
  unfold get_varint64. destruct (decode_varint (m_data r)) as [[v' rest]| | |]
    eqn:Hd; try discriminate.
  intros Heq. injection Heq as <- <-. cbn [m_wire_type m_tag m_data].
  repeat split. now apply decode_varint_loop_shorter in Hd.
Qed.

Lemma get_varint32_inv (r r' : pbf_reader) (v : Z) :
  get_varint32 r = (r', Ok v) ->
  exists v', get_varint64 r = (r', Ok v') /\ v = uint32 v'.
Proof.
  unfold get_varint32, mbind, ret.
  destruct (get_varint64 r) as [r1 [v'| | |]]; try discriminate.
  intros Heq. injection Heq as <- <-. eauto.
Qed.

Lemma skip_bytes_inv (len : Z) (r r' : pbf_reader) (b : list byte) :
  skip_bytes len r = (r', Ok b) ->
  m_wire_type r' = m_wire_type r /\ m_tag r' = m_tag r /\
  (length (m_data r') <= length (m_data r))%nat.
Proof.
  unfold skip_bytes. destruct (_ <? len); [discriminate|].
  intros Heq. injection Heq as <- <-. cbn [m_wire_type m_tag m_data].
  repeat split. rewrite length_skipn. lia.
Qed.

(** What [next] has established when it returns true. *)
Lemma next_true_inv (r r1 : pbf_reader) :
  next r = (r1, Ok true) ->
  tag_in_range (m_tag r1) = true /\
  known_wire_type (m_wire_type r1) = true /\
  (length (m_data r1) < length (m_data r))%nat.
Proof.
  unfold next. destruct (m_data r) as [|b p] eqn:Hdata; [discriminate|].
  unfold mbind at 1.
  destruct (get_varint32 r) as [r0 [value| | |]] eqn:Hget; try discriminate.
  apply get_varint32_inv in Hget. destruct Hget as (v' & Hget & _).
  apply get_varint64_inv in Hget. destruct Hget as (_ & _ & Hlen).
  unfold mbind, call, massert.
  destruct (tag_in_range (Z.shiftr value 3)) eqn:Htag; [|discriminate].
  destruct (known_wire_type (Z.land value 7)) eqn:Hwire; [|discriminate].
  unfold ret. intros Heq. injection Heq as <-.
  cbn [m_tag m_wire_type m_data]. rewrite Hdata in Hlen. cbn [length] in *.
  repeat split; assumption.
Qed.

Lemma next_false_inv (r r' : pbf_reader) :
  next r = (r', Ok false) -> m_data r = [] /\ r' = r.
Proof.
  unfold next. destruct (m_data r) as [|b p] eqn:Hdata.
  - intros Heq. injection Heq as <-. split; reflexivity.
  - unfold mbind at 1.
    destruct (get_varint32 r) as [r0 [value| | |]]; try discriminate.
    unfold mbind, call, massert.
    destruct (tag_in_range _); [|discriminate].
    destruct (known_wire_type _); discriminate.
Qed.

Lemma next_end (r : pbf_reader) :
  m_data r = [] -> next r = (r, Ok false).
Proof. intros Hdata. unfold next. now rewrite Hdata. Qed.

Lemma tag_in_range_nonzero (t : Z) :
  tag_in_range t = true -> (t =? 0) = false /\ 0 < t < 2 ^ 29.
Proof.
  unfold tag_in_range. intros Ht. apply orb_true_iff in Ht.
  destruct Ht as [Ht|Ht]; apply andb_true_iff in Ht; destruct Ht as [H1 H2].
  - apply Z.ltb_lt in H1, H2. split; [apply Z.eqb_neq|]; lia.
  - apply Z.ltb_lt in H1. apply Z.leb_le in H2.
    split; [apply Z.eqb_neq|]; lia.
Qed.

(** What reading the payload of a record says about the other ways to
    move over it. *)
Lemma read_payload_inv (r1 r2 : pbf_reader) (p : payload) :
  read_payload r1 = (r2, Ok p) ->
  m_wire_type r1 = field_wire_type (mk_field (m_tag r1) p) /\
  skip r1 = (r2, Ok tt) /\
  (length (m_data r2) <= length (m_data r1))%nat /\
  match p with
  | pl_varint v =>
      get_uint64 r1 = (r2, Ok v) /\ get_uint32 r1 = (r2, Ok (uint32 v))
  | pl_bytes b => get_view r1 = (r2, Ok (view b))
  | _ => True
  end.
Proof.
  unfold read_payload, skip, get_uint64, get_uint32, get_view, massert.
  destruct (negb (m_tag r1 =? 0)); [|discriminate].
  destruct (m_wire_type r1 =? varint) eqn:Hv.
  { apply Z.eqb_eq in Hv. unfold get_varint32, mbind, ret.
    destruct (get_varint64 r1) as [r' [v| | |]] eqn:Hget; try discriminate.
    intros Heq. injection Heq as <- <-.
    apply get_varint64_inv in Hget. cbn. repeat split; try easy. lia. }
  destruct (m_wire_type r1 =? fixed64) eqn:Hf64.
  { apply Z.eqb_eq in Hf64. unfold mbind, ret.
    destruct (skip_bytes 8 r1) as [r' [b| | |]] eqn:Hskip; try discriminate.
    intros Heq. injection Heq as <- <-.
    apply skip_bytes_inv in Hskip. cbn. repeat split; easy. }
  destruct (m_wire_type r1 =? length_delimited) eqn:Hld.
  { apply Z.eqb_eq in Hld. unfold mbind, ret.
    destruct (get_varint32 r1) as [r' [len| | |]] eqn:Hget; try discriminate.
    destruct (skip_bytes len r') as [r'' [b| | |]] eqn:Hskip;
      try discriminate.
    intros Heq. injection Heq as <- <-.
    apply get_varint32_inv in Hget. destruct Hget as (v' & Hget & _).
    apply get_varint64_inv in Hget. apply skip_bytes_inv in Hskip.
    cbn. repeat split; try easy. lia. }
  destruct (m_wire_type r1 =? fixed32) eqn:Hf32; [|discriminate].
  apply Z.eqb_eq in Hf32. unfold mbind, ret.
  destruct (skip_bytes 4 r1) as [r' [b| | |]] eqn:Hskip; try discriminate.
  intros Heq. injection Heq as <- <-.
  apply skip_bytes_inv in Hskip. cbn. repeat split; easy.
Qed.

Lemma reads_length (r : pbf_reader) (fs : list field) :
  reads r fs -> (length fs <= length (m_data r))%nat.
Proof.
  induction 1 as [r Hdata | r r1 r2 p fs Hnext Hread _ IH].
  - cbn [length]. lia.
  - apply next_true_inv in Hnext. apply read_payload_inv in Hread.
    cbn [length]. lia.
Qed.

Lemma records_loop_reads :
  forall (fuel : nat) (r r' : pbf_reader) (fs : list field),
    records_loop fuel r = (r', Ok fs) -> reads r fs.
Proof.
  induction fuel as [|fuel IH]; intros r r' fs Hloop; [discriminate|].
  cbn [records_loop] in Hloop. unfold mbind at 1 in Hloop.
  destruct (next r) as [r1 [[|]| | |]] eqn:Hnext; try discriminate.
  - cbn [negb] in Hloop. unfold mbind at 1, gets at 1 in Hloop.
    unfold mbind at 1 in Hloop.
    destruct (read_payload r1) as [r2 [p| | |]] eqn:Hread; try discriminate.
    unfold mbind, ret in Hloop.
    destruct (records_loop fuel r2) as [r3 [fs'| | |]] eqn:Hrest;
      try discriminate.
    injection Hloop as _ <-.
    eapply reads_field; eauto.
  - cbn [negb] in Hloop. unfold ret in Hloop. injection Hloop as _ <-.
    apply next_false_inv in Hnext. now apply reads_end.
Qed.

Lemma pbf_records_reads (data : list byte) (fs : list field) :
  pbf_records data = Ok fs -> reads (pbf_message (view data)) fs.
Proof.
  unfold pbf_records. intros Hrec.
  destruct (records_loop _ _) as [r' o] eqn:Hloop. cbn [snd] in Hrec.
  subst o. now apply records_loop_reads in Hloop.
Qed.

(** ** Fuel

    The loop that lists the records of a buffer has the fuel it needs: a
    turn of it takes at least one byte. *)

Lemma decode_varint_loop_fuel :
  forall (n : nat) (shift val : Z) (p : list byte),
    decode_varint_loop n shift val p <> OutOfFuel.
Proof.
  induction n as [|n IH]; intros shift val p; cbn [decode_varint_loop];
    [discriminate|].
  destruct p as [|b p]; [discriminate|].
  destruct (byte_value b <? 128); [discriminate | apply IH].
Qed.

Lemma get_varint64_fuel (r : pbf_reader) :
  snd (get_varint64 r) <> OutOfFuel.
Proof.
  unfold get_varint64, decode_varint.
  pose proof (decode_varint_loop_fuel 10 0 0 (Protozero.m_data r)) as Hd.
  destruct (decode_varint_loop 10 0 0 (Protozero.m_data r))
    as [[v rest]| | |]; cbn [snd]; congruence.
Qed.

Lemma get_varint32_fuel (r : pbf_reader) :
  snd (get_varint32 r) <> OutOfFuel.
Proof.
  unfold get_varint32, mbind, ret.
  pose proof (get_varint64_fuel r) as Hg.
  destruct (get_varint64 r) as [r' [v| | |]]; cbn [snd] in *; congruence.
Qed.

Lemma skip_bytes_fuel (len : Z) (r : pbf_reader) :
  snd (skip_bytes len r) <> OutOfFuel.
Proof. unfold skip_bytes. destruct (_ <? len); discriminate. Qed.

Lemma next_fuel (r : pbf_reader) : snd (next r) <> OutOfFuel.
Proof.
  unfold next. destruct (Protozero.m_data r); [discriminate|].
  unfold mbind at 1.
  pose proof (get_varint32_fuel r) as Hg.
  destruct (get_varint32 r) as [r' [v| | |]]; cbn [snd] in *;
    try congruence.
  unfold mbind, call, massert.
  destruct (tag_in_range _); [|discriminate].
  destruct (known_wire_type _); discriminate.
Qed.

Lemma read_payload_fuel (r : pbf_reader) :
  snd (read_payload r) <> OutOfFuel.
Proof.
  unfold read_payload, massert.
  destruct (negb _); [|discriminate].
  pose proof (get_varint64_fuel r) as H64.
  pose proof (get_varint32_fuel r) as H32.
  pose proof (skip_bytes_fuel 8 r) as H8.
  pose proof (skip_bytes_fuel 4 r) as H4.
  unfold mbind, ret.
  destruct (_ =? varint).
  { destruct (get_varint64 r) as [r' [v| | |]]; cbn [snd] in *; congruence. }
  destruct (_ =? fixed64).
  { destruct (skip_bytes 8 r) as [r' [v| | |]]; cbn [snd] in *; congruence. }
  destruct (_ =? length_delimited).
  { destruct (get_varint32 r) as [r' [len| | |]]; cbn [snd] in *;
      try congruence.
    pose proof (skip_bytes_fuel len r') as Hs.
    destruct (skip_bytes len r') as [r'' [v| | |]]; cbn [snd] in *;
      congruence. }
  destruct (_ =? fixed32); [|discriminate].
  destruct (skip_bytes 4 r) as [r' [v| | |]]; cbn [snd] in *; congruence.
Qed.

Lemma records_loop_fuel :
  forall (fuel : nat) (r : pbf_reader),
    (length (Protozero.m_data r) < fuel)%nat ->
    snd (records_loop fuel r) <> OutOfFuel.
Proof.
  induction fuel as [|fuel IH]; intros r Hfuel; [lia|].
  cbn [records_loop]. unfold mbind at 1.
  pose proof (next_fuel r) as Hn.
  destruct (next r) as [r1 [[|]| | |]] eqn:Hnext; cbn [snd negb] in *;
    try congruence; [|discriminate].
  apply next_true_inv in Hnext. destruct Hnext as (_ & _ & Hlen).
  unfold mbind at 1, gets at 1. unfold mbind at 1.
  pose proof (read_payload_fuel r1) as Hp.
  destruct (read_payload r1) as [r2 [p| | |]] eqn:Hread; cbn [snd] in *;
    try congruence.
  apply read_payload_inv in Hread. destruct Hread as (_ & _ & Hlen' & _).
  specialize (IH r2 ltac:(lia)).
  unfold mbind, ret.
  destruct (records_loop fuel r2) as [r3 [fs| | |]]; cbn [snd] in *;
    congruence.
Qed.

(** Listing the records of a buffer never runs out of fuel. *)
Lemma pbf_records_fuel (data : list byte) : pbf_records data <> OutOfFuel.
Proof.
  unfold pbf_records. apply records_loop_fuel.
  cbn [pbf_message data_bytes Protozero.m_data]. lia.
Qed.

(** ** Tag and wire type in one number *)

Lemma tag_and_type_value (t w : Z) :
  0 < t < 2 ^ 29 -> 0 <= w < 8 -> tag_and_type t w = 8 * t + w.
Proof.
  intros Ht Hw. unfold tag_and_type, uint32.
  rewrite Z.shiftl_mul_pow2 by lia. rewrite Z.mod_small by lia.
  assert (Hland : Z.land (t * 2 ^ 3) w = 0).
  { rewrite <- (Z.mod_small w (2 ^ 3)) by lia.
    rewrite <- (Z.land_ones w 3) by lia.
    rewrite (Z.land_comm w), Z.land_assoc, Z.land_ones by lia.
    rewrite Z.mod_mul by lia. apply Z.land_0_l. }
  rewrite <- Z.lxor_lor, <- Z.add_nocarry_lxor by assumption. lia.
Qed.

Lemma known_wire_type_bounds (w : Z) :
  known_wire_type w = true -> 0 <= w < 8.
Proof.
  unfold known_wire_type, varint, fixed64, length_delimited, fixed32.
  intros Hw. repeat (apply orb_true_iff in Hw; destruct Hw as [Hw|Hw]);
    apply Z.eqb_eq in Hw; lia.
Qed.

Lemma reader_tag_and_type_eqb (r : pbf_reader) (t w : Z) :
  tag_in_range (m_tag r) = true ->
  known_wire_type (m_wire_type r) = true ->
  0 < t < 2 ^ 29 -> 0 <= w < 8 ->
  (reader_tag_and_type r =? tag_and_type t w) =
  (m_tag r =? t) && (m_wire_type r =? w).
Proof.
  intros Ht Hw Ht' Hw'. unfold reader_tag_and_type.
  apply tag_in_range_nonzero in Ht. apply known_wire_type_bounds in Hw.
  rewrite !tag_and_type_value by lia.
  destruct (Z.eqb_spec (m_tag r) t) as [E1|E1];
    destruct (Z.eqb_spec (m_wire_type r) w) as [E2|E2]; cbn [andb].
  - apply Z.eqb_eq. lia.
  - apply Z.eqb_neq. lia.
  - apply Z.eqb_neq. lia.
  - apply Z.eqb_neq. lia.
Qed.

(** One record of a buffer, as the reader goes over it. *)
Lemma record_step (r r1 r2 : pbf_reader) (p : payload) (t w : Z) :
  next r = (r1, Ok true) ->
  read_payload r1 = (r2, Ok p) ->
  0 < t < 2 ^ 29 -> 0 <= w < 8 ->
  (reader_tag_and_type r1 =? tag_and_type t w) =
  field_is t w (mk_field (m_tag r1) p).
Proof.
  intros Hnext Hread Ht Hw.
  apply next_true_inv in Hnext. destruct Hnext as (Htag & Hwire & _).
  apply read_payload_inv in Hread. destruct Hread as (Hw1 & _).
  rewrite reader_tag_and_type_eqb by assumption.
  unfold field_is. cbn [field_tag]. now rewrite <- Hw1.
Qed.

(** ** Moving to the next record with a given tag *)

Lemma next_tag_loop_none (tag type : Z) :
  forall (r : pbf_reader) (fs : list field),
    reads r fs ->
    forall fuel : nat,
      forallb (fun f => negb (field_is tag type f)) fs = true ->
      (length fs < fuel)%nat ->
      exists r', next_tag_loop fuel tag type r = (r', Ok false) /\
                 m_data r' = [].
Proof.
  induction 1 as [r Hdata | r r1 r2 p fs Hnext Hread _ IH];
    intros fuel Hnone Hfuel.
  - destruct fuel as [|fuel]; [lia|]. exists r.
    cbn [next_tag_loop]. unfold mbind. rewrite next_end by assumption.
    split; [reflexivity | assumption].
  - destruct fuel as [|fuel]; [cbn [length] in Hfuel; lia|].
    cbn [forallb] in Hnone. apply andb_true_iff in Hnone.
    destruct Hnone as [Hf Hnone]. apply negb_true_iff in Hf.
    pose proof (read_payload_inv _ _ _ Hread) as (Hw & Hskip & _).
    unfold field_is in Hf. cbn [field_tag] in Hf. rewrite <- Hw in Hf.
    cbn [next_tag_loop]. unfold mbind at 1. rewrite Hnext. cbn [negb].
    rewrite Hf. unfold mbind. rewrite Hskip.
    apply IH; [assumption|]. cbn [length] in Hfuel. lia.
Qed.

Lemma next_tag_loop_some (tag type : Z) :
  forall (pre : list field) (f : field) (post : list field)
         (r : pbf_reader) (fuel : nat),
    reads r (pre ++ f :: post) ->
    forallb (fun f => negb (field_is tag type f)) pre = true ->
    field_is tag type f = true ->
    (length pre < fuel)%nat ->
    exists r1 r2,
      next_tag_loop fuel tag type r = (r1, Ok true) /\
      m_tag r1 = field_tag f /\
      read_payload r1 = (r2, Ok (field_payload f)) /\
      reads r2 post.
Proof.
  induction pre as [|g pre IH]; intros f post r fuel Hreads Hnone Hf Hfuel;
    (destruct fuel as [|fuel]; [cbn [length] in Hfuel; lia|]);
    inversion Hreads as [|r0 r1 r2 p fs Hnext Hread Hrest]; subst.
  - exists r1, r2. cbn [next_tag_loop]. unfold mbind at 1.
    rewrite Hnext. cbn [negb].
    pose proof (read_payload_inv _ _ _ Hread) as (Hw & _).
    unfold field_is in Hf. cbn [field_tag] in Hf. rewrite <- Hw in Hf.
    rewrite Hf. repeat split; assumption.
  - cbn [forallb] in Hnone. apply andb_true_iff in Hnone.
    destruct Hnone as [Hg Hnone]. apply negb_true_iff in Hg.
    pose proof (read_payload_inv _ _ _ Hread) as (Hw & Hskip & _).
    unfold field_is in Hg. cbn [field_tag] in Hg. rewrite <- Hw in Hg.
    cbn [next_tag_loop]. unfold mbind at 1. rewrite Hnext. cbn [negb].
    rewrite Hg. unfold mbind. rewrite Hskip.
    apply IH; try assumption. cbn [length] in Hfuel. lia.
Qed.

End ProtozeroFacts.

(** * Properties of the layer *)

Module LayerFacts.

Import Protozero Layer ProtozeroFacts.

(** ** Operations on a local reader *)

Lemma with_reader_Ok {A} (m : M pbf_reader A) (r r' : pbf_reader) (a : A)
  (l : layer) :
  m r = (r', Ok a) -> with_reader m r l = (l, Ok (a, r')).
Proof. intros Hm. unfold with_reader. now rewrite Hm. Qed.

Lemma mbind_Ok {S A B} (m : M S A) (k : A -> M S B) (s s' : S) (a : A) :
  m s = (s', Ok a) -> mbind m k s = k a s'.
Proof. intros Hm. unfold mbind. now rewrite Hm. Qed.

(** ** The constructor *)

Lemma field_is_varint (t : Z) (f : field) :
  field_is t varint f = true ->
  exists v, field_payload f = pl_varint v /\ field_tag f = t.
Proof.
  unfold field_is, field_wire_type. intros Hf.
  apply andb_true_iff in Hf. destruct Hf as [Ht Hw].
  apply Z.eqb_eq in Ht. destruct (field_payload f); try discriminate. eauto.
Qed.

Lemma field_is_bytes (t : Z) (f : field) :
  field_is t length_delimited f = true ->
  exists b, field_payload f = pl_bytes b /\ field_tag f = t.
Proof.
  unfold field_is, field_wire_type. intros Hf.
  apply andb_true_iff in Hf. destruct Hf as [Ht Hw].
  apply Z.eqb_eq in Ht. destruct (field_payload f); try discriminate. eauto.
Qed.

Ltac tag_const := cbv; intuition congruence.

(** The tests of the constructor on the record just read. *)
Lemma layer_record_tests (r r1 r2 : pbf_reader) (p : payload) :
  next r = (r1, Ok true) ->
  read_payload r1 = (r2, Ok p) ->
  let f := mk_field (m_tag r1) p in
  (reader_tag_and_type r1 =? tag_and_type pbf_layer.version varint) =
    field_is pbf_layer.version varint f /\
  (reader_tag_and_type r1 =? tag_and_type pbf_layer.name length_delimited) =
    field_is pbf_layer.name length_delimited f /\
  (reader_tag_and_type r1 =?
     tag_and_type pbf_layer.features length_delimited) =
    field_is pbf_layer.features length_delimited f /\
  (reader_tag_and_type r1 =? tag_and_type pbf_layer.keys length_delimited) =
    field_is pbf_layer.keys length_delimited f /\
  (reader_tag_and_type r1 =?
     tag_and_type pbf_layer.values length_delimited) =
    field_is pbf_layer.values length_delimited f /\
  (reader_tag_and_type r1 =? tag_and_type pbf_layer.extent varint) =
    field_is pbf_layer.extent varint f.
Proof.
  intros Hnext Hread f.
  repeat split; apply (record_step r r1 r2 p); try assumption; tag_const.
Qed.

(** One turn of the loop of the constructor, on a record. *)
Lemma layer_loop_step (r r1 r2 : pbf_reader) (p : payload) (fuel : nat)
  (l : layer) :
  next r = (r1, Ok true) ->
  read_payload r1 = (r2, Ok p) ->
  let f := mk_field (m_tag r1) p in
  (known_layer_field f = true ->
   layer_loop (S fuel) r l = layer_loop fuel r2 (layer_field l f)) /\
  (known_layer_field f = false ->
   exists msg, layer_loop (S fuel) r l = (l, Throw (format_exception msg))).
Proof.
  intros Hnext Hread f.
  pose proof (layer_record_tests r r1 r2 p Hnext Hread)
    as (T1 & T2 & T3 & T4 & T5 & T6).
  pose proof (read_payload_inv _ _ _ Hread) as (_ & Hskip & _ & Hget).
  cbn [layer_loop].
  rewrite (mbind_Ok _ _ _ _ _ (with_reader_Ok _ _ _ _ l Hnext)).
  cbn [negb]. rewrite T1, T2, T3, T4, T5, T6.
  unfold known_layer_field. fold f.
  destruct (field_is pbf_layer.version varint f) eqn:E1.
  { split; [intros _|discriminate].
    apply field_is_varint in E1. destruct E1 as (v & Hp & Ht).
    subst f. cbn [field_payload field_tag] in Hp, Ht. subst p.
    destruct Hget as [_ Hget].
    rewrite (mbind_Ok _ _ _ _ _ (with_reader_Ok _ _ _ _ l Hget)).
    unfold layer_field. cbn [field_payload field_tag]. now rewrite Ht. }
  destruct (field_is pbf_layer.name length_delimited f) eqn:E2.
  { split; [intros _|discriminate].
    apply field_is_bytes in E2. destruct E2 as (b & Hp & Ht).
    subst f. cbn [field_payload field_tag] in Hp, Ht. subst p.
    rewrite (mbind_Ok _ _ _ _ _ (with_reader_Ok _ _ _ _ l Hget)).
    unfold layer_field. cbn [field_payload field_tag]. now rewrite Ht. }
  destruct (field_is pbf_layer.features length_delimited f) eqn:E3.
  { split; [intros _|discriminate].
    apply field_is_bytes in E3. destruct E3 as (b & Hp & Ht).
    subst f. cbn [field_payload field_tag] in Hp, Ht. subst p.
    rewrite (mbind_Ok _ _ _ _ _ (with_reader_Ok _ _ _ _ l Hskip)).
    unfold layer_field. cbn [field_payload field_tag]. now rewrite Ht. }
  destruct (field_is pbf_layer.keys length_delimited f) eqn:E4.
  { split; [intros _|discriminate].
    apply field_is_bytes in E4. destruct E4 as (b & Hp & Ht).
    subst f. cbn [field_payload field_tag] in Hp, Ht. subst p.
    rewrite (mbind_Ok _ _ _ _ _ (with_reader_Ok _ _ _ _ l Hskip)).
    unfold layer_field. cbn [field_payload field_tag]. now rewrite Ht. }
  destruct (field_is pbf_layer.values length_delimited f) eqn:E5.
  { split; [intros _|discriminate].
    apply field_is_bytes in E5. destruct E5 as (b & Hp & Ht).
    subst f. cbn [field_payload field_tag] in Hp, Ht. subst p.
    rewrite (mbind_Ok _ _ _ _ _ (with_reader_Ok _ _ _ _ l Hskip)).
    unfold layer_field. cbn [field_payload field_tag]. now rewrite Ht. }
  destruct (field_is pbf_layer.extent varint f) eqn:E6.
  { split; [intros _|discriminate].
    apply field_is_varint in E6. destruct E6 as (v & Hp & Ht).
    subst f. cbn [field_payload field_tag] in Hp, Ht. subst p.
    destruct Hget as [_ Hget].
    rewrite (mbind_Ok _ _ _ _ _ (with_reader_Ok _ _ _ _ l Hget)).
    unfold layer_field. cbn [field_payload field_tag]. now rewrite Ht. }
  split; [discriminate|intros _]. unfold throw, lift. eauto.
Qed.

Lemma layer_loop_reads :
  forall (r : pbf_reader) (fs : list field),
    reads r fs ->
    forall (fuel : nat) (l : layer),
      (length fs < fuel)%nat ->
      forallb known_layer_field fs = true ->
      layer_loop fuel r l = (layer_fields fs l, Ok tt).
Proof.
  induction 1 as [r Hdata | r r1 r2 p fs Hnext Hread _ IH];
    intros fuel l Hfuel Hknown;
    (destruct fuel as [|fuel]; [cbn [length] in Hfuel; lia|]).
  - cbn [layer_loop].
    rewrite (mbind_Ok _ _ _ _ _ (with_reader_Ok _ _ _ _ l (next_end r Hdata))).
    reflexivity.
  - cbn [forallb] in Hknown. apply andb_true_iff in Hknown.
    destruct Hknown as [Hf Hknown].
    destruct (layer_loop_step r r1 r2 p fuel l Hnext Hread) as [Hstep _].
    rewrite (Hstep Hf). apply IH; [|assumption].
    cbn [length] in Hfuel. lia.
Qed.

Lemma layer_loop_unknown :
  forall (r : pbf_reader) (fs : list field),
    reads r fs ->
    forall (fuel : nat) (l : layer),
      (length fs < fuel)%nat ->
      forallb known_layer_field fs = false ->
      exists l' msg,
        layer_loop fuel r l = (l', Throw (format_exception msg)).
Proof.
  induction 1 as [r Hdata | r r1 r2 p fs Hnext Hread _ IH];
    intros fuel l Hfuel Hknown; [discriminate|].
  destruct fuel as [|fuel]; [cbn [length] in Hfuel; lia|].
  destruct (layer_loop_step r r1 r2 p fuel l Hnext Hread) as [Hok Hbad].
  cbn [forallb] in Hknown.
  destruct (known_layer_field (mk_field (m_tag r1) p)) eqn:Hf.
  - rewrite (Hok eq_refl). apply IH; [|assumption].
    cbn [length] in Hfuel. lia.
  - destruct (Hbad eq_refl) as [msg Hthrow]. eauto.
Qed.

(** What a record changes in the layer under construction. *)
Lemma layer_field_spec (l : layer) (f : field) :
  let l' := layer_field l f in
  (m_data l' = m_data l /\ m_layer_reader l' = m_layer_reader l /\
   m_key_table l' = m_key_table l /\ m_value_table l' = m_value_table l /\
   passes l' = passes l) /\
  m_version l' =
    match field_varint pbf_layer.version f with
    | Some v => uint32 v
    | None => m_version l
    end /\
  m_extent l' =
    match field_varint pbf_layer.extent f with
    | Some v => uint32 v
    | None => m_extent l
    end /\
  m_name l' =
    match field_bytes pbf_layer.name f with
    | Some b => view b
    | None => m_name l
    end /\
  m_num_features l' =
    m_num_features l + Z.of_nat (length (payloads pbf_layer.features [f])) /\
  m_key_table_size l' =
    m_key_table_size l + Z.of_nat (length (payloads pbf_layer.keys [f])) /\
  m_value_table_size l' =
    m_value_table_size l + Z.of_nat (length (payloads pbf_layer.values [f])).
Proof.
  destruct f as [t p].
  unfold layer_field, payloads, field_varint, field_bytes.
  cbn [flat_map app field_payload field_tag].
  destruct p as [v|b|b|b];
    repeat match goal with
      | |- context [t =? ?c] => destruct (Z.eqb_spec t c) as [->|?]
      end;
    repeat match goal with
      | |- context [?a =? ?b] =>
          let c := eval vm_compute in (a =? b) in change (a =? b) with c
      end;
    unfold set_m_version, set_m_extent, set_m_name, set_m_num_features,
      set_m_key_table_size, set_m_value_table_size;
    cbn [m_data m_version m_extent m_num_features m_name m_layer_reader
         m_key_table m_value_table m_key_table_size m_value_table_size
         passes length app Z.of_nat Pos.of_succ_nat];
    repeat split; try reflexivity; lia.
Qed.

Lemma payloads_cons (t : Z) (f : field) (fs : list field) :
  length (payloads t (f :: fs)) =
  (length (payloads t [f]) + length (payloads t fs))%nat.
Proof.
  unfold payloads. cbn [flat_map]. rewrite !length_app. cbn [length]. lia.
Qed.

Lemma layer_fields_spec :
  forall (fs : list field) (l : layer),
    let l' := layer_fields fs l in
    (m_data l' = m_data l /\ m_layer_reader l' = m_layer_reader l /\
     m_key_table l' = m_key_table l /\ m_value_table l' = m_value_table l /\
     passes l' = passes l) /\
    m_version l' =
      fold_left (fun acc f =>
                   match field_varint pbf_layer.version f with
                   | Some v => uint32 v
                   | None => acc
                   end) fs (m_version l) /\
    m_extent l' =
      fold_left (fun acc f =>
                   match field_varint pbf_layer.extent f with
                   | Some v => uint32 v
                   | None => acc
                   end) fs (m_extent l) /\
    m_name l' =
      fold_left (fun acc f =>
                   match field_bytes pbf_layer.name f with
                   | Some b => view b
                   | None => acc
                   end) fs (m_name l) /\
    m_num_features l' =
      m_num_features l + Z.of_nat (length (payloads pbf_layer.features fs)) /\
    m_key_table_size l' =
      m_key_table_size l + Z.of_nat (length (payloads pbf_layer.keys fs)) /\
    m_value_table_size l' =
      m_value_table_size l + Z.of_nat (length (payloads pbf_layer.values fs)).
Proof.
  induction fs as [|f fs IH]; intros l l'.
  - subst l'. unfold layer_fields, payloads.
    cbn [fold_left flat_map length Z.of_nat].
    repeat split; try reflexivity; lia.
  - subst l'. unfold layer_fields. cbn [fold_left].
    specialize (IH (layer_field l f)). cbv zeta in IH.
    unfold layer_fields in IH.
    destruct IH as ((I1 & I2 & I3 & I4 & I5) & I6 & I7 & I8 & I9 & I10 & I11).
    pose proof (layer_field_spec l f) as Hf. cbv zeta in Hf.
    destruct Hf as ((F1 & F2 & F3 & F4 & F5) & F6 & F7 & F8 & F9 & F10 & F11).
    rewrite (payloads_cons pbf_layer.features f fs),
      (payloads_cons pbf_layer.keys f fs),
      (payloads_cons pbf_layer.values f fs), !Nat2Z.inj_add.
    rewrite I1, I2, I3, I4, I5, I6, I7, I8, I9, I10, I11.
    rewrite F1, F2, F3, F4, F5, F6, F7, F8, F9, F10, F11.
    repeat split; try reflexivity; symmetry; apply Z.add_assoc.
Qed.

Lemma field_bytes_is (t : Z) (f : field) :
  match field_bytes t f with
  | Some _ => field_is t length_delimited f = true
  | None => field_is t length_delimited f = false
  end.
Proof.
  unfold field_bytes, field_is, field_wire_type.
  destruct (field_payload f); destruct (field_tag f =? t); reflexivity.
Qed.

Lemma field_varint_is (t : Z) (f : field) :
  match field_varint t f with
  | Some _ => field_is t varint f = true
  | None => field_is t varint f = false
  end.
Proof.
  unfold field_varint, field_is, field_wire_type.
  destruct (field_payload f); destruct (field_tag f =? t); reflexivity.
Qed.

Lemma name_fold_null :
  forall (fs : list field) (acc : data_view),
    data_is_null
      (fold_left (fun acc f =>
                    match field_bytes pbf_layer.name f with
                    | Some b => view b
                    | None => acc
                    end) fs acc) =
    if has_name fs then false
    else data_is_null acc.
Proof.
  unfold has_name.
  induction fs as [|f fs IH]; intros acc; [reflexivity|].
  cbn [fold_left existsb]. rewrite IH.
  pose proof (field_bytes_is pbf_layer.name f) as Hf.
  destruct (field_bytes pbf_layer.name f); rewrite Hf; cbn [orb];
    destruct (existsb _ fs); reflexivity.
Qed.

Lemma version_fold_default :
  forall (fs : list field) (acc : Z),
    forallb (fun f => negb (field_is pbf_layer.version varint f)) fs = true ->
    fold_left (fun acc f =>
                 match field_varint pbf_layer.version f with
                 | Some v => uint32 v
                 | None => acc
                 end) fs acc = acc.
Proof.
  induction fs as [|f fs IH]; intros acc Hnone; [reflexivity|].
  cbn [forallb] in Hnone. apply andb_true_iff in Hnone.
  destruct Hnone as [Hf Hnone]. apply negb_true_iff in Hf.
  cbn [fold_left].
  pose proof (field_varint_is pbf_layer.version f) as Hv.
  destruct (field_varint pbf_layer.version f); [congruence|].
  now apply IH.
Qed.

Lemma built_spec (data : list byte) (fs : list field) :
  let l := built data fs in
  m_data l = view data /\
  m_layer_reader l = pbf_message (view data) /\
  m_key_table l = [] /\ m_value_table l = [] /\ passes l = O /\
  m_version l = declared_version fs /\
  m_name l = declared_name fs /\
  m_key_table_size l = Z.of_nat (length (payloads pbf_layer.keys fs)) /\
  m_value_table_size l = Z.of_nat (length (payloads pbf_layer.values fs)).
Proof.
  pose proof (layer_fields_spec fs (layer_members (view data))) as Hl.
  cbv zeta in Hl. fold (built data fs) in Hl.
  destruct Hl as ((I1 & I2 & I3 & I4 & I5) & I6 & I7 & I8 & I9 & I10 & I11).
  cbv zeta. repeat split; assumption.
Qed.

Lemma make_layer_known (data : list byte) (fs : list field) :
  pbf_records data = Ok fs ->
  forallb known_layer_field fs = true ->
  make_layer (view data) =
  if (declared_version fs <? 1) || (2 <? declared_version fs) then
    Throw (version_exception (declared_version fs))
  else if has_name fs then Ok (built data fs)
  else Throw (format_exception "missing name field in layer (spec 4.1)").
Proof.
  intros Hrec Hknown. apply pbf_records_reads in Hrec as Hreads.
  pose proof (reads_length _ _ Hreads) as Hlen.
  cbn [pbf_message data_bytes Protozero.m_data] in Hlen.
  unfold make_layer, layer_body. cbn [data_bytes].
  unfold mbind at 1.
  rewrite (layer_loop_reads _ fs Hreads) by (assumption || lia).
  fold (built data fs).
  destruct (built_spec data fs) as (_ & _ & _ & _ & _ & Hv & Hn & _).
  unfold mbind at 1, gets at 1. rewrite Hv.
  destruct ((declared_version fs <? 1) || (2 <? declared_version fs));
    [reflexivity|].
  unfold mbind, gets. rewrite Hn. unfold declared_name.
  rewrite name_fold_null. destruct (has_name fs); reflexivity.
Qed.

Lemma make_layer_unknown (data : list byte) (fs : list field) :
  pbf_records data = Ok fs ->
  forallb known_layer_field fs = false ->
  exists msg, make_layer (view data) = Throw (format_exception msg).
Proof.
  intros Hrec Hknown. apply pbf_records_reads in Hrec as Hreads.
  pose proof (reads_length _ _ Hreads) as Hlen.
  cbn [pbf_message data_bytes Protozero.m_data] in Hlen.
  unfold make_layer, layer_body. cbn [data_bytes].
  destruct (layer_loop_unknown _ fs Hreads (S (length data))
              (layer_members (view data))) as (l' & msg & Hthrow);
    [lia | assumption |].
  unfold mbind at 1. rewrite Hthrow. eauto.
Qed.

(** C5, as the code has it.  The constructor asks for the name record to
    be there, not for the name to have bytes: from the records of a layer
    whose version is 1 or 2, without a name record it throws a format
    exception; with a name record, also one of no bytes, and no unknown
    record it builds the layer, whose name is that of the last name
    record. *)
Theorem layer_name_presence (data : list byte) (fs : list field) :
  pbf_records data = Ok fs ->
  declared_version fs = 1 \/ declared_version fs = 2 ->
  (has_name fs = false ->
   exists msg, make_layer (view data) = Throw (format_exception msg)) /\
  (has_name fs = true ->
   forallb known_layer_field fs = true ->
   exists l, make_layer (view data) = Ok l /\
             m_name l = declared_name fs /\
             data_is_null (m_name l) = false).
Proof.
  intros Hrec Hv.
  assert (Hcheck : (declared_version fs <? 1) || (2 <? declared_version fs)
                   = false).
  { apply orb_false_iff. split; apply Z.ltb_ge; lia. }
  split.
  - intros Hname.
    destruct (forallb known_layer_field fs) eqn:Hknown.
    + rewrite (make_layer_known data fs Hrec Hknown), Hcheck, Hname. eauto.
    + now apply make_layer_unknown with (fs := fs).
  - intros Hname Hknown.
    rewrite (make_layer_known data fs Hrec Hknown), Hcheck, Hname.
    exists (built data fs).
    destruct (built_spec data fs) as (_ & _ & _ & _ & _ & _ & Hn & _).
    repeat split; [assumption|].
    rewrite Hn. unfold declared_name. rewrite name_fold_null.
    now rewrite Hname.
Qed.

(** C6. From the records of a layer, all of them known to the constructor:
    when the declared version is outside {1, 2} the constructor throws the
    version exception that carries it; when it is 1 or 2 (and the layer has
    its name) the layer is built with that version; and without a version
    record the declared version is the default 1. *)
Theorem layer_version_check (data : list byte) (fs : list field) :
  pbf_records data = Ok fs ->
  forallb known_layer_field fs = true ->
  let v := declared_version fs in
  (v < 1 \/ 2 < v ->
   make_layer (view data) = Throw (version_exception v)) /\
  (v = 1 \/ v = 2 ->
   has_name fs = true ->
   exists l, make_layer (view data) = Ok l /\ m_version l = v) /\
  (forallb (fun f => negb (field_is pbf_layer.version varint f)) fs = true ->
   v = 1).
Proof.
  intros Hrec Hknown v. subst v.
  rewrite (make_layer_known data fs Hrec Hknown).
  repeat split.
  - intros Hbad.
    replace ((declared_version fs <? 1) || (2 <? declared_version fs))
      with true; [reflexivity|].
    symmetry. apply orb_true_iff.
    destruct Hbad; [left|right]; apply Z.ltb_lt; lia.
  - intros Hv Hname.
    replace ((declared_version fs <? 1) || (2 <? declared_version fs))
      with false by (symmetry; apply orb_false_iff; split;
                     apply Z.ltb_ge; lia).
    rewrite Hname. exists (built data fs). split; [reflexivity|].
    now destruct (built_spec data fs) as (_ & _ & _ & _ & _ & Hv' & _).
  - apply version_fold_default.
Qed.

(** ** The tables *)

Lemma keys_of_cons (f : field) (fs : list field) :
  keys_of (f :: fs) = keys_of [f] ++ keys_of fs.
Proof.
  unfold keys_of, payloads. cbn [flat_map]. now rewrite app_nil_r, map_app.
Qed.

Lemma values_of_cons (f : field) (fs : list field) :
  values_of (f :: fs) = values_of [f] ++ values_of fs.
Proof.
  unfold values_of, payloads. cbn [flat_map]. now rewrite app_nil_r, map_app.
Qed.

(** One pass over the records appends every key to the key table and every
    value to the value table. *)
Lemma initialize_tables_loop_reads :
  forall (r : pbf_reader) (fs : list field),
    reads r fs ->
    forall (fuel : nat) (l : layer),
      (length fs < fuel)%nat ->
      initialize_tables_loop fuel r l =
      (set_m_value_table (m_value_table l ++ values_of fs)
         (set_m_key_table (m_key_table l ++ keys_of fs) l), Ok tt).
Proof.
  induction 1 as [r Hdata | r r1 r2 p fs Hnext Hread _ IH];
    intros fuel l Hfuel;
    (destruct fuel as [|fuel]; [cbn [length] in Hfuel; lia|]).
  - cbn [initialize_tables_loop].
    rewrite (mbind_Ok _ _ _ _ _ (with_reader_Ok _ _ _ _ l (next_end r Hdata))).
    cbn [negb]. unfold ret, keys_of, values_of, payloads.
    cbn [flat_map map]. rewrite !app_nil_r. now destruct l.
  - assert (Hfuel' : (length fs < fuel)%nat) by (cbn [length] in Hfuel; lia).
    set (f := mk_field (Protozero.m_tag r1) p).
    assert (T1 : (reader_tag_and_type r1 =?
                  tag_and_type pbf_layer.keys length_delimited) =
                 field_is pbf_layer.keys length_delimited f)
      by (apply (record_step r r1 r2 p); try assumption; tag_const).
    assert (T2 : (reader_tag_and_type r1 =?
                  tag_and_type pbf_layer.values length_delimited) =
                 field_is pbf_layer.values length_delimited f)
      by (apply (record_step r r1 r2 p); try assumption; tag_const).
    pose proof (read_payload_inv _ _ _ Hread) as (_ & Hskip & _ & Hget).
    cbn [initialize_tables_loop].
    rewrite (mbind_Ok _ _ _ _ _ (with_reader_Ok _ _ _ _ l Hnext)).
    cbn [negb]. rewrite T1, T2.
    rewrite (keys_of_cons f fs), (values_of_cons f fs), !app_assoc.
    pose proof (field_bytes_is pbf_layer.keys f) as Hk.
    pose proof (field_bytes_is pbf_layer.values f) as Hv.
    unfold keys_of at 1, values_of at 1, payloads. cbn [flat_map].
    destruct (field_is pbf_layer.keys length_delimited f) eqn:E1.
    { apply field_is_bytes in E1. destruct E1 as (b & Hp & Ht).
      subst f. cbn [field_payload field_tag] in Hp, Ht. subst p.
      unfold field_bytes. cbn [field_payload field_tag]. rewrite Ht.
      change (pbf_layer.keys =? pbf_layer.keys) with true.
      change (pbf_layer.keys =? pbf_layer.values) with false.
      cbn [app map]. rewrite app_nil_r.
      rewrite (mbind_Ok _ _ _ _ _ (with_reader_Ok _ _ _ _ l Hget)).
      unfold mbind at 1, call at 1. rewrite IH by assumption.
      reflexivity. }
    destruct (field_is pbf_layer.values length_delimited f) eqn:E2.
    { apply field_is_bytes in E2. destruct E2 as (b & Hp & Ht).
      subst f. cbn [field_payload field_tag] in Hp, Ht. subst p.
      unfold field_bytes. cbn [field_payload field_tag]. rewrite Ht.
      change (pbf_layer.values =? pbf_layer.values) with true.
      change (pbf_layer.values =? pbf_layer.keys) with false.
      cbn [app map]. rewrite app_nil_r.
      rewrite (mbind_Ok _ _ _ _ _ (with_reader_Ok _ _ _ _ l Hget)).
      unfold mbind at 1, call at 1. rewrite IH by assumption.
      reflexivity. }
    destruct (field_bytes pbf_layer.keys f); [discriminate|].
    destruct (field_bytes pbf_layer.values f); [discriminate|].
    cbn [app map]. rewrite !app_nil_r.
    rewrite (mbind_Ok _ _ _ _ _ (with_reader_Ok _ _ _ _ l Hskip)).
    now apply IH.
Qed.

Lemma make_layer_Ok_built (data : list byte) (fs : list field) (l : layer) :
  pbf_records data = Ok fs ->
  make_layer (view data) = Ok l ->
  l = built data fs.
Proof.
  intros Hrec Hmake.
  destruct (forallb known_layer_field fs) eqn:Hknown.
  - rewrite (make_layer_known data fs Hrec Hknown) in Hmake.
    destruct (_ || _); [discriminate|].
    destruct (has_name fs); [|discriminate]. now injection Hmake.
  - destruct (make_layer_unknown data fs Hrec Hknown) as [msg Hthrow].
    congruence.
Qed.

Lemma payloads_empty (t : Z) (fs : list field) :
  Z.of_nat (length (payloads t fs)) <= 0 -> payloads t fs = [].
Proof. destruct (payloads t fs); cbn [length]; [reflexivity|lia]. Qed.

(** The pass on a layer as the constructor built it. *)
Lemma initialize_tables_built (data : list byte) (fs : list field) :
  pbf_records data = Ok fs ->
  initialize_tables (built data fs) =
  (materialized fs (built data fs), Ok tt).
Proof.
  intros Hrec. apply pbf_records_reads in Hrec as Hreads.
  pose proof (reads_length _ _ Hreads) as Hlen.
  cbn [pbf_message data_bytes Protozero.m_data] in Hlen.
  destruct (built_spec data fs)
    as (Hd & Hr & Hkt & Hvt & Hp & _ & _ & _ & _).
  unfold initialize_tables.
  unfold mbind at 1, call at 1. unfold mbind at 1, call at 1.
  unfold mbind at 1, call at 1. unfold mbind at 1, gets at 1.
  cbn [m_data set_m_value_table_size set_m_key_table_size count_pass].
  rewrite Hd. cbn [data_bytes].
  rewrite (initialize_tables_loop_reads _ fs Hreads) by lia.
  unfold materialized, set_m_value_table, set_m_key_table,
    set_m_value_table_size, set_m_key_table_size, count_pass.
  cbn [m_data m_version m_extent m_num_features m_name m_layer_reader
       m_key_table m_value_table m_key_table_size m_value_table_size passes].
  now rewrite Hkt, Hvt, Hp, Hd.
Qed.

Lemma payloads_nonempty (t : Z) (fs : list field) :
  (0 <? Z.of_nat (length (payloads t fs))) = negb (
    match payloads t fs with [] => true | _ => false end).
Proof.
  destruct (payloads t fs); cbn [length negb]; [reflexivity|].
  apply Z.ltb_lt. lia.
Qed.

(** The accessors on a layer as the constructor built it: the pass runs
    when the table of the accessor has entries. *)
Lemma key_table_built (data : list byte) (fs : list field) :
  pbf_records data = Ok fs ->
  let l := built data fs in
  key_table l =
  (match keys_of fs with [] => l | _ => materialized fs l end,
   Ok (keys_of fs)).
Proof.
  intros Hrec l.
  destruct (built_spec data fs)
    as (Hd & _ & Hkt & _ & _ & _ & _ & Hks & _). fold l in Hd, Hkt, Hks.
  unfold key_table, massert, valid. rewrite Hd. cbn [data_is_null negb].
  unfold mbind. rewrite Hks, payloads_nonempty. unfold keys_of.
  destruct (payloads pbf_layer.keys fs) as [|k ks] eqn:Hk; cbn [negb map].
  - unfold ret, gets. now rewrite Hkt.
  - subst l. rewrite (initialize_tables_built data fs Hrec).
    unfold gets, materialized, keys_of. cbn [m_key_table]. now rewrite Hk.
Qed.

Lemma value_table_built (data : list byte) (fs : list field) :
  pbf_records data = Ok fs ->
  let l := built data fs in
  value_table l =
  (match values_of fs with [] => l | _ => materialized fs l end,
   Ok (values_of fs)).
Proof.
  intros Hrec l.
  destruct (built_spec data fs)
    as (Hd & _ & _ & Hvt & _ & _ & _ & _ & Hvs). fold l in Hd, Hvt, Hvs.
  unfold value_table, massert, valid. rewrite Hd. cbn [data_is_null negb].
  unfold mbind. rewrite Hvs, payloads_nonempty. unfold values_of.
  destruct (payloads pbf_layer.values fs) as [|k ks] eqn:Hk; cbn [negb map].
  - unfold ret, gets. now rewrite Hvt.
  - subst l. rewrite (initialize_tables_built data fs Hrec).
    unfold gets, materialized, values_of. cbn [m_value_table].
    now rewrite Hk.
Qed.

(** After the pass both sizes are 0: no accessor runs it again. *)
Lemma accessors_materialized (data : list byte) (fs : list field) :
  let l := materialized fs (built data fs) in
  key_table l = (l, Ok (keys_of fs)) /\
  value_table l = (l, Ok (values_of fs)).
Proof.
  destruct (built_spec data fs) as (Hd & _).
  cbv zeta. unfold key_table, value_table, massert, valid, materialized.
  cbn [m_data m_key_table_size m_value_table_size]. rewrite Hd.
  split; reflexivity.
Qed.

Lemma after_accessors_states (data : list byte) (fs : list field) :
  pbf_records data = Ok fs ->
  forall (calls : list accessor) (l : layer),
    l = built data fs \/ l = materialized fs (built data fs) ->
    after_accessors calls l = built data fs \/
    after_accessors calls l = materialized fs (built data fs).
Proof.
  intros Hrec. induction calls as [|a calls IH]; intros l Hl; [exact Hl|].
  unfold after_accessors. cbn [fold_left]. apply IH.
  destruct (accessors_materialized data fs) as [Hk Hv]. cbv zeta in Hk, Hv.
  pose proof (key_table_built data fs Hrec) as Hkb.
  pose proof (value_table_built data fs Hrec) as Hvb. cbv zeta in Hkb, Hvb.
  destruct Hl as [-> | ->]; destruct a; unfold after_accessor.
  - rewrite Hkb. destruct (keys_of fs); auto.
  - rewrite Hvb. destruct (values_of fs); auto.
  - rewrite Hk. auto.
  - rewrite Hv. auto.
Qed.

(** C8, as the code has it.  On a layer as its constructor built it,
    whatever sequence of calls of [key_table()] and [value_table()] has
    been made: the pass of [initialize_tables] has run at most once; once
    it has run, in that one pass, the key table holds every key and the
    value table every value of the layer, in order of appearance, and a
    further call of either accessor leaves the layer as it is, making no
    pass; either accessor returns its complete table; and while the pass
    has not run, a call of an accessor runs it exactly when the table of
    that accessor has entries. *)
Theorem tables_materialized_at_most_once
  (data : list byte) (fs : list field) (l : layer) (calls : list accessor) :
  pbf_records data = Ok fs ->
  make_layer (view data) = Ok l ->
  let l' := after_accessors calls l in
  (passes l' <= 1)%nat /\
  (passes l' = 1%nat ->
   m_key_table l' = keys_of fs /\ m_value_table l' = values_of fs /\
   forall a, after_accessor l' a = l') /\
  (snd (key_table l') = Ok (keys_of fs) /\
   snd (value_table l') = Ok (values_of fs)) /\
  (passes l' = O ->
   (passes (after_accessor l' call_key_table) = 1%nat <-> keys_of fs <> []) /\
   (passes (after_accessor l' call_value_table) = 1%nat <->
    values_of fs <> [])).
Proof.
  intros Hrec Hmake l'.
  apply (make_layer_Ok_built data fs l Hrec) in Hmake. subst l.
  destruct (built_spec data fs) as (_ & _ & _ & _ & Hp & _).
  destruct (accessors_materialized data fs) as [Hk Hv]. cbv zeta in Hk, Hv.
  pose proof (key_table_built data fs Hrec) as Hkb.
  pose proof (value_table_built data fs Hrec) as Hvb. cbv zeta in Hkb, Hvb.
  destruct (after_accessors_states data fs Hrec calls (built data fs)
              (or_introl eq_refl)) as [E|E]; fold l' in E; rewrite E.
  - rewrite Hp. repeat split; try lia; try discriminate.
    + now rewrite Hkb.
    + now rewrite Hvb.
    + unfold after_accessor. rewrite Hkb.
      destruct (keys_of fs); cbn [fst]; [congruence|discriminate].
    + unfold after_accessor. rewrite Hkb.
      destruct (keys_of fs); cbn [fst]; [congruence|reflexivity].
    + unfold after_accessor. rewrite Hvb.
      destruct (values_of fs); cbn [fst]; [congruence|discriminate].
    + unfold after_accessor. rewrite Hvb.
      destruct (values_of fs); cbn [fst]; [congruence|reflexivity].
  - repeat split; try (cbn [materialized passes]; lia);
      try (cbn [materialized passes]; discriminate).
    + intros a. destruct a; unfold after_accessor; [now rewrite Hk|].
      now rewrite Hv.
    + now rewrite Hk.
    + now rewrite Hv.
Qed.

(** ** Lookup by id *)

Lemma read_only_ret {A} (a : A) : read_only (ret a).
Proof. intros l. reflexivity. Qed.

Lemma read_only_lift {A} (o : outcome A) : read_only (lift o).
Proof. intros l. reflexivity. Qed.

Lemma read_only_gets {A} (f : layer -> A) : read_only (gets f).
Proof. intros l. reflexivity. Qed.

Lemma read_only_with_reader {A} (m : M pbf_reader A) (r : pbf_reader) :
  read_only (with_reader m r).
Proof.
  intros l. unfold with_reader. destruct (m r) as [r' [a| | |]]; reflexivity.
Qed.

Lemma read_only_mbind {A B} (m : M layer A) (k : A -> M layer B) :
  read_only m -> (forall a, read_only (k a)) -> read_only (mbind m k).
Proof.
  intros Hm Hk l. unfold mbind. specialize (Hm l).
  destruct (m l) as [l' [a| | |]]; cbn [fst] in Hm; subst l';
    try reflexivity.
  apply Hk.
Qed.

Lemma read_only_make_feature (data : data_view) :
  read_only (make_feature data).
Proof.
  apply read_only_mbind; [apply read_only_gets|].
  intros this. apply read_only_ret.
Qed.

Lemma read_only_get_feature_by_id_loop (id : Z) :
  forall (fuel : nat) (layer_reader : pbf_reader),
    read_only (get_feature_by_id_loop fuel id layer_reader).
Proof.
  induction fuel as [|fuel IH]; intros layer_reader;
    [apply read_only_lift|].
  cbn [get_feature_by_id_loop].
  apply read_only_mbind; [apply read_only_with_reader|].
  intros [has_next reader1].
  destruct has_next; cbn [negb]; [|apply read_only_ret].
  apply read_only_mbind; [apply read_only_with_reader|].
  intros [feature_data reader2].
  apply read_only_mbind; [apply read_only_with_reader|].
  intros [has_id feature_reader].
  destruct has_id; [|apply IH].
  apply read_only_mbind; [apply read_only_with_reader|].
  intros [v feature_reader'].
  destruct (v =? id); [apply read_only_make_feature | apply IH].
Qed.

Lemma read_only_get_feature_by_id (id : Z) :
  read_only (get_feature_by_id id).
Proof.
  intros l. unfold get_feature_by_id, massert.
  destruct (valid l); [|reflexivity].
  apply read_only_mbind; [apply read_only_gets|].
  intros data. apply read_only_get_feature_by_id_loop.
Qed.

(** C9. [get_feature_by_id] leaves the layer as it was, whatever it
    returns or throws; so the features that the following calls of
    [next_feature()] return are those they would have returned without the
    lookup. *)
Theorem get_feature_by_id_frame (id : Z) (l : layer) (n : nat) :
  fst (get_feature_by_id id l) = l /\
  next_features n (fst (get_feature_by_id id l)) = next_features n l.
Proof.
  pose proof (read_only_get_feature_by_id id l) as Hframe.
  split; [exact Hframe | now rewrite Hframe].
Qed.

Lemma payloads_none (t : Z) (fs : list field) :
  payloads t fs = [] ->
  forallb (fun f => negb (field_is t length_delimited f)) fs = true.
Proof.
  induction fs as [|f fs IH]; intros Hp; [reflexivity|].
  unfold payloads in Hp. cbn [flat_map] in Hp.
  pose proof (field_bytes_is t f) as Hf.
  destruct (field_bytes t f); [discriminate|].
  cbn [forallb app] in *. rewrite Hf. cbn [negb andb]. now apply IH.
Qed.

Lemma payloads_split (t : Z) :
  forall (fs : list field) (b : list byte) (rest : list (list byte)),
    payloads t fs = b :: rest ->
    exists pre f post,
      fs = pre ++ f :: post /\
      forallb (fun f => negb (field_is t length_delimited f)) pre = true /\
      field_is t length_delimited f = true /\
      field_payload f = pl_bytes b /\
      payloads t post = rest.
Proof.
  induction fs as [|f fs IH]; intros b rest Hp; [discriminate|].
  unfold payloads in Hp. cbn [flat_map] in Hp.
  pose proof (field_bytes_is t f) as Hf.
  destruct (field_bytes t f) as [b'|] eqn:Hb.
  - cbn [app] in Hp. injection Hp as -> Hrest.
    exists [], f, fs. repeat split; try assumption.
    unfold field_bytes in Hb. destruct (field_payload f); try discriminate.
    destruct (field_tag f =? t); congruence.
  - cbn [app] in Hp. destruct (IH b rest Hp)
      as (pre & g & post & -> & Hnone & Hg & Hpl & Hrest).
    exists (f :: pre), g, post. repeat split; try assumption.
    cbn [forallb]. now rewrite Hf, Hnone.
Qed.

Lemma explicit_id_none (ffs : list field) :
  explicit_id ffs = None ->
  forallb (fun f => negb (field_is pbf_feature.id varint f)) ffs = true.
Proof.
  unfold explicit_id.
  induction ffs as [|f ffs IH]; intros Hid; [reflexivity|].
  cbn [filter forallb] in *.
  pose proof (field_varint_is pbf_feature.id f) as Hf.
  destruct (field_is pbf_feature.id varint f) eqn:Hfi.
  - destruct (field_varint pbf_feature.id f); congruence.
  - cbn [negb andb]. now apply IH.
Qed.

Lemma explicit_id_some (ffs : list field) (v : Z) :
  explicit_id ffs = Some v ->
  exists pre f post,
    ffs = pre ++ f :: post /\
    forallb (fun f => negb (field_is pbf_feature.id varint f)) pre = true /\
    field_is pbf_feature.id varint f = true /\
    field_payload f = pl_varint v.
Proof.
  unfold explicit_id.
  induction ffs as [|f ffs IH]; intros Hid; [discriminate|].
  cbn [filter] in Hid.
  destruct (field_is pbf_feature.id varint f) eqn:Hfi.
  - exists [], f, ffs. repeat split; try assumption.
    unfold field_varint in Hid. destruct (field_payload f); try discriminate.
    destruct (field_tag f =? pbf_feature.id); congruence.
  - destruct (IH Hid) as (pre & g & post & -> & Hnone & Hg & Hpl).
    exists (f :: pre), g, post. repeat split; try assumption.
    cbn [forallb]. now rewrite Hfi, Hnone.
Qed.

Lemma next_tag_found (tag type : Z) (r : pbf_reader)
  (pre : list field) (f : field) (post : list field) :
  reads r (pre ++ f :: post) ->
  forallb (fun f => negb (field_is tag type f)) pre = true ->
  field_is tag type f = true ->
  exists r1 r2,
    next_tag tag type r = (r1, Ok true) /\
    read_payload r1 = (r2, Ok (field_payload f)) /\
    reads r2 post.
Proof.
  intros Hreads Hnone Hf. unfold next_tag.
  pose proof (reads_length _ _ Hreads) as Hlen.
  rewrite length_app in Hlen.
  destruct (next_tag_loop_some tag type pre f post r
              (S (length (Protozero.m_data r))) Hreads Hnone Hf)
    as (r1 & r2 & Hloop & _ & Hread & Hpost); [lia|].
  eauto.
Qed.

Lemma next_tag_not_found (tag type : Z) (r : pbf_reader) (fs : list field) :
  reads r fs ->
  forallb (fun f => negb (field_is tag type f)) fs = true ->
  exists r', next_tag tag type r = (r', Ok false).
Proof.
  intros Hreads Hnone. unfold next_tag.
  pose proof (reads_length _ _ Hreads) as Hlen.
  destruct (next_tag_loop_none tag type r fs Hreads
              (S (length (Protozero.m_data r))) Hnone)
    as (r' & Hloop & _); [lia|].
  eauto.
Qed.

(** The test on one feature: whether its first id record has the value
    looked for. *)
Lemma feature_id_test (b : list byte) (ffs : list field) :
  pbf_records b = Ok ffs ->
  match explicit_id ffs with
  | Some v =>
      exists r1 r2,
        next_tag pbf_feature.id varint (pbf_message (view b)) =
          (r1, Ok true) /\
        get_uint64 r1 = (r2, Ok v)
  | None =>
      exists r',
        next_tag pbf_feature.id varint (pbf_message (view b)) =
          (r', Ok false)
  end.
Proof.
  intros Hrec. apply pbf_records_reads in Hrec.
  destruct (explicit_id ffs) as [v|] eqn:Hid.
  - destruct (explicit_id_some ffs v Hid)
      as (pre & f & post & -> & Hnone & Hf & Hpl).
    destruct (next_tag_found _ _ _ pre f post Hrec Hnone Hf)
      as (r1 & r2 & Hnext & Hread & _).
    rewrite Hpl in Hread. apply read_payload_inv in Hread.
    destruct Hread as (_ & _ & _ & Hget & _). eauto.
  - apply explicit_id_none in Hid.
    now apply next_tag_not_found with (fs := ffs).
Qed.

Lemma found_feature_shift (l : layer) (b : list byte)
  (feats : list (list byte)) (found : option nat) :
  found_feature l (b :: feats) (option_map S found) =
  found_feature l feats found.
Proof. destruct found; reflexivity. Qed.

Lemma get_feature_by_id_loop_reads (id : Z) (l : layer) :
  forall (feats : list (list byte)) (frs : list (list field)),
    features_records feats frs ->
    forall (fs : list field) (r : pbf_reader) (fuel : nat),
      reads r fs ->
      features_of fs = feats ->
      (length feats < fuel)%nat ->
      get_feature_by_id_loop fuel id r l =
      (l, Ok (found_feature l feats (lookup_id id frs))).
Proof.
  induction 1 as [|b ffs feats frs Hb _ IH];
    intros fs r fuel Hreads Hfeats Hfuel;
    (destruct fuel as [|fuel]; [cbn [length] in Hfuel; lia|]);
    cbn [get_feature_by_id_loop].
  - apply payloads_none in Hfeats.
    destruct (next_tag_not_found _ _ r fs Hreads Hfeats) as [r' Hnext].
    rewrite (mbind_Ok _ _ _ _ _ (with_reader_Ok _ _ _ _ l Hnext)).
    reflexivity.
  - destruct (payloads_split _ fs b feats Hfeats)
      as (pre & f & post & -> & Hnone & Hf & Hpl & Hpost).
    destruct (next_tag_found _ _ r pre f post Hreads Hnone Hf)
      as (r1 & r2 & Hnext & Hread & Hrest).
    rewrite Hpl in Hread.
    pose proof (read_payload_inv _ _ _ Hread) as (_ & _ & _ & Hview).
    rewrite (mbind_Ok _ _ _ _ _ (with_reader_Ok _ _ _ _ l Hnext)).
    cbn [negb].
    rewrite (mbind_Ok _ _ _ _ _ (with_reader_Ok _ _ _ _ l Hview)).
    assert (Hgo : get_feature_by_id_loop fuel id r2 l =
                  (l, Ok (found_feature l feats (lookup_id id frs)))).
    { apply IH with (fs := post); try assumption.
      cbn [length] in Hfuel. lia. }
    pose proof (feature_id_test b ffs Hb) as Htest.
    cbn [lookup_id].
    destruct (explicit_id ffs) as [v|].
    + destruct Htest as (q1 & q2 & Hq & Hget).
      rewrite (mbind_Ok _ _ _ _ _ (with_reader_Ok _ _ _ _ l Hq)).
      rewrite (mbind_Ok _ _ _ _ _ (with_reader_Ok _ _ _ _ l Hget)).
      destruct (v =? id); [reflexivity|].
      now rewrite Hgo, found_feature_shift.
    + destruct Htest as (q & Hq).
      rewrite (mbind_Ok _ _ _ _ _ (with_reader_Ok _ _ _ _ l Hq)).
      now rewrite Hgo, found_feature_shift.
Qed.

Lemma length_payloads (t : Z) (fs : list field) :
  (length (payloads t fs) <= length fs)%nat.
Proof.
  induction fs as [|f fs IH]; [apply le_n|].
  unfold payloads in *. cbn [flat_map length]. rewrite length_app.
  destruct (field_bytes t f); cbn [length]; lia.
Qed.

(** [get_feature_by_id] returns the first feature whose first id record
    has the value looked for. *)
Lemma get_feature_by_id_spec (id : Z) (data : list byte) (fs : list field)
  (frs : list (list field)) (l : layer) :
  m_data l = view data ->
  pbf_records data = Ok fs ->
  features_records (features_of fs) frs ->
  get_feature_by_id id l =
  (l, Ok (found_feature l (features_of fs) (lookup_id id frs))).
Proof.
  intros Hd Hrec Hfrs. apply pbf_records_reads in Hrec as Hreads.
  pose proof (reads_length _ _ Hreads) as Hlen.
  cbn [pbf_message data_bytes Protozero.m_data] in Hlen.
  pose proof (length_payloads pbf_layer.features fs) as Hlen'.
  unfold get_feature_by_id, massert, valid. rewrite Hd.
  cbn [data_is_null negb]. unfold mbind at 1, gets at 1. rewrite Hd.
  cbn [data_bytes].
  apply get_feature_by_id_loop_reads with (fs := fs); try assumption;
    try reflexivity.
  unfold features_of. lia.
Qed.

Lemma lookup_id_explicit (id : Z) :
  forall (frs : list (list field)) (j : nat),
    lookup_id id frs = Some j ->
    exists ffs, nth_error frs j = Some ffs /\ explicit_id ffs = Some id.
Proof.
  induction frs as [|ffs frs IH]; intros j Hj; [discriminate|].
  cbn [lookup_id] in Hj.
  assert (Hrest : option_map S (lookup_id id frs) = Some j ->
                  exists ffs0, nth_error (ffs :: frs) j = Some ffs0 /\
                               explicit_id ffs0 = Some id).
  { destruct (lookup_id id frs) as [j'|]; [|discriminate].
    intros Heq. injection Heq as <-. cbn [nth_error]. now apply IH. }
  destruct (explicit_id ffs) as [v|] eqn:Hid; [|now apply Hrest].
  destruct (Z.eqb_spec v id) as [->|Hne]; [|now apply Hrest].
  injection Hj as <-. exists ffs. split; [reflexivity | assumption].
Qed.

Lemma lookup_id_none (id : Z) :
  forall (frs : list (list field)),
    (forall ffs, In ffs frs -> explicit_id ffs <> Some id) ->
    lookup_id id frs = None.
Proof.
  induction frs as [|ffs frs IH]; intros Hnone; [reflexivity|].
  cbn [lookup_id]. rewrite IH by (intros g Hg; apply Hnone; now right).
  pose proof (Hnone ffs (or_introl eq_refl)) as Hffs.
  destruct (explicit_id ffs) as [v|]; [|reflexivity].
  destruct (Z.eqb_spec v id) as [->|Hne]; [congruence|reflexivity].
Qed.

(** C10. In a layer with a feature, the [i]-th, whose record has no id
    record: the accessor [id()] of that feature gives 0, and
    [get_feature_by_id(0)] does not return it: it returns the first feature
    whose id record has the value 0, which is not the [i]-th, and the
    invalid feature when no feature has an id record of value 0. *)
Theorem get_feature_by_id_needs_id_record
  (data : list byte) (fs : list field) (frs : list (list field))
  (l : layer) (i : nat) (b : list byte) (ffs : list field) :
  m_data l = view data ->
  pbf_records data = Ok fs ->
  features_records (features_of fs) frs ->
  nth_error (features_of fs) i = Some b ->
  nth_error frs i = Some ffs ->
  forallb (fun f => negb (field_is pbf_feature.id varint f)) ffs = true ->
  feature_id (mk_feature (Some (m_data l)) (view b)) = Ok 0 /\
  snd (get_feature_by_id 0 l) =
    Ok (found_feature l (features_of fs) (lookup_id 0 frs)) /\
  lookup_id 0 frs <> Some i /\
  ((forall g, In g frs -> explicit_id g <> Some 0) ->
   snd (get_feature_by_id 0 l) = Ok invalid_feature).
Proof.
  intros Hd Hrec Hfrs Hb Hffs Hnoid.
  assert (Hbrec : pbf_records b = Ok ffs).
  { unfold features_records in Hfrs. revert i Hb Hffs.
    induction Hfrs as [|b0 f0 bs gs H0 _ IH]; intros i Hb Hffs;
      destruct i; cbn [nth_error] in *; try discriminate.
    - congruence.
    - eauto. }
  assert (Hex : explicit_id ffs = None).
  { unfold explicit_id.
    replace (filter (field_is pbf_feature.id varint) ffs) with (@nil field);
      [reflexivity|].
    symmetry. clear - Hnoid. induction ffs as [|f ffs IH]; [reflexivity|].
    cbn [forallb filter] in *. apply andb_true_iff in Hnoid.
    destruct Hnoid as [Hf Hrest]. apply negb_true_iff in Hf.
    rewrite Hf. now apply IH. }
  rewrite (get_feature_by_id_spec 0 data fs frs l Hd Hrec Hfrs). cbn [snd].
  repeat split.
  - unfold feature_id. cbn [feature_data data_bytes]. rewrite Hbrec.
    cbn [bind]. f_equal. clear - Hnoid.
    induction ffs as [|f ffs IH]; [reflexivity|].
    cbn [forallb fold_left] in *. apply andb_true_iff in Hnoid.
    destruct Hnoid as [Hf Hrest]. apply negb_true_iff in Hf.
    pose proof (field_varint_is pbf_feature.id f) as Hv.
    destruct (field_varint pbf_feature.id f); [congruence|].
    now apply IH.
  - intros Hi. apply lookup_id_explicit in Hi.
    destruct Hi as (g & Hg & Hgid). congruence.
  - intros Hnone. now rewrite lookup_id_none.
Qed.

(** * More of the layer *)

(** ** The constructor on any input *)

Lemma layer_loop_step_unknown (r r1 r2 : pbf_reader) (p : payload)
  (fuel : nat) (l : layer) :
  next r = (r1, Ok true) ->
  read_payload r1 = (r2, Ok p) ->
  let f := mk_field (m_tag r1) p in
  known_layer_field f = false ->
  layer_loop (S fuel) r l =
  (l, Throw (format_exception (unknown_field_message f))).
Proof.
  intros Hnext Hread f Hf. subst f.
  pose proof (layer_record_tests r r1 r2 p Hnext Hread)
    as (T1 & T2 & T3 & T4 & T5 & T6).
  pose proof (read_payload_inv _ _ _ Hread) as (Hw & _).
  cbn [layer_loop].
  rewrite (mbind_Ok _ _ _ _ _ (with_reader_Ok _ _ _ _ l Hnext)).
  cbn [negb]. rewrite T1, T2, T3, T4, T5, T6.
  unfold known_layer_field in Hf.
  repeat (apply orb_false_iff in Hf; destruct Hf as [Hf ?H]).
  rewrite Hf, H, H0, H1, H2, H3.
  unfold throw, lift, unknown_field_message. cbn [field_tag].
  now rewrite Hw.
Qed.

Lemma layer_loop_first_unknown (f : field) (post : list field) :
  forall (pre : list field) (r : pbf_reader) (fuel : nat) (l : layer),
    reads r (pre ++ f :: post) ->
    (length pre < fuel)%nat ->
    forallb known_layer_field pre = true ->
    known_layer_field f = false ->
    exists l',
      layer_loop fuel r l =
      (l', Throw (format_exception (unknown_field_message f))).
Proof.
  induction pre as [|g pre IH]; intros r fuel l Hreads Hfuel Hpre Hf;
    (destruct fuel as [|fuel]; [cbn [length] in Hfuel; lia|]);
    inversion Hreads as [|r0 r1 r2 p fs Hnext Hread Hrest]; subst.
  - exists l. now apply (layer_loop_step_unknown r r1 r2 p fuel l).
  - cbn [forallb] in Hpre. apply andb_true_iff in Hpre.
    destruct Hpre as [Hg Hpre].
    destruct (layer_loop_step r r1 r2 p fuel l Hnext Hread) as [Hok _].
    rewrite (Hok Hg). apply IH; try assumption.
    cbn [length] in Hfuel. lia.
Qed.

(** X7. A record that the constructor does not know makes it throw the format
    exception that names the tag and the wire type of the first such
    record, whatever the version and whether or not there is a name. *)
Theorem make_layer_unknown_field (data : list byte) (pre : list field)
  (f : field) (post : list field) :
  pbf_records data = Ok (pre ++ f :: post) ->
  forallb known_layer_field pre = true ->
  known_layer_field f = false ->
  make_layer (view data) =
  Throw (format_exception (unknown_field_message f)).
Proof.
  intros Hrec Hpre Hf. apply pbf_records_reads in Hrec as Hreads.
  pose proof (reads_length _ _ Hreads) as Hlen.
  cbn [pbf_message data_bytes Protozero.m_data] in Hlen.
  rewrite length_app in Hlen. cbn [length] in Hlen.
  unfold make_layer, layer_body. cbn [data_bytes].
  destruct (layer_loop_first_unknown f post pre _ (S (length data))
              (layer_members (view data)) Hreads) as (l' & Hthrow);
    try assumption; [lia|].
  unfold mbind at 1. now rewrite Hthrow.
Qed.

Lemma extent_fold_default :
  forall (fs : list field) (acc : Z),
    forallb (fun f => negb (field_is pbf_layer.extent varint f)) fs = true ->
    fold_left (fun acc f =>
                 match field_varint pbf_layer.extent f with
                 | Some v => uint32 v
                 | None => acc
                 end) fs acc = acc.
Proof.
  induction fs as [|f fs IH]; intros acc Hnone; [reflexivity|].
  cbn [forallb] in Hnone. apply andb_true_iff in Hnone.
  destruct Hnone as [Hf Hnone]. apply negb_true_iff in Hf.
  cbn [fold_left].
  pose proof (field_varint_is pbf_layer.extent f) as Hv.
  destruct (field_varint pbf_layer.extent f); [congruence|].
  now apply IH.
Qed.

Lemma built_header (data : list byte) (fs : list field) :
  let l := built data fs in
  m_extent l = declared_extent fs /\
  m_num_features l = Z.of_nat (length (features_of fs)).
Proof.
  pose proof (layer_fields_spec fs (layer_members (view data))) as Hl.
  cbv zeta in Hl. fold (built data fs) in Hl.
  destruct Hl as (_ & _ & I7 & _ & I9 & _).
  cbv zeta. split; assumption.
Qed.

(** X8. The header of a layer as its constructor read it: [data()] is the
    input; [extent()] is the value of the last extent record, as an
    unsigned 32-bit integer, and 4096 when there is none; [size()] is the
    number of feature records, and [empty()] says that there is none. *)
Theorem layer_header_accessors (data : list byte) (fs : list field)
  (l : layer) :
  pbf_records data = Ok fs ->
  make_layer (view data) = Ok l ->
  Layer.data l = (l, Ok (view data)) /\
  extent l = (l, Ok (declared_extent fs)) /\
  (forallb (fun f => negb (field_is pbf_layer.extent varint f)) fs = true ->
   declared_extent fs = 4096) /\
  Layer.size l = Z.of_nat (length (features_of fs)) /\
  (empty l = true <-> features_of fs = []).
Proof.
  intros Hrec Hmake.
  apply (make_layer_Ok_built data fs l Hrec) in Hmake. subst l.
  destruct (built_spec data fs) as (Hd & _).
  destruct (built_header data fs) as (He & Hn).
  unfold Layer.data, extent, Layer.size, empty, massert, valid, gets.
  rewrite Hd. cbn [data_is_null negb]. rewrite He, Hn.
  repeat split.
  - apply extent_fold_default.
  - intros Hz. apply Z.eqb_eq in Hz.
    destruct (features_of fs); [reflexivity | cbn [length] in Hz; lia].
  - intros ->. reflexivity.
Qed.

(** What a run of the loop of the constructor leaves as it was, on any
    input. *)
Lemma layer_loop_frame :
  forall (fuel : nat) (r : pbf_reader) (l l' : layer) (o : outcome unit),
    layer_loop fuel r l = (l', o) ->
    m_data l' = m_data l /\ m_layer_reader l' = m_layer_reader l /\
    m_key_table l' = m_key_table l /\ m_value_table l' = m_value_table l /\
    passes l' = passes l.
Proof.
  induction fuel as [|fuel IH]; intros r l l' o Hloop;
    cbn [layer_loop] in Hloop.
  - unfold lift in Hloop. injection Hloop as <- _. now repeat split.
  - unfold mbind, with_reader, call, throw, lift, ret in Hloop.
    destruct (next r) as [r1 [[|]|e| |]];
      try (injection Hloop as <- _; now repeat split).
    cbn [negb] in Hloop.
    repeat match type of Hloop with
      | context [if ?c then _ else _] => destruct c
      | context [match ?m r1 with _ => _ end] =>
          destruct (m r1) as [? [?|?| |]]
      end;
      try (injection Hloop as <- _; now repeat split);
      apply IH in Hloop; exact Hloop.
Qed.

(** A layer that the constructor returns, on any input: it is valid, and
    its reader of the features is at the start of its data. *)
Lemma make_layer_Ok_inv (d : data_view) (l : layer) :
  make_layer d = Ok l ->
  valid l = true /\ m_data l = d /\ m_layer_reader l = pbf_message d.
Proof.
  unfold make_layer, layer_body. intros Hmake.
  destruct d as [|b]; [discriminate|].
  unfold mbind at 1 in Hmake.
  destruct (layer_loop _ _ _) as [l1 o] eqn:Hloop.
  apply layer_loop_frame in Hloop. destruct Hloop as (Hd & Hr & _).
  cbn [layer_members m_data m_layer_reader] in Hd, Hr.
  destruct o as [[]|e| |]; try discriminate.
  unfold mbind, gets, throw, lift, ret in Hmake.
  destruct ((m_version l1 <? 1) || (2 <? m_version l1)); [discriminate|].
  destruct (data_is_null (m_name l1)); [discriminate|].
  injection Hmake as <-. unfold valid. rewrite Hd.
  repeat split; assumption.
Qed.

(** X9. On the null view the constructor throws the format exception of
    the missing name; and on any input it returns valid layers only, in the
    state the class asks for: the data is the input, which is not the null
    view; the reader of the features is at the start of the data; the
    tables are not built; the version is 1 or 2 and the name is there. *)
Theorem make_layer_invariants (d : data_view) (l : layer) :
  make_layer null_view =
    Throw (format_exception "missing name field in layer (spec 4.1)") /\
  (make_layer d = Ok l ->
   valid l = true /\ m_data l = d /\
   m_layer_reader l = pbf_message d /\
   m_key_table l = [] /\ m_value_table l = [] /\
   1 <= m_version l <= 2 /\ data_is_null (m_name l) = false).
Proof.
  split; [reflexivity|].
  unfold make_layer, layer_body. intros Hmake.
  destruct d as [|b]; [discriminate|].
  unfold mbind at 1 in Hmake.
  destruct (layer_loop _ _ _) as [l1 o] eqn:Hloop.
  apply layer_loop_frame in Hloop.
  destruct Hloop as (Hd & Hr & Hk & Hv & _).
  cbn [layer_members m_data m_layer_reader m_key_table m_value_table]
    in Hd, Hr, Hk, Hv.
  destruct o as [[]|e| |]; try discriminate.
  unfold mbind, gets, throw, lift, ret in Hmake.
  destruct (Z.ltb_spec (m_version l1) 1) as [H1|H1]; [discriminate|].
  destruct (Z.ltb_spec 2 (m_version l1)) as [H2|H2]; [discriminate|].
  cbn [orb] in Hmake.
  destruct (data_is_null (m_name l1)) eqn:Hname; [discriminate|].
  injection Hmake as <-. unfold valid. rewrite Hd.
  repeat split; try assumption; reflexivity.
Qed.

(** ** Going over the features *)

Lemma set_m_layer_reader_twice (r r' : pbf_reader) (l : layer) :
  set_m_layer_reader r' (set_m_layer_reader r l) = set_m_layer_reader r' l.
Proof. reflexivity. Qed.

Lemma next_feature_reads (l : layer) (fs : list field) :
  valid l = true ->
  reads (m_layer_reader l) fs ->
  match features_of fs with
  | [] =>
      exists r',
        next_feature l = (set_m_layer_reader r' l, Ok invalid_feature) /\
        reads r' []
  | b :: rest =>
      exists r' post,
        next_feature l =
        (set_m_layer_reader r' l,
         Ok (mk_feature (Some (m_data l)) (view b))) /\
        reads r' post /\ features_of post = rest
  end.
Proof.
  intros Hvalid Hreads. unfold next_feature, massert. rewrite Hvalid.
  pose proof (reads_length _ _ Hreads) as Hlen.
  destruct (features_of fs) as [|b rest] eqn:Hfeats;
    unfold mbind at 1, with_layer_reader at 1.
  - apply payloads_none in Hfeats. unfold next_tag.
    destruct (next_tag_loop_none _ _ _ fs Hreads
                (S (length (Protozero.m_data (m_layer_reader l)))) Hfeats)
      as (r' & Hloop & Hend); [lia|].
    rewrite Hloop. exists r'. split; [reflexivity|]. now apply reads_end.
  - destruct (payloads_split _ fs b rest Hfeats)
      as (pre & f & post & -> & Hnone & Hf & Hpl & Hpost).
    destruct (next_tag_found _ _ _ pre f post Hreads Hnone Hf)
      as (r1 & r2 & Hnext & Hread & Hrest).
    rewrite Hpl in Hread.
    pose proof (read_payload_inv _ _ _ Hread) as (_ & _ & _ & Hview).
    rewrite Hnext. unfold mbind, with_layer_reader.
    cbn [set_m_layer_reader m_layer_reader]. rewrite Hview.
    exists r2, post. repeat split; assumption.
Qed.

Lemma next_features_reads (data : data_view) :
  forall (n : nat) (l : layer) (fs : list field),
    valid l = true -> m_data l = data ->
    reads (m_layer_reader l) fs ->
    next_features n l =
    map (fun b => Ok (mk_feature (Some data) (view b)))
      (firstn n (features_of fs)) ++
    repeat (Ok invalid_feature) (n - length (features_of fs)).
Proof.
  induction n as [|n IH]; intros l fs Hvalid Hdata Hreads; [reflexivity|].
  cbn [next_features].
  pose proof (next_feature_reads l fs Hvalid Hreads) as Hnext.
  destruct (features_of fs) as [|b rest] eqn:Hfeats.
  - destruct Hnext as (r' & -> & Hend).
    rewrite (IH (set_m_layer_reader r' l) [] Hvalid Hdata Hend).
    cbn [features_of payloads flat_map firstn map app length Nat.sub].
    rewrite firstn_nil, Nat.sub_0_r. reflexivity.
  - destruct Hnext as (r' & post & -> & Hrest & Hpost).
    rewrite (IH (set_m_layer_reader r' l) post Hvalid Hdata Hrest),
      Hpost, Hdata.
    reflexivity.
Qed.

(** X10. Successive calls of [next_feature()] on a layer as its constructor
    built it return the features of the layer in the order of their
    records, each with the layer and its bytes, and from then on the
    invalid feature. *)
Theorem next_feature_enumerates (data : list byte) (fs : list field)
  (l : layer) (n : nat) :
  pbf_records data = Ok fs ->
  make_layer (view data) = Ok l ->
  next_features n l =
  map (fun b => Ok (mk_feature (Some (view data)) (view b)))
    (firstn n (features_of fs)) ++
  repeat (Ok invalid_feature) (n - length (features_of fs)).
Proof.
  intros Hrec Hmake.
  destruct (make_layer_Ok_inv _ _ Hmake) as (Hvalid & Hd & Hr).
  apply next_features_reads; try assumption.
  rewrite Hr. now apply pbf_records_reads.
Qed.

Lemma layer_eta (l : layer) :
  set_m_layer_reader (m_layer_reader l) l = l.
Proof. now destruct l. Qed.

Lemma next_feature_frame (l : layer) :
  exists r', fst (next_feature l) = set_m_layer_reader r' l.
Proof.
  unfold next_feature, massert.
  destruct (valid l).
  2:{ exists (m_layer_reader l). now rewrite layer_eta. }
  unfold mbind at 1, with_layer_reader at 1.
  destruct (next_tag _ _ _) as [r1 [[|]|e| |]];
    try (exists r1; reflexivity).
  unfold mbind, with_layer_reader.
  cbn [set_m_layer_reader m_layer_reader].
  destruct (get_view r1) as [r2 [v|e| |]]; exists r2; reflexivity.
Qed.

Lemma after_next_features_frame :
  forall (n : nat) (l : layer),
    exists r', after_next_features n l = set_m_layer_reader r' l.
Proof.
  induction n as [|n IH]; intros l.
  - exists (m_layer_reader l). now rewrite layer_eta.
  - cbn [after_next_features].
    destruct (next_feature_frame l) as [r1 ->].
    destruct (IH (set_m_layer_reader r1 l)) as [r2 ->].
    exists r2. reflexivity.
Qed.

(** X11. After any number of calls of [next_feature()], on any input the
    constructor accepted and also when a call has thrown, [reset_feature()]
    puts the layer back as the constructor built it: the features are gone
    over from the first one again. *)
Theorem reset_feature_restarts (d : data_view) (l : layer) (n : nat) :
  make_layer d = Ok l ->
  reset_feature (after_next_features n l) = (l, Ok tt).
Proof.
  intros Hmake.
  destruct (make_layer_Ok_inv _ _ Hmake) as (Hvalid & Hd & Hr).
  destruct (after_next_features_frame n l) as [r' ->].
  unfold reset_feature, massert, call.
  change (valid (set_m_layer_reader r' l)) with (valid l). rewrite Hvalid.
  rewrite set_m_layer_reader_twice.
  change (m_data (set_m_layer_reader r' l)) with (m_data l).
  rewrite Hd, <- Hr. now rewrite layer_eta.
Qed.

(** ** Keys and values by index *)

Lemma at_index_outcome {A S} (v : list A) (i : Z) (s : S) :
  at_index v i s =
  (s, match nth_error v (Z.to_nat i) with
      | Some a => Ok a
      | None => Throw out_of_range
      end).
Proof. unfold at_index. now destruct (nth_error v (Z.to_nat i)). Qed.

Lemma key_in_state (data : list byte) (fs : list field) (l : layer)
  (i : Z) :
  pbf_records data = Ok fs ->
  l = built data fs \/ l = materialized fs (built data fs) ->
  exists l',
    (l' = built data fs \/ l' = materialized fs (built data fs)) /\
    key i l =
    (l', match nth_error (keys_of fs) (Z.to_nat i) with
         | Some k => Ok k
         | None => Throw out_of_range
         end).
Proof.
  intros Hrec Hl.
  destruct (built_spec data fs) as (Hd & _).
  destruct (accessors_materialized data fs) as [Hk _]. cbv zeta in Hk.
  pose proof (key_table_built data fs Hrec) as Hkb. cbv zeta in Hkb.
  unfold key, massert, valid.
  destruct Hl as [-> | ->].
  - rewrite Hd. cbn [data_is_null negb]. unfold mbind. rewrite Hkb.
    rewrite at_index_outcome. eexists. split; [|reflexivity].
    destruct (keys_of fs); auto.
  - cbn [materialized m_data]. rewrite Hd. cbn [data_is_null negb].
    unfold mbind. rewrite Hk. rewrite at_index_outcome.
    eexists. split; [|reflexivity]. auto.
Qed.

Lemma value_in_state (data : list byte) (fs : list field) (l : layer)
  (i : Z) :
  pbf_records data = Ok fs ->
  l = built data fs \/ l = materialized fs (built data fs) ->
  exists l',
    (l' = built data fs \/ l' = materialized fs (built data fs)) /\
    value i l =
    (l', match nth_error (values_of fs) (Z.to_nat i) with
         | Some v => Ok v
         | None => Throw out_of_range
         end).
Proof.
  intros Hrec Hl.
  destruct (built_spec data fs) as (Hd & _).
  destruct (accessors_materialized data fs) as [_ Hv]. cbv zeta in Hv.
  pose proof (value_table_built data fs Hrec) as Hvb. cbv zeta in Hvb.
  unfold value, massert, valid.
  destruct Hl as [-> | ->].
  - rewrite Hd. cbn [data_is_null negb]. unfold mbind. rewrite Hvb.
    rewrite at_index_outcome. eexists. split; [|reflexivity].
    destruct (values_of fs); auto.
  - cbn [materialized m_data]. rewrite Hd. cbn [data_is_null negb].
    unfold mbind. rewrite Hv. rewrite at_index_outcome.
    eexists. split; [|reflexivity]. auto.
Qed.

Lemma nth_error_beyond {A} (v : list A) (i : Z) :
  0 <= i -> Z.of_nat (length v) <= i -> nth_error v (Z.to_nat i) = None.
Proof. intros Hi Hlen. apply nth_error_None. lia. Qed.

(** X12. [key(index)] and [value(index)] on a layer as its constructor built
    it, whatever calls of the table accessors came before: an index below
    the number of keys (of values) gives the key (the value) of that
    position in the order of the records, and an index from that number on
    throws [out_of_range]; so does every index on a layer without keys (or
    values). *)
Theorem key_and_value_by_index (data : list byte) (fs : list field)
  (l : layer) (calls : list accessor) (i : Z) :
  pbf_records data = Ok fs ->
  make_layer (view data) = Ok l ->
  0 <= i ->
  let l' := after_accessors calls l in
  (forall k, nth_error (keys_of fs) (Z.to_nat i) = Some k ->
             snd (key i l') = Ok k) /\
  (Z.of_nat (length (keys_of fs)) <= i ->
   snd (key i l') = Throw out_of_range) /\
  (forall v, nth_error (values_of fs) (Z.to_nat i) = Some v ->
             snd (value i l') = Ok v) /\
  (Z.of_nat (length (values_of fs)) <= i ->
   snd (value i l') = Throw out_of_range).
Proof.
  intros Hrec Hmake Hi l'.
  apply (make_layer_Ok_built data fs l Hrec) in Hmake. subst l.
  pose proof (after_accessors_states data fs Hrec calls (built data fs)
                (or_introl eq_refl)) as Hstate. fold l' in Hstate.
  destruct (key_in_state data fs l' i Hrec Hstate) as (lk & _ & ->).
  destruct (value_in_state data fs l' i Hrec Hstate) as (lv & _ & ->).
  cbn [snd]. repeat split.
  - now intros k ->.
  - intros Hlen. now rewrite nth_error_beyond.
  - now intros v ->.
  - intros Hlen. now rewrite nth_error_beyond.
Qed.

(** X13. Dereferencing a properties iterator that stands at the index values
    [key_index] and [value_index]: the key and the value of these
    positions when both are within their tables, [out_of_range] when one
    of them is not; the tables are built by at most one pass. *)
Theorem properties_iterator_deref_spec (data : list byte)
  (fs : list field) (l : layer) (calls : list accessor)
  (key_index value_index : Z) :
  pbf_records data = Ok fs ->
  make_layer (view data) = Ok l ->
  let l' := after_accessors calls l in
  let result := properties_iterator_deref key_index value_index l' in
  snd result =
    match nth_error (keys_of fs) (Z.to_nat key_index),
          nth_error (values_of fs) (Z.to_nat value_index) with
    | Some k, Some v => Ok (k, v)
    | _, _ => Throw out_of_range
    end /\
  (passes (fst result) <= 1)%nat.
Proof.
  intros Hrec Hmake l' result.
  apply (make_layer_Ok_built data fs l Hrec) in Hmake. subst l.
  pose proof (after_accessors_states data fs Hrec calls (built data fs)
                (or_introl eq_refl)) as Hstate. fold l' in Hstate.
  destruct (key_in_state data fs l' key_index Hrec Hstate)
    as (lk & Hlk & Hkey).
  destruct (value_in_state data fs lk value_index Hrec Hlk)
    as (lv & Hlv & Hvalue).
  destruct (built_spec data fs) as (_ & _ & _ & _ & Hp & _).
  assert (Hpk : (passes lk <= 1)%nat).
  { destruct Hlk as [-> | ->]; [rewrite Hp; lia | cbn; lia]. }
  assert (Hpv : (passes lv <= 1)%nat).
  { destruct Hlv as [-> | ->]; [rewrite Hp; lia | cbn; lia]. }
  subst result. unfold properties_iterator_deref, mbind. rewrite Hkey.
  destruct (nth_error (keys_of fs) (Z.to_nat key_index)) as [k|];
    [|split; [reflexivity | exact Hpk]].
  rewrite Hvalue.
  destruct (nth_error (values_of fs) (Z.to_nat value_index)) as [v|];
    split; try reflexivity; exact Hpv.
Qed.

(** ** A feature found by its id is one of the features gone over *)

Lemma lookup_id_bound (id : Z) :
  forall (frs : list (list field)) (j : nat),
    lookup_id id frs = Some j -> (j < length frs)%nat.
Proof.
  induction frs as [|ffs frs IH]; intros j Hj; [discriminate|].
  cbn [lookup_id length] in *.
  destruct (explicit_id ffs) as [v|]; [destruct (v =? id)|].
  - injection Hj as <-. lia.
  - destruct (lookup_id id frs) as [j'|]; [|discriminate].
    injection Hj as <-. specialize (IH j' eq_refl). lia.
  - destruct (lookup_id id frs) as [j'|]; [|discriminate].
    injection Hj as <-. specialize (IH j' eq_refl). lia.
Qed.

(** X14. What [get_feature_by_id] returns, when it is not the invalid feature,
    is one of the features that going over the layer with [next_feature()]
    yields, with the same layer and the same bytes. *)
Theorem get_feature_by_id_among_features (data : list byte)
  (fs : list field) (frs : list (list field)) (l : layer) (id : Z)
  (f : feature) :
  pbf_records data = Ok fs ->
  make_layer (view data) = Ok l ->
  features_records (features_of fs) frs ->
  snd (get_feature_by_id id l) = Ok f ->
  f <> invalid_feature ->
  In (Ok f) (next_features (length (features_of fs)) l).
Proof.
  intros Hrec Hmake Hfrs Hget Hvalid.
  destruct (make_layer_Ok_inv _ _ Hmake) as (Hv & Hd & Hr).
  rewrite (get_feature_by_id_spec id data fs frs l Hd Hrec Hfrs) in Hget.
  cbn [snd] in Hget. injection Hget as <-.
  apply pbf_records_reads in Hrec as Hreads. rewrite <- Hr in Hreads.
  rewrite (next_features_reads (view data) _ l fs Hv Hd Hreads).
  rewrite firstn_all, Nat.sub_diag. cbn [repeat]. rewrite app_nil_r.
  unfold found_feature in *.
  destruct (lookup_id id frs) as [j|] eqn:Hj; [|congruence].
  apply lookup_id_bound in Hj.
  rewrite <- (Forall2_length Hfrs) in Hj. rewrite Hd.
  apply (in_map (fun b => Ok (mk_feature (Some (view data)) (view b)))).
  now apply nth_In.
Qed.

End LayerFacts.

(** * The theorems at concrete inputs *)

Module Instances.

Import Geometry Protozero Layer.

Lemma decode_polygon_geometry_shoelace_witness :
  Forall count_fits ([] ++ outer_square :: [square]) /\
  (true = false \/
   forallb ring_strict_ok ([] ++ outer_square :: [square]) = true) /\
  shoelace_sum [mk_point 0 0; mk_point 10 0; mk_point 10 10; mk_point 0 10;
                mk_point 0 0] = 200 /\
  decode_polygon_geometry
    (mk_geometry [9; 0; 0; 26; 20; 0; 0; 20; 19; 0; 15;
                  9; 0; 0; 26; 0; 20; 20; 0; 0; 19; 15] POLYGON) true [] =
  ([ev_ring_begin 5; ev_ring_point (mk_point 0 0);
    ev_ring_point (mk_point 10 0); ev_ring_point (mk_point 10 10);
    ev_ring_point (mk_point 0 10); ev_ring_point (mk_point 0 0);
    ev_ring_end true;
    ev_ring_begin 5; ev_ring_point (mk_point 0 10);
    ev_ring_point (mk_point 0 20); ev_ring_point (mk_point 10 20);
    ev_ring_point (mk_point 10 10); ev_ring_point (mk_point 0 10);
    ev_ring_end false], Ok tt).
Proof.
  assert (Hfit : Forall count_fits ([] ++ outer_square :: [square]))
    by (repeat constructor).
  assert (Hok : true = false \/
                forallb ring_strict_ok ([] ++ outer_square :: [square]) =
                true)
    by (right; reflexivity).
  split; [exact Hfit | split; [exact Hok | split; [reflexivity|]]].
  exact (GeometryFacts.decode_polygon_geometry_shoelace
           true [] outer_square [square] [] Hfit Hok).
Defined.

(** The claim of C2 asks for a geometry exception here: non-strict mode,
    a ring whose LineTo command has the count 0. *)
Lemma polygon_line_to_count_0_non_strict :
  get_command_id 2 = command_line_to 0 /\
  get_command_count 2 = 0 /\
  decode_polygon_geometry (mk_geometry [9; 0; 0; 2; 15] POLYGON) false [] =
  ([ev_ring_begin 2; ev_ring_point (mk_point 0 0);
    ev_ring_point (mk_point 0 0); ev_ring_end false], Ok tt).
Proof. repeat split. Qed.

Lemma polygon_line_to_count_by_mode_witness :
  Forall count_fits ([] ++ bare_ring :: []) /\
  line_count bare_ring <= 1 /\
  (exists h' msg,
     decode_polygon_geometry (mk_geometry [9; 0; 0; 2; 15] POLYGON) true [] =
     (h', Throw (geometry_exception msg))) /\
  decode_polygon_geometry (mk_geometry [9; 0; 0; 2; 15] POLYGON) false [] =
  ([ev_ring_begin 2; ev_ring_point (mk_point 0 0);
    ev_ring_point (mk_point 0 0); ev_ring_end false], Ok tt).
Proof.
  assert (Hfit : Forall count_fits ([] ++ bare_ring :: []))
    by (repeat constructor).
  assert (Hle : line_count bare_ring <= 1) by discriminate.
  split; [exact Hfit | split; [exact Hle|]].
  exact (GeometryFacts.polygon_line_to_count_by_mode
           [] bare_ring [] [] Hfit Hle).
Defined.

Lemma strict_mode_rejects_zero_delta_witness :
  Forall count_fits [stalling] /\
  In stalling [stalling] /\ In (0, 0) (path_line stalling) /\
  decode_zigzag32 0 = 0 /\
  (exists h' msg,
     decode_linestring_geometry
       (mk_geometry [9; 6; 12; 18; 10; 12; 0; 0] LINESTRING) true [] =
     (h', Throw (geometry_exception msg))) /\
  decode_linestring_geometry
    (mk_geometry [9; 6; 12; 18; 10; 12; 0; 0] LINESTRING) false [] =
  ([ev_linestring_begin 3; ev_linestring_point (mk_point 3 6);
    ev_linestring_point (mk_point 8 12); ev_linestring_point (mk_point 8 12);
    ev_linestring_end], Ok tt).
Proof.
  assert (Hfit : Forall count_fits [stalling]) by (repeat constructor).
  assert (Hr : In stalling [stalling]) by (left; reflexivity).
  assert (Hp : In (0, 0) (path_line stalling))
    by (right; left; reflexivity).
  assert (Hpos : Forall (fun r => 1 <= line_count r) [stalling])
    by (repeat constructor; discriminate).
  split; [exact Hfit | split; [exact Hr | split; [exact Hp|]]].
  split; [reflexivity|].
  exact (proj2 (GeometryFacts.strict_mode_rejects_zero_delta
                  [stalling] stalling (0, 0) [] Hfit Hr Hp
                  eq_refl eq_refl) Hpos).
Defined.

Lemma close_path_count_must_be_1_witness :
  get_command_id (command_close_path 2) = 7 /\
  get_command_count (command_close_path 2) <> 1 /\
  exists h' msg,
    decode_polygon_geometry
      (mk_geometry [9; 0; 0; 26; 0; 20; 20; 0; 0; 19; 23] POLYGON) true [] =
    (h', Throw (geometry_exception msg)).
Proof.
  assert (Hid : get_command_id (command_close_path 2) = 7) by reflexivity.
  assert (Hn : get_command_count (command_close_path 2) <> 1)
    by discriminate.
  split; [exact Hid | split; [exact Hn|]].
  exact (proj1 (proj2 (GeometryFacts.close_path_count_must_be_1
                         true (command_close_path 2) [] Hid Hn))
           [] square []
           ltac:(repeat constructor) ltac:(right; reflexivity)).
Defined.

Lemma decode_point_geometry_spec_witness :
  Forall is_uint32 [17; 20; 40; 1; 1] /\
  is_point_stream [17; 20; 40; 1; 1] 2 [(20, 40); (1, 1)] /\
  decode_point_geometry (mk_geometry [17; 20; 40; 1; 1] POINT) true [] =
  ([ev_points_begin 2; ev_points_point (mk_point 10 20);
    ev_points_point (mk_point 9 19); ev_points_end], Ok tt).
Proof.
  assert (Hs : Forall is_uint32 [17; 20; 40; 1; 1])
    by (repeat constructor; discriminate).
  assert (Hshape : is_point_stream [17; 20; 40; 1; 1] 2 [(20, 40); (1, 1)]).
  { exists 17. repeat split. discriminate. }
  split; [exact Hs | split; [exact Hshape|]].
  exact (proj1 (GeometryFacts.decode_point_geometry_spec
                  [17; 20; 40; 1; 1] true [] Hs) 2 _ Hshape).
Defined.

(** The claim of C5 asks for a format exception here: the name record is
    there and has no bytes. *)
Lemma layer_with_empty_name_accepted :
  pbf_records empty_name_layer = Ok [mk_field pbf_layer.name (pl_bytes [])] /\
  exists l, make_layer (view empty_name_layer) = Ok l /\
            m_name l = view [] /\ Protozero.size (m_name l) = 0.
Proof. split; [reflexivity|]. eexists. repeat split. Qed.

Lemma layer_name_presence_witness :
  pbf_records empty_name_layer = Ok [mk_field pbf_layer.name (pl_bytes [])] /\
  (declared_version [mk_field pbf_layer.name (pl_bytes [])] = 1 \/
   declared_version [mk_field pbf_layer.name (pl_bytes [])] = 2) /\
  exists l, make_layer (view empty_name_layer) = Ok l /\
            m_name l = view [] /\
            data_is_null (m_name l) = false.
Proof.
  assert (Hrec : pbf_records empty_name_layer =
                 Ok [mk_field pbf_layer.name (pl_bytes [])]) by reflexivity.
  assert (Hv : declared_version [mk_field pbf_layer.name (pl_bytes [])] = 1 \/
               declared_version [mk_field pbf_layer.name (pl_bytes [])] = 2)
    by (left; reflexivity).
  split; [exact Hrec | split; [exact Hv|]].
  exact (proj2 (LayerFacts.layer_name_presence empty_name_layer _ Hrec Hv)
           eq_refl eq_refl).
Defined.

Lemma layer_version_check_witness :
  pbf_records version_3_layer =
    Ok [mk_field pbf_layer.version (pl_varint 3);
        mk_field pbf_layer.name (pl_bytes [x61])] /\
  make_layer (view version_3_layer) = Throw (version_exception 3).
Proof.
  assert (Hrec : pbf_records version_3_layer =
                 Ok [mk_field pbf_layer.version (pl_varint 3);
                     mk_field pbf_layer.name (pl_bytes [x61])])
    by reflexivity.
  split; [exact Hrec|].
  exact (proj1 (LayerFacts.layer_version_check version_3_layer _ Hrec
                  eq_refl) (or_intror eq_refl)).
Defined.

(** The claim of C8 has the first call of an accessor build both tables:
    here the first call is [value_table()], on a layer with a key and no
    value; it makes no pass and the key table stays as it was, empty. *)
Lemma first_accessor_call_without_pass :
  exists l,
    make_layer (view key_only_layer) = Ok l /\
    snd (key_table l) = Ok [view [x6b]] /\
    passes (after_accessor l call_value_table) = O /\
    m_key_table (after_accessor l call_value_table) = [].
Proof. eexists. repeat split. Qed.

Lemma tables_materialized_at_most_once_witness :
  pbf_records key_only_layer =
    Ok [mk_field pbf_layer.name (pl_bytes [x61]);
        mk_field pbf_layer.keys (pl_bytes [x6b])] /\
  make_layer (view key_only_layer) =
    Ok (built key_only_layer
          [mk_field pbf_layer.name (pl_bytes [x61]);
           mk_field pbf_layer.keys (pl_bytes [x6b])]) /\
  (passes
     (after_accessors [call_value_table; call_key_table; call_key_table]
        (built key_only_layer
           [mk_field pbf_layer.name (pl_bytes [x61]);
            mk_field pbf_layer.keys (pl_bytes [x6b])])) <= 1)%nat.
Proof.
  assert (Hrec : pbf_records key_only_layer =
                 Ok [mk_field pbf_layer.name (pl_bytes [x61]);
                     mk_field pbf_layer.keys (pl_bytes [x6b])])
    by reflexivity.
  assert (Hmake : make_layer (view key_only_layer) =
                  Ok (built key_only_layer
                        [mk_field pbf_layer.name (pl_bytes [x61]);
                         mk_field pbf_layer.keys (pl_bytes [x6b])]))
    by reflexivity.
  split; [exact Hrec | split; [exact Hmake|]].
  exact (proj1 (LayerFacts.tables_materialized_at_most_once
                  key_only_layer _ _
                  [call_value_table; call_key_table; call_key_table]
                  Hrec Hmake)).
Defined.

Lemma get_feature_by_id_needs_id_record_witness :
  pbf_records layer_without_ids =
    Ok [mk_field pbf_layer.name (pl_bytes [x61]);
        mk_field pbf_layer.features (pl_bytes feature_without_id)] /\
  pbf_records feature_without_id =
    Ok [mk_field pbf_feature.type (pl_varint 1);
        mk_field pbf_feature.geometry (pl_bytes [x09; x32; x22])] /\
  feature_id (mk_feature (Some (view layer_without_ids))
                (view feature_without_id)) = Ok 0 /\
  snd (get_feature_by_id 0 (layer_members (view layer_without_ids))) =
    Ok invalid_feature.
Proof.
  assert (Hrec : pbf_records layer_without_ids =
                 Ok [mk_field pbf_layer.name (pl_bytes [x61]);
                     mk_field pbf_layer.features
                       (pl_bytes feature_without_id)]) by reflexivity.
  assert (Hf : pbf_records feature_without_id =
               Ok [mk_field pbf_feature.type (pl_varint 1);
                   mk_field pbf_feature.geometry (pl_bytes [x09; x32; x22])])
    by reflexivity.
  split; [exact Hrec | split; [exact Hf|]].
  pose (T := LayerFacts.get_feature_by_id_needs_id_record
               layer_without_ids _
               [[mk_field pbf_feature.type (pl_varint 1);
                 mk_field pbf_feature.geometry (pl_bytes [x09; x32; x22])]]
               (layer_members (view layer_without_ids)) O
               feature_without_id _
               eq_refl Hrec (Forall2_cons _ _ Hf (Forall2_nil _))
               eq_refl eq_refl eq_refl).
  split; [exact (proj1 T)|].
  exact (proj1 (proj2 T)).
Defined.

(** ** More instances *)

Lemma command_integer_roundtrip_witness :
  is_uint32 26 /\
  get_command_id (command_integer 2 3) = 2 /\
  get_command_count (command_integer 2 3) = 3 /\
  command_integer (get_command_id 26) (get_command_count 26) = 26.
Proof.
  assert (Hc : is_uint32 26) by (unfold is_uint32; lia).
  pose (T := GeometryFacts.command_integer_roundtrip 2 3 26 Hc).
  split; [exact Hc | split; [exact (proj1 T) | split]].
  - exact (proj1 (proj2 T)).
  - exact (proj2 (proj2 (proj2 T))).
Defined.

Lemma det_without_overflow_witness :
  is_int32 (- 2 ^ 31) /\ is_int32 (2 ^ 31 - 1) /\
  det (mk_point (- 2 ^ 31) (2 ^ 31 - 1)) (mk_point (2 ^ 31 - 1) (- 2 ^ 31)) =
  2 ^ 32 - 1 /\
  det (mk_point (2 ^ 31 - 1) (- 2 ^ 31)) (mk_point (- 2 ^ 31) (2 ^ 31 - 1)) =
  - (2 ^ 32 - 1).
Proof.
  assert (Hlo : is_int32 (- 2 ^ 31)) by (unfold is_int32; lia).
  assert (Hhi : is_int32 (2 ^ 31 - 1)) by (unfold is_int32; lia).
  pose (T := GeometryFacts.det_without_overflow
               (mk_point (- 2 ^ 31) (2 ^ 31 - 1))
               (mk_point (2 ^ 31 - 1) (- 2 ^ 31)) Hlo Hhi Hhi Hlo).
  split; [exact Hlo | split; [exact Hhi | split]].
  - exact (proj1 T).
  - exact (eq_trans (proj1 (proj2 T)) (f_equal Z.opp (proj1 T))).
Defined.

Lemma decode_linestring_geometry_spec_witness :
  Forall is_uint32 [9; 6; 12; 18; 10; 12; 0; 0] /\
  is_linestring_stream false [9; 6; 12; 18; 10; 12; 0; 0] [stalling] /\
  decode_linestring_geometry
    (mk_geometry [9; 6; 12; 18; 10; 12; 0; 0] LINESTRING) false [] =
  ([ev_linestring_begin 3; ev_linestring_point (mk_point 3 6);
    ev_linestring_point (mk_point 8 12); ev_linestring_point (mk_point 8 12);
    ev_linestring_end], Ok tt).
Proof.
  assert (Hs : Forall is_uint32 [9; 6; 12; 18; 10; 12; 0; 0])
    by (repeat constructor; discriminate).
  assert (Hshape : is_linestring_stream false
                     [9; 6; 12; 18; 10; 12; 0; 0] [stalling]).
  { split; [reflexivity|]. repeat constructor; discriminate. }
  split; [exact Hs | split; [exact Hshape|]].
  exact (proj1 (GeometryFacts.decode_linestring_geometry_spec
                  [9; 6; 12; 18; 10; 12; 0; 0] false [] Hs) _ Hshape).
Defined.

Lemma decode_polygon_geometry_accepts_witness :
  Forall is_uint32 [9; 0; 0; 26; 0; 20; 20; 0; 0; 19] /\
  ~ (exists rs,
       is_polygon_stream true [9; 0; 0; 26; 0; 20; 20; 0; 0; 19] rs) /\
  exists msg,
    snd (decode_polygon_geometry
           (mk_geometry [9; 0; 0; 26; 0; 20; 20; 0; 0; 19] POLYGON) true
           ([] : list event)) =
    Throw (geometry_exception msg).
Proof.
  assert (Hs : Forall is_uint32 [9; 0; 0; 26; 0; 20; 20; 0; 0; 19])
    by (repeat constructor; discriminate).
  pose (T := GeometryFacts.decode_polygon_geometry_accepts
               [9; 0; 0; 26; 0; 20; 20; 0; 0; 19] true ([] : list event) Hs).
  assert (Hbad : snd (decode_polygon_geometry
                        (mk_geometry [9; 0; 0; 26; 0; 20; 20; 0; 0; 19]
                           POLYGON) true ([] : list event)) <> Ok tt)
    by discriminate.
  split; [exact Hs | split].
  - intros Hrs. exact (Hbad (proj2 (proj1 T) Hrs)).
  - exact (proj2 T Hbad).
Defined.

Lemma degenerate_ring_is_not_outer_witness :
  Forall count_fits ([] ++ mk_path (0, 0) [(20, 20)] :: [square]) /\
  line_count (mk_path (0, 0) [(20, 20)]) <= 1 /\
  decode_polygon_geometry
    (mk_geometry
       [9; 0; 0; 10; 20; 20; 15; 9; 0; 0; 26; 0; 20; 20; 0; 0; 19; 15]
       POLYGON) false [] =
  ([ev_ring_begin 3; ev_ring_point (mk_point 0 0);
    ev_ring_point (mk_point 10 10); ev_ring_point (mk_point 0 0);
    ev_ring_end false;
    ev_ring_begin 5; ev_ring_point (mk_point 10 10);
    ev_ring_point (mk_point 10 20); ev_ring_point (mk_point 20 20);
    ev_ring_point (mk_point 20 10); ev_ring_point (mk_point 10 10);
    ev_ring_end false], Ok tt).
Proof.
  assert (Hfit : Forall count_fits
                   ([] ++ mk_path (0, 0) [(20, 20)] :: [square]))
    by (repeat constructor).
  assert (Hle : line_count (mk_path (0, 0) [(20, 20)]) <= 1)
    by discriminate.
  split; [exact Hfit | split; [exact Hle|]].
  exact (GeometryFacts.degenerate_ring_is_not_outer
           [] (mk_path (0, 0) [(20, 20)]) [square] [] Hfit Hle).
Defined.

Lemma strict_decoding_refines_witness :
  Forall is_uint32 [9; 6; 12; 18; 10; 12; 1; 1] /\
  decode_linestring_geometry
    (mk_geometry [9; 6; 12; 18; 10; 12; 1; 1] LINESTRING) false
    ([] : list event) =
  decode_linestring_geometry
    (mk_geometry [9; 6; 12; 18; 10; 12; 1; 1] LINESTRING) true [].
Proof.
  assert (Hs : Forall is_uint32 [9; 6; 12; 18; 10; 12; 1; 1])
    by (repeat constructor; discriminate).
  split; [exact Hs|].
  exact (proj1 (proj2 (GeometryFacts.strict_decoding_refines
                         [9; 6; 12; 18; 10; 12; 1; 1] [] Hs)) eq_refl).
Defined.

(** The sample layer: its records, and the layer its constructor builds. *)
Lemma sample_layer_records :
  pbf_records sample_layer = Ok sample_layer_fields.
Proof. vm_compute. reflexivity. Qed.

Lemma sample_layer_made :
  make_layer (view sample_layer) =
  Ok (built sample_layer sample_layer_fields).
Proof. vm_compute. reflexivity. Qed.

Lemma make_layer_unknown_field_witness :
  pbf_records unknown_field_layer =
    Ok ([mk_field pbf_layer.version (pl_varint 3)] ++
        mk_field 6 (pl_varint 1) :: []) /\
  make_layer (view unknown_field_layer) =
  Throw (format_exception "unknown field in layer (tag=6, type=0)").
Proof.
  assert (Hrec : pbf_records unknown_field_layer =
                 Ok ([mk_field pbf_layer.version (pl_varint 3)] ++
                     mk_field 6 (pl_varint 1) :: [])) by reflexivity.
  split; [exact Hrec|].
  exact (LayerFacts.make_layer_unknown_field unknown_field_layer _ _ _ Hrec
           eq_refl eq_refl).
Defined.

Lemma layer_header_accessors_witness :
  pbf_records sample_layer = Ok sample_layer_fields /\
  make_layer (view sample_layer) =
    Ok (built sample_layer sample_layer_fields) /\
  snd (extent (built sample_layer sample_layer_fields)) = Ok 512 /\
  Layer.size (built sample_layer sample_layer_fields) = 2.
Proof.
  pose proof sample_layer_records as Hrec.
  pose proof sample_layer_made as Hmake.
  pose (T := LayerFacts.layer_header_accessors sample_layer _ _ Hrec Hmake).
  split; [exact Hrec | split; [exact Hmake | split]].
  - exact (f_equal snd (proj1 (proj2 T))).
  - exact (proj1 (proj2 (proj2 (proj2 T)))).
Defined.

Lemma make_layer_invariants_witness :
  make_layer null_view =
    Throw (format_exception "missing name field in layer (spec 4.1)") /\
  make_layer (view sample_layer) =
    Ok (built sample_layer sample_layer_fields) /\
  valid (built sample_layer sample_layer_fields) = true /\
  m_data (built sample_layer sample_layer_fields) = view sample_layer /\
  m_version (built sample_layer sample_layer_fields) = 1.
Proof.
  pose proof sample_layer_made as Hmake.
  pose (T := LayerFacts.make_layer_invariants (view sample_layer)
               (built sample_layer sample_layer_fields)).
  split; [exact (proj1 T) | split; [exact Hmake | split; [|split]]].
  - exact (proj1 (proj2 T Hmake)).
  - exact (proj1 (proj2 (proj2 T Hmake))).
  - reflexivity.
Defined.

Lemma next_feature_enumerates_witness :
  pbf_records sample_layer = Ok sample_layer_fields /\
  make_layer (view sample_layer) =
    Ok (built sample_layer sample_layer_fields) /\
  next_features 3 (built sample_layer sample_layer_fields) =
  [Ok (mk_feature (Some (view sample_layer)) (view feature_with_id_7));
   Ok (mk_feature (Some (view sample_layer)) (view feature_without_id));
   Ok invalid_feature].
Proof.
  pose proof sample_layer_records as Hrec.
  pose proof sample_layer_made as Hmake.
  split; [exact Hrec | split; [exact Hmake|]].
  exact (LayerFacts.next_feature_enumerates sample_layer _ _ 3 Hrec Hmake).
Defined.

Lemma reset_feature_restarts_witness :
  make_layer (view sample_layer) =
    Ok (built sample_layer sample_layer_fields) /\
  reset_feature
    (after_next_features 2 (built sample_layer sample_layer_fields)) =
  (built sample_layer sample_layer_fields, Ok tt).
Proof.
  pose proof sample_layer_made as Hmake.
  split; [exact Hmake|].
  exact (LayerFacts.reset_feature_restarts _ _ 2 Hmake).
Defined.

Lemma key_and_value_by_index_witness :
  pbf_records sample_layer = Ok sample_layer_fields /\
  make_layer (view sample_layer) =
    Ok (built sample_layer sample_layer_fields) /\
  0 <= 1 /\
  snd (key 1 (after_accessors [call_value_table]
                (built sample_layer sample_layer_fields))) =
  Throw out_of_range.
Proof.
  pose proof sample_layer_records as Hrec.
  pose proof sample_layer_made as Hmake.
  assert (Hi : 0 <= 1) by discriminate.
  split; [exact Hrec | split; [exact Hmake | split; [exact Hi|]]].
  refine (proj1 (proj2 (LayerFacts.key_and_value_by_index sample_layer _ _
                          [call_value_table] 1 Hrec Hmake Hi)) _).
  discriminate.
Defined.

Lemma properties_iterator_deref_spec_witness :
  pbf_records sample_layer = Ok sample_layer_fields /\
  make_layer (view sample_layer) =
    Ok (built sample_layer sample_layer_fields) /\
  snd (properties_iterator_deref 0 0
         (built sample_layer sample_layer_fields)) =
  Ok (view [x6b], mk_property_value_view (view [x0a; x01; x76])).
Proof.
  pose proof sample_layer_records as Hrec.
  pose proof sample_layer_made as Hmake.
  split; [exact Hrec | split; [exact Hmake|]].
  exact (proj1 (LayerFacts.properties_iterator_deref_spec sample_layer _ _ [] 0 0
                  Hrec Hmake)).
Defined.

Lemma get_feature_by_id_among_features_witness :
  pbf_records sample_layer = Ok sample_layer_fields /\
  make_layer (view sample_layer) =
    Ok (built sample_layer sample_layer_fields) /\
  snd (get_feature_by_id 7 (built sample_layer sample_layer_fields)) =
    Ok (mk_feature (Some (view sample_layer)) (view feature_with_id_7)) /\
  In (Ok (mk_feature (Some (view sample_layer)) (view feature_with_id_7)))
     (next_features 2 (built sample_layer sample_layer_fields)).
Proof.
  pose proof sample_layer_records as Hrec.
  pose proof sample_layer_made as Hmake.
  assert (Hget : snd (get_feature_by_id 7
                        (built sample_layer sample_layer_fields)) =
                 Ok (mk_feature (Some (view sample_layer))
                       (view feature_with_id_7))) by reflexivity.
  split; [exact Hrec | split; [exact Hmake | split; [exact Hget|]]].
  refine (LayerFacts.get_feature_by_id_among_features sample_layer _
            [[mk_field pbf_feature.id (pl_varint 7)];
             [mk_field pbf_feature.type (pl_varint 1);
              mk_field pbf_feature.geometry (pl_bytes [x09; x32; x22])]]
            _ 7 _ Hrec Hmake _ Hget _).
  - repeat constructor.
  - discriminate.
Defined.

End Instances.
